(** * MPB matrixio layer and the sdos writer: model and properties

    A shallow embedding of [src/matrixio/matrixio.c] (the "matrixio" layer
    over the HDF5 interface) and of the output part of [mpb/sdos.c]
    ([get_sdos]), with the properties of the storage layer stated over it.

    Conventions.
    - C [int] values are [Z]; a value stored in an [hsize_t] is reduced
      modulo [2^64] ([to_hsize]), as the C conversion does.
    - C strings are [string]; a [const char *] that may be NULL is an
      [option string].
    - [CHECK(cond, msg)] aborts the process; the model returns [Fatal msg].
    - The HDF5 library, libc and MPI are not part of the repository.  Their
      calls are modelled by the definitions named after them ([H5Dwrite],
      [strstr], ...), following their reference manuals. *)

From stdpp Require Import gmap strings list fin_maps pretty functions.
From Stdlib Require Import ZArith Lia.

Local Open Scope Z_scope.
Set Warnings "-clear-no-such-hyp".

(** ** libc strings *)

(** [strstr(hay, needle)]: offset of the first occurrence of [needle] in
    [hay], [None] for a NULL result. *)
Fixpoint strstr (hay needle : string) : option nat :=
  if String.prefix needle hay then Some 0%nat
  else match hay with
       | EmptyString => None
       | String _ rest => S <$> strstr rest needle
       end.

Definition strlen (s : string) : Z := Z.of_nat (String.length s).

Definition strcat (dst src : string) : string := dst +:+ src.

(** ** Filename normalisation (matrixio.c, lines 62-82) *)

Definition FNAME_SUFFIX : string := ".h5".

(** Pointers into [new_fname] are offsets from its start.  The result of
    [strstr] is compared with [new_fname + oldlen - suflen]; a NULL result
    is different from that pointer.  [fname] is not NULL and the
    allocation of [new_fname] succeeds. *)
Definition add_fname_suffix (fname : string) : string :=
  let oldlen := strlen fname in
  let suflen := strlen FNAME_SUFFIX in
  let new_fname := fname in
  if match strstr new_fname FNAME_SUFFIX with
     | Some i => negb (Z.of_nat i =? oldlen - suflen)
     | None => true
     end
  then strcat new_fname FNAME_SUFFIX
  else new_fname.

(** The tail test the comment in the source describes ("only add suffix if
    it is not already there"): the last [strlen suffix] characters of [s]
    are [suffix]. *)
Definition has_suffix (suffix s : string) : bool :=
  let n := String.length s in
  let k := String.length suffix in
  (k <=? n)%nat && String.eqb (String.substring (n - k) k s) suffix.

(** ** Integers of the C code *)

Definition is_int (z : Z) : Prop := - 2 ^ 31 <= z < 2 ^ 31.

(** Conversion of an [int] to [hsize_t] (unsigned, 64 bits), and the
    product of two [hsize_t]. *)
Definition to_hsize (z : Z) : Z := z mod 2 ^ 64.
Definition hsize_mul (a b : Z) : Z := (a * b) mod 2 ^ 64.

(** [malloc(n)]: a request above [PTRDIFF_MAX] fails; below it the model
    assumes that memory is available. *)
Definition PTRDIFF_MAX : Z := 2 ^ 63 - 1.
Definition malloc_ok (n : Z) : bool := bool_decide (n mod 2 ^ 64 <= PTRDIFF_MAX).

(** The element type [real] of scalar.h is [float] or [double], chosen by
    [SCALAR_SINGLE_PREC]; the model is parametric in it and only needs the
    conversion of an integer. *)
Class RealType (real : Type) := real_of_int : Z → real.

(** ** HDF5 dataspaces and selections *)

Inductive selection :=
| SelAll
| SelHyper (start : list Z) (stride : option (list Z)) (count : list Z).

Record dataspace := Dataspace { sp_dims : list Z; sp_sel : selection }.

(** Coordinates of a hyperslab, in row-major order (last axis fastest). *)
Fixpoint slab_coords (start stride count : list Z) : list (list Z) :=
  match start, stride, count with
  | s :: start', t :: stride', c :: count' =>
      i ← seqZ 0 c; (λ rest, (s + i * t) :: rest) <$> slab_coords start' stride' count'
  | _, _, _ => [[]]
  end.

Definition sel_coords (sp : dataspace) : list (list Z) :=
  let r := length (sp_dims sp) in
  match sp_sel sp with
  | SelAll => slab_coords (replicate r 0) (replicate r 1) (sp_dims sp)
  | SelHyper start stride count =>
      slab_coords start (default (replicate r 1) stride) count
  end.

Fixpoint in_extent (dims c : list Z) : bool :=
  match dims, c with
  | [], [] => true
  | d :: dims', x :: c' => (0 <=? x) && (x <? d) && in_extent dims' c'
  | _, _ => false
  end.

Definition sel_valid (sp : dataspace) : bool :=
  forallb (in_extent (sp_dims sp)) (sel_coords sp).

(** Row-major linear offset of a coordinate in an array of extent [dims]. *)
Fixpoint offset_from (acc : Z) (dims c : list Z) : Z :=
  match dims, c with
  | d :: dims', x :: c' => offset_from (acc * d + x) dims' c'
  | _, _ => acc
  end.

Definition offset (dims c : list Z) : Z := offset_from 0 dims c.

(** A dataspace identifier is [None] when the call that made it failed
    (a negative [hid_t]).  The library bounds the rank of a dataspace by
    [H5S_MAX_RANK]. *)
Definition H5S_MAX_RANK : Z := 32.

Definition H5Screate_simple (rank : Z) (dims : list Z) : option dataspace :=
  if (0 <=? rank) && (rank <=? H5S_MAX_RANK)
     && bool_decide (length dims = Z.to_nat rank)
  then Some (Dataspace dims SelAll) else None.

(** [H5Sselect_hyperslab(space, H5S_SELECT_SET, start, stride, count, NULL)].
    A NULL [stride] is [None].  On an error (a zero stride, arrays of the
    wrong rank) the selection is left as it was; the callers ignore the
    status. *)
Definition H5Sselect_hyperslab (space : option dataspace)
    (start : list Z) (stride : option (list Z)) (count : list Z) : option dataspace :=
  match space with
  | Some sp =>
      let r := length (sp_dims sp) in
      if bool_decide (length start = r) && bool_decide (length count = r)
         && match stride with
            | Some t => bool_decide (length t = r) && forallb (λ x, negb (x =? 0)) t
            | None => true
            end
      then Some (Dataspace (sp_dims sp) (SelHyper start stride count))
      else Some sp
  | None => None
  end.

Definition H5Sget_simple_extent_ndims (space : option dataspace) : Z :=
  match space with
  | Some sp => Z.of_nat (length (sp_dims sp))
  | None => -1
  end.

Definition H5Sget_simple_extent_dims (space : option dataspace) : list Z :=
  match space with
  | Some sp => sp_dims sp
  | None => []
  end.

(** ** The container, the open identifiers and the process memory *)

Section Model.
Context {real : Type} `{!RealType real}.

(** A stored dataset: its extent, the elements written so far (by
    coordinate; an element never written reads as the fill value 0) and
    its attributes. *)
Record dataset := Dataset {
  ds_dims : list Z;
  ds_elems : gmap (list Z) real;
  ds_attrs : gmap string string }.

Inductive hobj :=
| HFile (path : string) (writable : bool)
| HData (path name : string) (writable : bool).

Inductive event :=
| EvOpen (id : Z)
| EvClose (id : Z)
| EvWrite (id : Z) (n : nat)
| EvRead (id : Z) (n : nat).

(** [disk] maps a file name to the datasets of that file; [handles] are the
    open [matrixio_id]s; [mem] is the memory the [real *] arguments point
    into; [master] is the answer of [mpi_is_master()] in this process;
    [log] is the history of the library calls, newest first; [creatable]
    tells under which names the file system lets a file be created (the
    directory exists, the process may write there). *)
Record world := World {
  disk : gmap string (gmap string dataset);
  handles : gmap Z hobj;
  next_id : Z;
  mem : Z → real;
  master : bool;
  log : list event;
  creatable : string → bool }.

Definition set_disk (d : gmap string (gmap string dataset)) (w : world) : world :=
  World d (handles w) (next_id w) (mem w) (master w) (log w) (creatable w).
Definition set_handles (h : gmap Z hobj) (w : world) : world :=
  World (disk w) h (next_id w) (mem w) (master w) (log w) (creatable w).
Definition set_mem (m : Z → real) (w : world) : world :=
  World (disk w) (handles w) (next_id w) m (master w) (log w) (creatable w).
Definition add_event (e : event) (w : world) : world :=
  World (disk w) (handles w) (next_id w) (mem w) (master w) (e :: log w)
        (creatable w).

(** Outcome of a call: it returns, or a [CHECK] aborts the process, or the
    C program has no defined behaviour (an access outside an array). *)
Inductive outcome (A : Type) :=
| Done (a : A) (w : world)
| Fatal (msg : string) (w : world)
| Undefined.
Global Arguments Done {A} a w.
Global Arguments Fatal {A} msg w.
Global Arguments Undefined {A}.

Definition M (A : Type) : Type := world → outcome A.

Global Instance M_ret : MRet M := λ A a w, Done a w.
Global Instance M_bind : MBind M := λ A B f m w,
  match m w with
  | Done a w' => f a w'
  | Fatal msg w' => Fatal msg w'
  | Undefined => Undefined
  end.

Definition CHECK (cond : bool) (msg : string) : M unit :=
  λ w, if cond then Done () w else Fatal msg w.

Definition undefined_unless (cond : bool) : M unit :=
  λ w, if cond then Done () w else Undefined.

Definition mpi_is_master : M bool := λ w, Done (master w) w.

Definition invalid_id : Z := -1.

Definition alloc_handle (o : hobj) : M Z := λ w,
  let id := next_id w in
  Done id (World (disk w) (<[id := o]> (handles w)) (id + 1) (mem w) (master w)
                 (EvOpen id :: log w) (creatable w)).

Definition find_dataset (w : world) (path name : string) : option dataset :=
  disk w !! path ≫= (.!! name).

Definition store_dataset (path name : string) (ds : dataset) (w : world) : world :=
  set_disk (alter (<[name := ds]>) path (disk w)) w.

(** *** Files *)

(** [H5Fcreate(fname, H5F_ACC_TRUNC, ...)]: the file starts empty; where
    no file can be created the call returns a negative identifier and
    nothing has changed. *)
Definition H5Fcreate (fname : string) : M Z := λ w,
  if creatable w fname
  then alloc_handle (HFile fname true) (set_disk (<[fname := ∅]> (disk w)) w)
  else Done invalid_id w.

(** [H5Fopen(fname, H5F_ACC_RDONLY, ...)]. *)
Definition H5Fopen (fname : string) : M Z := λ w,
  match disk w !! fname with
  | Some _ => alloc_handle (HFile fname false) w
  | None => Done invalid_id w
  end.

Definition is_file (o : hobj) : bool :=
  match o with HFile _ _ => true | HData _ _ _ => false end.
Definition is_data (o : hobj) : bool :=
  match o with HFile _ _ => false | HData _ _ _ => true end.

(** Closing an identifier of the expected kind releases it; anything else
    is an error of the library that changes nothing. *)
Definition close_handle (kind : hobj → bool) (id : Z) : M unit := λ w,
  match handles w !! id with
  | Some o => if kind o
              then Done () (add_event (EvClose id) (set_handles (delete id (handles w)) w))
              else Done () w
  | None => Done () w
  end.

Definition H5Fclose (id : Z) : M unit := close_handle is_file id.
Definition H5Dclose (id : Z) : M unit := close_handle is_data id.

(** *** Datasets *)

Definition H5Dcreate (id : Z) (name : string) (space : option dataspace) : M Z := λ w,
  match handles w !! id, space with
  | Some (HFile path true), Some sp =>
      match disk w !! path with
      | Some f =>
          match f !! name with
          | None => alloc_handle (HData path name true)
                      (store_dataset path name (Dataset (sp_dims sp) ∅ ∅) w)
          | Some _ => Done invalid_id w
          end
      | None => Done invalid_id w
      end
  | _, _ => Done invalid_id w
  end.

Definition H5Dopen (id : Z) (name : string) : M Z := λ w,
  match handles w !! id with
  | Some (HFile path rw) =>
      match find_dataset w path name with
      | Some _ => alloc_handle (HData path name rw) w
      | None => Done invalid_id w
      end
  | _ => Done invalid_id w
  end.

Definition H5Dget_space (data_id : Z) : M (option dataspace) := λ w,
  match handles w !! data_id with
  | Some (HData path name _) =>
      Done ((λ ds, Dataspace (ds_dims ds) SelAll) <$> find_dataset w path name) w
  | _ => Done None w
  end.

(** Element of a stored dataset, with the fill value for one never written. *)
Definition ds_elem (ds : dataset) (c : list Z) : real :=
  default (real_of_int 0) (ds_elems ds !! c).

(** [H5Dwrite(data_id, type, mem_space, file_space, H5P_DEFAULT, buf)]: the
    n-th selected element of the memory space goes to the n-th selected
    element of the file space.  The transfer is refused as a whole (status
    -1, nothing changed) when an identifier is invalid, the file is
    read-only, a selection leaves its extent or the two selections differ
    in their number of elements. *)
Definition H5Dwrite (data_id : Z) (mem_space file_space : option dataspace)
    (buf : Z) : M Z := λ w,
  match handles w !! data_id, mem_space, file_space with
  | Some (HData path name true), Some ms, Some fs =>
      match find_dataset w path name with
      | Some ds =>
          let mc := sel_coords ms in
          let fc := sel_coords fs in
          if bool_decide (sp_dims fs = ds_dims ds) && sel_valid ms && sel_valid fs
             && bool_decide (length mc = length fc)
          then
            let elems :=
              foldl (λ m p, <[p.2 := mem w (buf + offset (sp_dims ms) p.1)]> m)
                    (ds_elems ds) (zip mc fc) in
            Done 0 (add_event (EvWrite data_id (length fc))
                      (store_dataset path name
                         (Dataset (ds_dims ds) elems (ds_attrs ds)) w))
          else Done (-1) w
      | None => Done (-1) w
      end
  | _, _, _ => Done (-1) w
  end.

(** [H5Dread], the same in the other direction. *)
Definition H5Dread (data_id : Z) (mem_space file_space : option dataspace)
    (buf : Z) : M Z := λ w,
  match handles w !! data_id, mem_space, file_space with
  | Some (HData path name _), Some ms, Some fs =>
      match find_dataset w path name with
      | Some ds =>
          let mc := sel_coords ms in
          let fc := sel_coords fs in
          if bool_decide (sp_dims fs = ds_dims ds) && sel_valid ms && sel_valid fs
             && bool_decide (length mc = length fc)
          then
            let m' :=
              foldl (λ m p, <[buf + offset (sp_dims ms) p.1 := ds_elem ds p.2]> m)
                    (mem w) (zip mc fc) in
            Done 0 (add_event (EvRead data_id (length fc)) (set_mem m' w))
          else Done (-1) w
      | None => Done (-1) w
      end
  | _, _, _ => Done (-1) w
  end.

(** [H5Acreate] followed by [H5Awrite] of a string attribute; only datasets
    carry attributes in the model. *)
Definition H5Awrite_string (id : Z) (name val : string) : M unit := λ w,
  match handles w !! id with
  | Some (HData path dname true) =>
      match find_dataset w path dname with
      | Some ds =>
          Done () (store_dataset path dname
                     (Dataset (ds_dims ds) (ds_elems ds) (<[name := val]> (ds_attrs ds))) w)
      | None => Done () w
      end
  | _ => Done () w
  end.

(** ** matrixio.c *)

Definition is_empty_string (s : string) : bool :=
  match s with EmptyString => true | _ => false end.

(* lines 34-60 *)
Definition add_string_attr (id : Z) (name val : option string) : M unit :=
  m ← mpi_is_master;
  if negb m then mret ()
  else match val, name with
       | Some v, Some n =>
           if is_empty_string n || is_empty_string v then mret ()
           else
             CHECK (0 <=? id) "error creating HDF attr";;
             H5Awrite_string id n v
       | _, _ => mret ()
       end.

(* lines 84-106 *)
Definition matrixio_create (fname : string) : M Z :=
  let new_fname := add_fname_suffix fname in
  id ← H5Fcreate new_fname;
  CHECK (0 <=? id) "error creating HDF output file";;
  mret id.

(* lines 108-130 *)
Definition matrixio_open (fname : string) : M Z :=
  let new_fname := add_fname_suffix fname in
  id ← H5Fopen new_fname;
  CHECK (0 <=? id) "error opening HDF input file";;
  mret id.

(* lines 132-135 *)
Definition matrixio_close (id : Z) : M unit := H5Fclose id.

(** A caller's [int] array must hold the [rank] entries the loops read. *)
Definition holds (rank : Z) (arr : list Z) : bool :=
  bool_decide (Z.to_nat rank ≤ length arr)%nat.

(* lines 169-201 *)
Definition matrixio_create_dataset (id : Z) (name : string)
    (description : option string) (rank : Z) (dims : list Z) : M Z :=
  CHECK (0 <? rank) "non-positive rank";;
  CHECK (malloc_ok (8 * rank)) "out of memory!";;
  undefined_unless (holds rank dims);;
  let dims_copy := to_hsize <$> take (Z.to_nat rank) dims in
  let space_id := H5Screate_simple rank dims_copy in
  data_id ← H5Dcreate id name space_id;
  add_string_attr data_id (Some "description") description;;
  mret data_id.

(* lines 203-206 *)
Definition matrixio_close_dataset (data_id : Z) : M unit := H5Dclose data_id.

(** [a[i]] and [a[i] = v] on a local array of [rank] entries, for an index
    [0 <= i < rank]. *)
Definition arr_get (a : list Z) (i : Z) : Z := default 0 (a !! Z.to_nat i).
Definition arr_set (a : list Z) (i : Z) (v : Z) : list Z := <[Z.to_nat i := v]> a.

(** The two selections of lines 245-266: the global one in the dataset's
    space and the local one in a memory space made for the buffer. *)
Definition write_file_space (space_id : option dataspace) (rank : Z)
    (local_dims local_start : list Z) : option dataspace :=
  let start := take (Z.to_nat rank) local_start in
  let count := to_hsize <$> take (Z.to_nat rank) local_dims in
  H5Sselect_hyperslab space_id start None count.

Definition write_mem_space (rank : Z) (local_dims : list Z) (stride : Z)
    : option dataspace :=
  let count := to_hsize <$> take (Z.to_nat rank) local_dims in
  let strides := replicate (Z.to_nat rank) 1 in
  let start := replicate (Z.to_nat rank) 0 in
  let strides := arr_set strides (rank - 1) (to_hsize stride) in
  let count := arr_set count (rank - 1)
                 (hsize_mul (arr_get count (rank - 1)) (to_hsize stride)) in
  let mem_space_id := H5Screate_simple rank count in
  let count := arr_set count (rank - 1) (to_hsize (arr_get local_dims (rank - 1))) in
  H5Sselect_hyperslab mem_space_id start
    (if stride <=? 1 then None else Some strides) count.

(* lines 208-280 *)
Definition matrixio_write_real_data (data_id : Z)
    (local_dims local_start : list Z) (stride : Z) (data : Z) : M unit :=
  space_id ← H5Dget_space data_id;
  let rank := H5Sget_simple_extent_ndims space_id in
  CHECK (malloc_ok (8 * rank)) "out of memory!";;
  (* [strides[rank - 1]] needs [rank > 0] *)
  undefined_unless (0 <? rank);;
  undefined_unless (holds rank local_dims && holds rank local_start);;
  let space_id := write_file_space space_id rank local_dims local_start in
  let mem_space_id := write_mem_space rank local_dims stride in
  H5Dwrite data_id mem_space_id space_id data;;
  mret ().

(** The loop of lines 314-317; reading [dims[i]] past the caller's array
    is undefined. *)
Fixpoint check_dims (dims_copy dims : list Z) (n : nat) (i : Z) : M unit :=
  match n with
  | O => mret ()
  | S n' =>
      undefined_unless (holds (i + 1) dims);;
      CHECK (arr_get dims_copy i =? to_hsize (arr_get dims i))
            "array size in HDF5 file doesn't match expected size";;
      check_dims dims_copy dims n' (i + 1)
  end.

(* lines 282-367 *)
Definition matrixio_read_real_data (id : Z) (name : string)
    (rank : Z) (dims : list Z) (local_dim0 local_dim0_start : Z)
    (stride : Z) (data : Z) : M unit :=
  CHECK (0 <? rank) "non-positive rank";;
  data_id ← H5Dopen id name;
  space_id ← H5Dget_space data_id;
  CHECK (rank =? H5Sget_simple_extent_ndims space_id)
        "rank in HDF5 file doesn't match expected rank";;
  CHECK (malloc_ok (8 * rank)) "out of memory!";;
  let dims_copy := H5Sget_simple_extent_dims space_id in
  check_dims dims_copy dims (Z.to_nat rank) 0;;
  let start := replicate (Z.to_nat rank) 0 in
  let strides := replicate (Z.to_nat rank) 1 in
  let count := to_hsize <$> take (Z.to_nat rank) dims in
  let dims_copy := arr_set dims_copy 0 (to_hsize local_dim0) in
  let dims_copy := arr_set dims_copy (rank - 1)
                     (hsize_mul (arr_get dims_copy (rank - 1)) (to_hsize stride)) in
  let start := arr_set start 0 0 in
  let strides := arr_set strides (rank - 1) (to_hsize stride) in
  let count := arr_set count 0 (to_hsize local_dim0) in
  let mem_space_id := H5Screate_simple rank dims_copy in
  let mem_space_id := H5Sselect_hyperslab mem_space_id start (Some strides) count in
  let start := arr_set start 0 local_dim0_start in
  let count := arr_set count 0 (to_hsize local_dim0) in
  let space_id := H5Sselect_hyperslab space_id start None count in
  H5Dread data_id mem_space_id space_id data;;
  H5Dclose data_id.

End Model.

(** ** mpb/sdos.c: the output of the spectral density of states *)

(** The fields of [maxwell_data] and the globals of mpb that [get_sdos]
    and [BtH_overlap] read.  [md_parity] is [None] for [NO_PARITY] and the
    result of [parity_string] otherwise; [md_current_k] is the address of
    the array [current_k].  Of the arrays that mpb.c owns, the model has
    the sizes: [freqs_num_items] is [freqs.num_items]; [H_p] is [H.p] and
    [H_size] the number of [scalar_complex] that [H.data] holds;
    [Hblock_alloc_p] is [Hblock.alloc_p], which is also [Hblock.p] between
    two calls of [BtH_overlap] (lines 117-118 restore it), and
    [Hblock_size] the number of [scalar_complex] in [Hblock.data]. *)
Record maxwell_data := MaxwellData {
  md_nx : Z; md_ny : Z; md_nz : Z;
  md_parity : option string;
  md_current_k : Z }.

Record globals := Globals {
  mdata : maxwell_data;
  num_bands : Z;
  kpoint_index : Z;
  freqs_num_items : Z;
  H_p : Z;
  H_size : Z;
  Hblock_alloc_p : Z;
  Hblock_size : Z }.

(** Addresses of the arrays [sdos] (heap), [freqspan] and [iGspan]
    (locals of [get_sdos]). *)
Record frame := Frame { fr_sdos : Z; fr_freqspan : Z; fr_iGspan : Z }.

Definition fits_int (z : Z) : bool := (- 2 ^ 31 <=? z) && (z <? 2 ^ 31).

(** sdos.c, lines 68-79: the array position of the G-vector index [i] on
    an axis of [n] points, and the lists [ix], [iy], [iz] (here a list of
    triples) in the order in which the loops fill them. *)
Definition G_pos (n i : Z) : Z := if i <=? 0 then - i else n - i.

Definition BtH_G_list (d : maxwell_data)
    (iG1_min iG2_min iG3_min iG1_max iG2_max iG3_max : Z) : list (Z * Z * Z) :=
  i1 ← seqZ iG1_min (iG1_max - iG1_min + 1);
  i2 ← seqZ iG2_min (iG2_max - iG2_min + 1);
  i3 ← seqZ iG3_min (iG3_max - iG3_min + 1);
  [(G_pos (md_nx d) i1, G_pos (md_ny d) i2, G_pos (md_nz d) i3)].

(** sdos.c, line 107: the index of polarisation [c] of the G-vector at
    [(ix, iy, iz)] in the rows of [H.data]. *)
Definition H_row (d : maxwell_data) (pos : Z * Z * Z) (c : Z) : Z :=
  ((pos.1.1 * md_ny d + pos.1.2) * md_nz d + pos.2) * 2 + c.

(** sdos.c, lines 146-148: the size of the buffer of [fix_fname]. *)
Definition fix_fname_alloc (fname prefix : option string) : Z :=
  strlen (default "" fname) + strlen (default "" prefix) + 20.

Section Sdos.
Context {real : Type} `{!RealType real}.

(** Modelled from the spec: the macro [CHK_MALLOC(p, t, n)] of check.h,
    which is not under src/ ("ResourceError: ... allocation failure.
    Aborts the run."); [n] is converted to [size_t], and an empty request
    is not an error. *)
Definition CHK_MALLOC (size n : Z) : M (real:=real) unit :=
  let n_tmp := n mod 2 ^ 64 in
  CHECK (malloc_ok (size * n_tmp) || (n_tmp =? 0)) "out of memory!".

(** Initialisation of an array of [real] at address [p]. *)
Definition store_array (p : Z) (vals : list real) : M unit := λ w,
  Done () (set_mem (foldl (λ m iv, <[p + Z.of_nat iv.1 := iv.2]> m) (mem w)
                          (imap pair vals)) w).

(** An access [a[k]] to an array of [size] elements. *)
Definition in_bounds (k size : Z) : M (real:=real) unit :=
  undefined_unless ((0 <=? k) && (k <? size)).

(** A [for] loop whose index takes the values [l] in turn. *)
Definition for_each {A} (l : list A) (body : A → M (real:=real) unit) : M unit :=
  foldr (λ a rest, body a;; rest) (mret ()) l.

(* lines 86-113: the loop over the blocks of bands, from the band [ib].
   A block has [Hblock.alloc_p] bands, the last one what is left (lines
   87-90); the accesses are those of line 107 to [H.data] and of line 108
   to [Hblock.data].  The entry [BtH[n*n_bands+ibb-band_min]] written at
   line 110 lies in the [nG*n_bands] entries of the caller, since
   [n < nG] and [band_min <= ibb < final_band].  [maxwell_set_num_bands],
   [evectmatrix_resize] and [maxwell_compute_H_from_B] are not under src/
   and the sums are numerical: of these the model keeps that
   [maxwell_compute_H_from_B] (line 94) is handed the bands
   [ib .. ib+p-1] of [H], which [H] must have.  [fuel] bounds the number
   of blocks; a loop that does not advance ([Hblock.alloc_p <= 0]) uses
   it up. *)
Fixpoint BtH_blocks (fuel : nat) (g : globals) (L : list (Z * Z * Z))
    (final_band ib : Z) : M (real:=real) unit :=
  if ib <? final_band then
    match fuel with
    | O => λ _, Undefined
    | S fuel' =>
        let p := if final_band <? ib + Hblock_alloc_p g
                 then final_band - ib else Hblock_alloc_p g in
        undefined_unless ((0 <=? ib) && (ib + p <=? H_p g));;
        for_each L (λ pos,
          for_each (seqZ ib p) (λ ibb,
            for_each [0; 1] (λ c,
              in_bounds (H_row (mdata g) pos c * H_p g + ibb) (H_size g);;
              in_bounds (H_row (mdata g) pos c * p + ibb - ib)
                        (Hblock_size g))));;
        BtH_blocks fuel' g L final_band (ib + Hblock_alloc_p g)
    end
  else mret ().

(* lines 34-122: the allocations, the checks of the arguments ([mdata] is
   not NULL) and the array accesses of the loops *)
Definition BtH_overlap (g : globals) (band_min n_bands : Z)
    (iG1_min iG2_min iG3_min iG1_max iG2_max iG3_max : Z) : M (real:=real) unit :=
  let nx := md_nx (mdata g) in
  let ny := md_ny (mdata g) in
  let nz := md_nz (mdata g) in
  let nG := (iG1_max - iG1_min + 1) * (iG2_max - iG2_min + 1) * (iG3_max - iG3_min + 1) in
  undefined_unless (fits_int nG);;
  CHK_MALLOC 4 nG;;
  CHK_MALLOC 4 nG;;
  CHK_MALLOC 4 nG;;
  CHECK ((iG1_min <=? iG1_max) && (iG2_min <=? iG2_max) && (iG3_min <=? iG3_max))
        "req'ed G vectors must be incrementing (min<=max)";;
  CHECK (((Z.quot (- nx) 2 <? iG1_min) && (iG1_max <=? Z.quot nx 2))
         || ((iG1_min =? iG1_max) && (iG1_max =? nx - 1) && (nx - 1 =? 0)))
        "iG1 out of bounds";;
  CHECK (((Z.quot (- ny) 2 <? iG2_min) && (iG2_max <=? Z.quot ny 2))
         || ((iG2_min =? iG2_max) && (iG2_max =? ny - 1) && (ny - 1 =? 0)))
        "iG2 out of bounds";;
  CHECK (((Z.quot (- nz) 2 <? iG3_min) && (iG3_max <=? Z.quot nz 2))
         || ((iG3_min =? iG3_max) && (iG3_max =? nz - 1) && (nz - 1 =? 0)))
        "iG3 out of bounds";;
  CHECK (band_min + n_bands <=? num_bands g) "not enough bands in shift_overlap";;
  BtH_blocks (Z.to_nat n_bands) g
    (BtH_G_list (mdata g) iG1_min iG2_min iG3_min iG1_max iG2_max iG3_max)
    (band_min + n_bands) band_min.

(* lines 142-158 *)
Definition fix_fname (fname prefix : option string) (d : maxwell_data)
    (parity_suffix : bool) : string :=
  let s := default "" prefix in
  let s := strcat s (default "" fname) in
  match parity_suffix, md_parity d with
  | true, Some p => strcat (strcat s ".") p
  | _, _ => s
  end.

(** The contents given to the array [iGspan] at line 174, from the rounded
    integers of lines 170-171. *)
Definition iGspan_init (iG1_min iG2_min iG3_min iG1_max iG2_max iG3_max : Z)
    : list real :=
  real_of_int <$> [iG1_min; iG1_max; iG2_min; iG2_max; iG2_min; iG2_max].

(* lines 163-261.  The arguments [iG*] are the values after [myround];
   [sdos_vals] stands for the result of the summation of lines 217-229.
   The accesses that can leave their array are those of line 193
   ([spanfreqs[0]] in an array of [freq_num] entries), of line 203
   ([freqs.items[b+band_min]]) and of [fix_fname] (lines 149-156, the
   result copied into its buffer); the other loops stay inside the arrays
   allocated at lines 185-189 by their bounds. *)
Definition get_sdos (g : globals) (fr : frame)
    (freq_min freq_max : real) (freq_num : Z) (band_min n_bands : Z)
    (iG1_min iG2_min iG3_min iG1_max iG2_max iG3_max : Z)
    (saveprefix : option string) (sdos_vals : list real) : M unit :=
  let nG1 := iG1_max - iG1_min + 1 in
  let nG2 := iG2_max - iG2_min + 1 in
  let nG3 := iG3_max - iG3_min + 1 in
  let nG := nG1 * nG2 * nG3 in
  undefined_unless (fits_int nG && fits_int (freq_num * nG) && fits_int (nG * n_bands));;
  store_array (fr_iGspan fr)
    (iGspan_init iG1_min iG2_min iG3_min iG1_max iG2_max iG3_max);;
  store_array (fr_freqspan fr) [freq_min; freq_max; real_of_int freq_num];;
  let iodims0 := [freq_num * nG] in
  let iodims1 := [3] in
  let iodims2 := [6] in
  let iodims3 := [1] in
  let iostart := [0] in
  CHK_MALLOC 16 (nG * n_bands);;
  CHK_MALLOC 8 freq_num;;
  CHK_MALLOC 8 freq_num;;
  CHK_MALLOC 8 n_bands;;
  CHK_MALLOC 8 (freq_num * nG);;
  CHK_MALLOC 1 256;;
  in_bounds 0 freq_num;;
  for_each (seqZ 0 n_bands)
    (λ b, in_bounds (b + band_min) (freqs_num_items g));;
  BtH_overlap g band_min n_bands iG1_min iG2_min iG3_min iG1_max iG2_max iG3_max;;
  store_array (fr_sdos fr) sdos_vals;;
  let savename := "-sdos.k" +:+ pretty (kpoint_index g) in
  CHK_MALLOC 1 (fix_fname_alloc (Some savename) saveprefix);;
  undefined_unless
    (strlen (fix_fname (Some savename) saveprefix (mdata g) true) + 1
     <=? fix_fname_alloc (Some savename) saveprefix);;
  let savename := fix_fname (Some savename) saveprefix (mdata g) true in
  file_id ← matrixio_create savename;
  data_id ← matrixio_create_dataset file_id "sdos" (Some "remember to unfold") 1 iodims0;
  matrixio_write_real_data data_id iodims0 iostart 1 (fr_sdos fr);;
  data_id ← matrixio_create_dataset file_id "freqspan"
              (Some "freq_min, freq_max, freq_num") 1 iodims1;
  matrixio_write_real_data data_id iodims1 iostart 1 (fr_freqspan fr);;
  data_id ← matrixio_create_dataset file_id "iGspan"
              (Some "iG1_min, iG1_max, iG2_min, iG2_max, iG3_min, iG3_max") 1 iodims2;
  matrixio_write_real_data data_id iodims2 iostart 1 (fr_iGspan fr);;
  data_id ← matrixio_create_dataset file_id "kpoint" (Some "NULL") 1 iodims3;
  matrixio_write_real_data data_id iodims3 iostart 1 (md_current_k (mdata g));;
  matrixio_close_dataset data_id;;
  matrixio_close file_id.

(** The contents of a stored rank-1 dataset, element by element. *)
Definition dataset_contents (w : world) (path name : string) : option (list real) :=
  ds ← find_dataset w path name;
  n ← head (ds_dims ds);
  Some ((λ i, ds_elem ds [i]) <$> seqZ 0 n).

(** Identifiers of the datasets that are still open. *)
Definition open_datasets (w : world (real:=real)) : list Z :=
  (filter (λ p, is_data p.2 = true) (map_to_list (handles w))).*1.

End Sdos.

(** ** Collective creation of a group (matrixio.c, lines 137-162)

    [matrixio_create_sub] is run by every process of the job.  The model
    is a transition system over the control points of the [K] processes:
    a step is one library call of one process, and the interleaving is
    arbitrary.  [MPI_Barrier] is entered in one step and left in another,
    which is enabled once every process has entered. *)
Module Collective.

Inductive pc :=
| Entry                 (* before the test of [mpi_is_master()] *)
| MCreated              (* master, after [H5Gcreate] *)
| MAttr                 (* master, after [add_string_attr] *)
| MFlushed              (* master, after [H5Fflush] *)
| InBarrier             (* inside [MPI_Barrier] *)
| FPassed               (* follower, after [MPI_Barrier] *)
| Returned (ok : bool). (* [ok]: the [sub_id] returned is a valid one *)

Inductive event :=
| ECreate (p : nat)
| EAttr (p : nat)
| EFlush (p : nat)
| EEnter (p : nat)
| ELeave (p : nat)
| EOpen (p : nat) (ok : bool).

Global Instance pc_eq_dec : EqDecision pc.
Proof. solve_decision. Defined.
Global Instance event_eq_dec : EqDecision event.
Proof. solve_decision. Defined.

(** [node] is the group in the file, with its description attribute, once
    created; [flushed] tells whether it has been flushed, hence is visible
    to the other processes; [history] has the newest event first. *)
Record state := State {
  procs : list pc;
  node : option (option string);
  flushed : bool;
  history : list event }.

Definition entered (c : pc) : bool :=
  match c with
  | InBarrier | FPassed | Returned _ => true
  | _ => false
  end.

Definition returned (c : pc) : bool :=
  match c with Returned _ => true | _ => false end.

Definition is_create (e : event) : bool :=
  match e with ECreate _ => true | _ => false end.

(** Number of calls of [H5Gcreate] in a history. *)
Definition creations (h : list event) : nat := length (List.filter is_create h).

(** The attribute [add_string_attr] leaves: none for a NULL or empty
    description. *)
Definition attr_of (description : option string) : option string :=
  match description with
  | Some (String a d) => Some (String a d)
  | _ => None
  end.

Section Protocol.
(** [K] processes; [coord] is the one for which [mpi_is_master()] holds.
    Modelled from the spec: [mpi_is_master] of mpi_utils, which is not
    under src/ ("Exactly one coordinator process (a fixed, externally
    designated role)"). *)
Variable K : nat.
Variable coord : nat.
Variable description : option string.

Definition mpi_is_master (p : nat) : bool := bool_decide (p = coord).

Definition init : state := State (replicate K Entry) None false [].

Definition set_pc (p : nat) (c : pc) (e : list event) (s : state) : state :=
  State (<[p := c]> (procs s)) (node s) (flushed s) (e ++ history s).

(** The next step of process [p], if it can take one.  [H5Gcreate] makes
    the group when the name is free and leaves an existing one as it is;
    [H5Gopen] finds the group once it has been flushed. *)
Definition step_proc (p : nat) (s : state) : option state :=
  match procs s !! p with
  | Some Entry =>
      if mpi_is_master p
      then (* sub_id = H5Gcreate(id, name, 0) *)
        Some (State (<[p := MCreated]> (procs s))
                    (match node s with None => Some None | n => n end)
                    (flushed s) (ECreate p :: history s))
      else (* MPI_Barrier, entering *)
        Some (set_pc p InBarrier [EEnter p] s)
  | Some MCreated =>
      (* add_string_attr(sub_id, "description", description) *)
      match attr_of description with
      | Some d => Some (State (<[p := MAttr]> (procs s))
                              ((λ _, Some d) <$> node s)
                              (flushed s) (EAttr p :: history s))
      | None => Some (set_pc p MAttr [] s)
      end
  | Some MAttr =>
      (* H5Fflush(sub_id, H5F_SCOPE_GLOBAL) *)
      Some (State (<[p := MFlushed]> (procs s)) (node s) true
                  (EFlush p :: history s))
  | Some MFlushed =>
      (* MPI_Barrier, entering *)
      Some (set_pc p InBarrier [EEnter p] s)
  | Some InBarrier =>
      (* MPI_Barrier, leaving *)
      if forallb entered (procs s)
      then Some (set_pc p (if mpi_is_master p then Returned true else FPassed)
                        [ELeave p] s)
      else None
  | Some FPassed =>
      (* sub_id = H5Gopen(id, name) *)
      let ok := flushed s && bool_decide (is_Some (node s)) in
      Some (set_pc p (Returned ok) [EOpen p ok] s)
  | Some (Returned _) => None
  | None => None
  end.

Inductive step : state → state → Prop :=
| step_of p s s' : step_proc p s = Some s' → step s s'.

Inductive reachable : state → Prop :=
| reach_init : reachable init
| reach_step s s' : reachable s → step s s' → reachable s'.

(** Running a schedule: the processes named take their steps in turn. *)
Definition run (sched : list nat) : state :=
  foldl (λ s p, default s (step_proc p s)) init sched.

Definition final (s : state) : Prop := Forall (λ c, returned c = true) (procs s).

(** [e] occurs in the history [h] and [e'] occurs before it in time. *)
Definition preceded_by (h : list event) (e e' : event) : Prop :=
  ∀ newer older, h = newer ++ e :: older → e' ∈ older.

(** Number of steps a process at [c] can still take, at most; their sum
    bounds the length of what remains of any run. *)
Definition weight (c : pc) : nat :=
  match c with
  | Entry => 6 | MCreated => 5 | MAttr => 4 | MFlushed => 3
  | InBarrier => 2 | FPassed => 1 | Returned _ => 0
  end.

Definition measure (s : state) : nat := sum_list (weight <$> procs s).

(** *** The invariant of the protocol *)

Definition all_entered (s : state) : Prop :=
  Forall (λ c, entered c = true) (procs s).

(** What the coordinator has done once it has flushed. *)
Definition published (s : state) (p : nat) : Prop :=
  node s = Some (attr_of description) ∧ flushed s = true
  ∧ ECreate p ∈ history s ∧ EFlush p ∈ history s
  ∧ (is_Some (attr_of description) → EAttr p ∈ history s).

(** What holds of the shared state when process [p] is at [c]. *)
Definition good_pc (s : state) (p : nat) (c : pc) : Prop :=
  match c with
  | Entry => p = coord → node s = None ∧ ∀ q, ECreate q ∉ history s
  | MCreated => p = coord ∧ node s = Some None ∧ ECreate p ∈ history s
  | MAttr =>
      p = coord ∧ node s = Some (attr_of description) ∧ ECreate p ∈ history s
      ∧ (is_Some (attr_of description) → EAttr p ∈ history s)
  | MFlushed => p = coord ∧ published s p
  | InBarrier => EEnter p ∈ history s ∧ (p = coord → published s p)
  | FPassed =>
      p ≠ coord ∧ EEnter p ∈ history s ∧ ELeave p ∈ history s ∧ all_entered s
  | Returned ok =>
      ok = true ∧ EEnter p ∈ history s ∧ ELeave p ∈ history s ∧ all_entered s
      ∧ (p = coord → published s p)
      ∧ (p ≠ coord → EOpen p true ∈ history s)
  end.

(** What held when an event was added to the history [past]. *)
Definition event_ok (e : event) (past : list event) : Prop :=
  match e with
  | ECreate p => p = coord ∧ ∀ q, ECreate q ∉ past
  | EAttr p => p = coord ∧ ECreate p ∈ past
  | EFlush p => p = coord ∧ ECreate p ∈ past
  | EEnter p => p = coord → EFlush p ∈ past
  | ELeave p => ∀ q, (q < K)%nat → EEnter q ∈ past
  | EOpen p ok => p ≠ coord ∧ ok = true ∧ ELeave p ∈ past ∧ EFlush coord ∈ past
  end.

Fixpoint wf_history (h : list event) : Prop :=
  match h with
  | [] => True
  | e :: past => event_ok e past ∧ wf_history past
  end.

Definition inv (s : state) : Prop :=
  length (procs s) = K
  ∧ (∀ p c, procs s !! p = Some c → good_pc s p c)
  ∧ wf_history (history s).

End Protocol.
End Collective.

(** ** Vocabulary of the statements *)

(** All coordinates of an array of extent [dims], in row-major order. *)
Definition box (dims : list Z) : list (list Z) :=
  slab_coords (replicate (length dims) 0) (replicate (length dims) 1) dims.

(** The coordinate at step [j] of a hyperslab: [start + j * stride] on each
    axis. *)
Fixpoint place (start stride j : list Z) : list Z :=
  match start, stride, j with
  | s :: start', t :: stride', i :: j' => (s + i * t) :: place start' stride' j'
  | _, _, _ => []
  end.

(** [c] lies in the hyperslab of shape [count] at offset [start]. *)
Fixpoint in_slab (start count c : list Z) : bool :=
  match start, count, c with
  | [], [], [] => true
  | s :: start', n :: count', x :: c' =>
      (s <=? x) && (x <? s + n) && in_slab start' count' c'
  | _, _, _ => false
  end.

(** The hyperslab of shape [count] at offset [start] lies inside the
    extent [D] (and has its rank). *)
Fixpoint slab_within (D start count : list Z) : bool :=
  match D, start, count with
  | [], [], [] => true
  | d :: D', s :: start', n :: count' =>
      (0 <=? s) && (0 <=? n) && (s + n <=? d) && slab_within D' start' count'
  | _, _, _ => false
  end.

Definition product (l : list Z) : Z := foldr Z.mul 1 l.

(** [l] with its last entry replaced by [v]: what [a[rank - 1] = v] does
    to an array of [rank] entries. *)
Fixpoint set_last (v : Z) (l : list Z) : list Z :=
  match l with
  | [] => []
  | [_] => [v]
  | x :: l' => x :: set_last v l'
  end.

(** Messages of the validation in [matrixio_read_real_data]. *)
Definition MSG_RANK : string := "rank in HDF5 file doesn't match expected rank".
Definition MSG_SIZE : string := "array size in HDF5 file doesn't match expected size".

(** The hyperslab of shape [count] at offset [start] leaves the extent
    [D] on some axis: [start[i] + count[i] > D[i]]. *)
Definition out_of_range (D start count : list Z) : Prop :=
  ∃ (i : nat) d a n,
    D !! i = Some d ∧ start !! i = Some a ∧ count !! i = Some n ∧ d < a + n.

(** The arguments of one call of [matrixio_write_real_data]. *)
Record write_call := WriteCall {
  wc_dims : list Z; wc_start : list Z; wc_stride : Z; wc_data : Z }.

(** The slot of the caller's buffer that a call contributes to the global
    position [x]: every [stride]-th slot, in row-major order of the local
    block. *)
Definition wc_slot (c : write_call) (x : list Z) : Z :=
  wc_data c + wc_stride c * offset (wc_dims c) (zip_with Z.sub x (wc_start c)).

(** The global hyperslab of a call, as a set of positions. *)
Definition slab_of (c : write_call) (x : list Z) : bool :=
  in_slab (wc_start c) (wc_dims c) x.

(** A call whose hyperslab lies in the dataset of shape [D], with a
    positive stride. *)
Definition call_ok (D : list Z) (c : write_call) : Prop :=
  slab_within D (wc_start c) (wc_dims c) = true ∧ 1 <= wc_stride c < 2 ^ 31.

(** The hyperslabs of the calls are pairwise disjoint; together they cover
    the shape [D]. *)
Definition disjoint_calls (ws : list write_call) : Prop :=
  ∀ i j ci cj x, i ≠ j → ws !! i = Some ci → ws !! j = Some cj →
    slab_of ci x = true → slab_of cj x = true → False.

Definition cover_calls (D : list Z) (ws : list write_call) : Prop :=
  ∀ x, in_extent D x = true → ∃ c, c ∈ ws ∧ slab_of c x = true.

Section Calls.
Context {real : Type} `{!RealType real}.

Fixpoint run_writes (data_id : Z) (ws : list write_call) : M (real:=real) unit :=
  match ws with
  | [] => mret ()
  | c :: ws' =>
      matrixio_write_real_data data_id (wc_dims c) (wc_start c) (wc_stride c)
                               (wc_data c);;
      run_writes data_id ws'
  end.

End Calls.

(** ** A concrete instance, for the examples: reals that are integers *)

Global Instance Z_real : RealType Z := λ z, z.

(** An empty disk on which every name can be created; the memory holds
    [a] at every address [a]. *)
Definition w_empty : world (real:=Z) :=
  World ∅ ∅ 1 (λ a, a) true [] (λ _, true).

(** A file "run.h5" with a dataset "d" of extent [dims], both open. *)
Definition with_dataset `{!RealType real} (rank : Z) (dims : list Z)
    : M (real:=real) (Z * Z) :=
  f ← matrixio_create "run";
  d ← matrixio_create_dataset f "d" None rank dims;
  mret (f, d).

Definition world_of {real A} (o : outcome (real:=real) A) (w : world) : world :=
  match o with Done _ w' => w' | Fatal _ w' => w' | Undefined => w end.

(** The world after the creation of "run.h5" with a dataset "d". *)
Definition w_dataset (rank : Z) (dims : list Z) : world (real:=Z) :=
  world_of (with_dataset rank dims w_empty) w_empty.

(** An empty disk on which no file can be created. *)
Definition w_readonly : world (real:=Z) :=
  World ∅ ∅ 1 (λ a, a) true [] (λ _, false).

(** The world after the creation of "run.h5" alone. *)
Definition w_file : world (real:=Z) :=
  world_of (matrixio_create "run" w_empty) w_empty.

Definition g_example : globals :=
  Globals (MaxwellData 4 4 4 None 300) 8 1 8 8 1024 8 1024.
Definition fr_example : frame := Frame 1000 2000 3000.

(** Scenario A of the specification: a dataset "sdos" of 24 elements is
    written in one call from the buffer at address 0, the file is closed
    and opened again, and the dataset is read into the buffer at 1000. *)
Definition scenario_A : M (real:=Z) unit :=
  f ← matrixio_create "run";
  d ← matrixio_create_dataset f "sdos" None 1 [24];
  matrixio_write_real_data d [24] [0] 1 0;;
  matrixio_close_dataset d;;
  matrixio_close f;;
  f ← matrixio_open "run";
  matrixio_read_real_data f "sdos" 1 [24] 24 0 1 1000;;
  matrixio_close f.

(** Scenario B: a dataset "pair" of 2 elements is written with stride 2
    from the 4 slots at address 10, and read without stride. *)
Definition scenario_B : M (real:=Z) unit :=
  f ← matrixio_create "run";
  d ← matrixio_create_dataset f "pair" None 1 [2];
  matrixio_write_real_data d [2] [0] 2 10;;
  matrixio_read_real_data f "pair" 1 [2] 2 0 1 1000;;
  matrixio_close_dataset d;;
  matrixio_close f.

(** The elements [n] of the buffer at address [p]. *)
Definition buffer {real} (w : world (real:=real)) (p n : Z) : list real :=
  (λ i, mem w (p + i)) <$> seqZ 0 n.

(** Two calls that split a 2 x 3 dataset by rows; the second has the
    stride 0 and its buffer at address 200. *)
Definition rows_stride_zero : list write_call :=
  [WriteCall [1; 3] [0; 0] 1 100; WriteCall [1; 3] [1; 0] 0 200].

(** A run of [get_sdos]: two frequencies in [1, 2], bands 0 and 1, the
    G-vectors with indices (0,0,0) to (0,0,1), the prefix "out". *)
Definition sdos_run : outcome (real:=Z) unit :=
  get_sdos g_example fr_example 1 2 2 0 2 0 0 0 0 0 1 (Some "out")
           [10; 11; 12; 13] w_empty.

(** ** Further vocabulary *)

(** The attributes of a dataset that [matrixio_create_dataset] has just
    made: the description, when the process is the master and the
    description is not NULL or empty. *)
Definition description_attr (is_master : bool) (description : option string)
    : gmap string string :=
  match is_master, description with
  | true, Some (String a d) => {["description" := String a d]}
  | _, _ => ∅
  end.

(** Shape and offset of the hyperslab that [matrixio_read_real_data]
    selects in a dataset of shape [D]: [n0] rows from row [r0], the other
    axes in full. *)
Definition rows_dims (n0 : Z) (D : list Z) : list Z := <[0%nat := n0]> D.
Definition rows_start (r0 : Z) (D : list Z) : list Z :=
  <[0%nat := r0]> (replicate (length D) 0).

(** The slot of the caller's buffer at [out] that a read of [n0] rows from
    row [r0] with stride [s] fills with the element at the global position
    [x]. *)
Definition read_slot (D : list Z) (n0 r0 s out : Z) (x : list Z) : Z :=
  out + s * offset (rows_dims n0 D) (zip_with Z.sub x (rows_start r0 D)).

(** sdos.c, lines 46-58: the tests of [BtH_overlap] on the bounds of one
    axis of [n] points. *)
Definition axis_ok (n lo hi : Z) : Prop :=
  lo <= hi
  ∧ ((Z.quot (- n) 2 < lo ∧ hi <= Z.quot n 2) ∨ (lo = hi ∧ hi = n - 1 ∧ n - 1 = 0)).

(** A computation that only tests: it returns in the world it started in,
    or it has no defined behaviour. *)
Definition quiet `{!RealType real} (m : M (real:=real) unit) : Prop :=
  ∀ w, m w = Done () w ∨ m w = Undefined.

(** The arrays of the solver have room for the grid and the bands:
    [H.data] for [nx*ny*nz*2] rows of [H.p] bands, with [num_bands <= H.p];
    [Hblock.data] for as many rows of [Hblock.alloc_p >= 1] bands; and
    [freqs] has an entry for every band. *)
Definition solver_ready (g : globals) : Prop :=
  let rows := md_nx (mdata g) * md_ny (mdata g) * md_nz (mdata g) * 2 in
  num_bands g <= H_p g
  ∧ rows * H_p g <= H_size g
  ∧ 1 <= Hblock_alloc_p g
  ∧ rows * Hblock_alloc_p g <= Hblock_size g
  ∧ num_bands g <= freqs_num_items g.

(** sdos.c, lines 172-173: the number of G-vectors asked for. *)
Definition nG (iG1_min iG2_min iG3_min iG1_max iG2_max iG3_max : Z) : Z :=
  (iG1_max - iG1_min + 1) * (iG2_max - iG2_min + 1) * (iG3_max - iG3_min + 1).

(** sdos.c, lines 232-236: the name of the file that [get_sdos] creates,
    as [matrixio_create] normalises it. *)
Definition savename (g : globals) (saveprefix : option string) : string :=
  add_fname_suffix
    (fix_fname (Some ("-sdos.k" +:+ pretty (kpoint_index g))) saveprefix
       (mdata g) true).

(** * Properties *)

(** ** Filename normalisation *)

Lemma strstr_unfold hay needle :
  strstr hay needle =
  if String.prefix needle hay then Some 0%nat
  else match hay with
       | EmptyString => None
       | String _ rest => S <$> strstr rest needle
       end.
Proof. by destruct hay. Qed.

Lemma strstr_substring needle hay i :
  strstr hay needle = Some i →
  String.substring i (String.length needle) hay = needle.
Proof.
  revert i. induction hay as [|a rest IH]; intros i Hs;
    rewrite strstr_unfold in Hs;
    destruct (String.prefix _ _) eqn:Hp; simplify_eq;
    try by apply String.prefix_correct in Hp.
  destruct (strstr rest needle) as [i'|] eqn:Hr; simplify_eq/=.
  by apply IH.
Qed.

Lemma add_fname_suffix_cases fname :
  add_fname_suffix fname = fname ∨
  add_fname_suffix fname = fname +:+ FNAME_SUFFIX.
Proof.
  unfold add_fname_suffix, strcat.
  destruct (strstr fname FNAME_SUFFIX) as [i|]; [|by right].
  destruct (Z.of_nat i =? _); simpl; [by left | by right].
Qed.

(** A name whose tail is not the suffix gets the suffix, also when the
    suffix text occurs earlier in the name. *)
Lemma add_fname_suffix_appends fname :
  has_suffix FNAME_SUFFIX fname = false →
  add_fname_suffix fname = fname +:+ FNAME_SUFFIX.
Proof.
  intros Hs. unfold add_fname_suffix, strcat.
  destruct (strstr fname FNAME_SUFFIX) as [i|] eqn:Hi; [|done].
  destruct (Z.of_nat i =? _) eqn:He; simpl; [|done].
  apply Z.eqb_eq in He. unfold strlen in He.
  apply strstr_substring in Hi.
  unfold has_suffix in Hs.
  change (String.length FNAME_SUFFIX) with 3%nat in *.
  assert (i = (String.length fname - 3)%nat) as -> by lia.
  rewrite Hi, String.eqb_refl, andb_true_r in Hs.
  apply Nat.leb_gt in Hs. lia.
Qed.

Lemma str_length_app s1 s2 :
  String.length (s1 +:+ s2) = (String.length s1 + String.length s2)%nat.
Proof. induction s1 as [|a s1 IH]; simpl; [done|]. by rewrite IH. Qed.

Lemma prefix_cons a n b s :
  String.prefix (String a n) (String b s)
  = if Ascii.ascii_dec a b then String.prefix n s else false.
Proof. simpl. by destruct (Ascii.ascii_dec a b). Qed.

Lemma prefix_length n s :
  String.prefix n s = true → (String.length n ≤ String.length s)%nat.
Proof.
  revert n. induction s as [|b s IH]; intros [|a n]; simpl; try done; try lia.
  destruct (Ascii.ascii_dec a b); [|done]. intros ?%IH. lia.
Qed.

Lemma prefix_app n s q :
  String.prefix n s = true → String.prefix n (s +:+ q) = true.
Proof.
  revert n. induction s as [|b s IH]; intros [|a n]; simpl; try done.
  - by destruct q.
  - destruct (Ascii.ascii_dec a b); [|done]. apply IH.
Qed.

Lemma prefix_app_false n s q :
  String.prefix n s = false → (String.length n ≤ String.length s)%nat →
  String.prefix n (s +:+ q) = false.
Proof.
  revert n. induction s as [|b s IH]; intros [|a n]; simpl; try done; try lia.
  destruct (Ascii.ascii_dec a b); [|done]. intros ??. apply IH; [done|lia].
Qed.

Lemma strstr_bound needle hay i :
  strstr hay needle = Some i →
  (i + String.length needle ≤ String.length hay)%nat.
Proof.
  revert i. induction hay as [|a rest IH]; intros i Hs;
    rewrite strstr_unfold in Hs;
    destruct (String.prefix _ _) eqn:Hp; simplify_eq;
    try (apply prefix_length in Hp; simpl in *; lia).
  destruct (strstr rest needle) as [i'|] eqn:Hr; simplify_eq/=.
  specialize (IH _ eq_refl). lia.
Qed.

(** The first occurrence stays the first one when text is appended. *)
Lemma strstr_app needle hay q i :
  strstr hay needle = Some i → strstr (hay +:+ q) needle = Some i.
Proof.
  revert i. induction hay as [|a rest IH]; intros i Hs;
    rewrite strstr_unfold in Hs;
    destruct (String.prefix needle _) eqn:Hp; simplify_eq.
  - rewrite strstr_unfold. by rewrite (prefix_app _ EmptyString q Hp).
  - rewrite strstr_unfold. by rewrite (prefix_app _ (String a rest) q Hp).
  - destruct (strstr rest needle) as [i'|] eqn:Hr; [|done].
    simpl in Hs. injection Hs as <-.
    pose proof (strstr_bound _ _ _ Hr).
    change (String a rest +:+ q) with (String a (rest +:+ q)).
    rewrite strstr_unfold.
    assert (String.prefix needle (String a (rest +:+ q)) = false) as ->.
    { apply (prefix_app_false _ (String a rest)); [done|]. simpl. lia. }
    by rewrite (IH _ eq_refl).
Qed.

(** A name without the suffix text gets it at its end, and nowhere
    before. *)
Lemma strstr_suffix_appended p :
  strstr p FNAME_SUFFIX = None →
  strstr (p +:+ FNAME_SUFFIX) FNAME_SUFFIX = Some (String.length p).
Proof.
  induction p as [|a rest IH]; intros Hs; [done|].
  rewrite strstr_unfold in Hs.
  destruct (String.prefix FNAME_SUFFIX (String a rest)) eqn:Hp; [done|].
  destruct (strstr rest FNAME_SUFFIX) eqn:Hr; [done|].
  change (String a rest +:+ FNAME_SUFFIX) with (String a (rest +:+ FNAME_SUFFIX)).
  rewrite strstr_unfold, IH by done.
  assert (String.prefix FNAME_SUFFIX (String a (rest +:+ FNAME_SUFFIX)) = false)
    as ->; [|done].
  destruct rest as [|b [|c rest]].
  - unfold FNAME_SUFFIX. rewrite prefix_cons.
    by destruct (Ascii.ascii_dec _ a) as [<-|].
  - unfold FNAME_SUFFIX. rewrite prefix_cons.
    destruct (Ascii.ascii_dec _ a) as [<-|]; [|done].
    change (String b "" +:+ ".h5") with (String b ".h5").
    rewrite prefix_cons. by destruct (Ascii.ascii_dec _ b) as [<-|].
  - apply (prefix_app_false _ (String a (String b (String c rest)))); [done|].
    simpl. lia.
Qed.

(** X2.  Where normalisation is idempotent: exactly at the names in which
    the suffix text does not occur before the last three characters. *)
Lemma add_fname_suffix_idempotent_iff p :
  add_fname_suffix (add_fname_suffix p) = add_fname_suffix p
  ↔ ∀ i, strstr p FNAME_SUFFIX = Some i → (i + 3 = String.length p)%nat.
Proof.
  unfold add_fname_suffix at 2 3. unfold strcat, strlen.
  change (String.length FNAME_SUFFIX) with 3%nat.
  destruct (strstr p FNAME_SUFFIX) as [i|] eqn:Hi.
  - pose proof (strstr_bound _ _ _ Hi) as Hb.
    change (String.length FNAME_SUFFIX) with 3%nat in Hb.
    destruct (Z.of_nat i =? _) eqn:He; simpl.
    + apply Z.eqb_eq in He. split; [intros _ ? [= <-]; lia|intros _].
      unfold add_fname_suffix, strlen. rewrite Hi.
      change (String.length FNAME_SUFFIX) with 3%nat.
      by rewrite (proj2 (Z.eqb_eq _ _) He).
    + apply Z.eqb_neq in He. split; [|intros Hall; specialize (Hall _ eq_refl); lia].
      unfold add_fname_suffix, strcat, strlen.
      rewrite (strstr_app _ _ FNAME_SUFFIX _ Hi), str_length_app.
      change (String.length FNAME_SUFFIX) with 3%nat.
      rewrite (proj2 (Z.eqb_neq (Z.of_nat i) _)) by lia. simpl.
      intros Heq. apply (f_equal String.length) in Heq.
      rewrite !str_length_app in Heq. simpl in Heq. lia.
  - split; [done|intros _].
    unfold add_fname_suffix, strcat, strlen.
    rewrite strstr_suffix_appended, str_length_app by done.
    change (String.length FNAME_SUFFIX) with 3%nat.
    by rewrite (proj2 (Z.eqb_eq _ _)) by lia.
Qed.

(** C3.  Filename normalisation is not idempotent in the code: a name that
    contains the suffix text before its end gets one more suffix at every
    application.  [add_fname_suffix] maps "a.h5b" to "a.h5b.h5" and that to
    "a.h5b.h5.h5". *)
Theorem add_fname_suffix_twice :
  add_fname_suffix "a.h5b" = "a.h5b.h5" ∧
  add_fname_suffix (add_fname_suffix "a.h5b") = "a.h5b.h5.h5" ∧
  add_fname_suffix (add_fname_suffix "a.h5b") ≠ add_fname_suffix "a.h5b".
Proof. by vm_compute. Qed.

(** C4.  The suffix test is not a test of the tail: the name
    "data.h5files/run.h5" ends in ".h5", and [add_fname_suffix] appends a
    second suffix, because [strstr] finds the earlier occurrence. *)
Theorem add_fname_suffix_earlier_occurrence :
  has_suffix FNAME_SUFFIX "data.h5files/run.h5" = true ∧
  strstr "data.h5files/run.h5" FNAME_SUFFIX = Some 4%nat ∧
  add_fname_suffix "data.h5files/run.h5" = "data.h5files/run.h5.h5".
Proof. by vm_compute. Qed.

(** ** Hyperslabs, coordinates and offsets *)

Lemma fmap_bind_list {A B C} (f : B → C) (g : A → list B) (l : list A) :
  f <$> (l ≫= g) = l ≫= (λ x, f <$> g x).
Proof.
  induction l as [|x l IH]; [done|].
  by rewrite !bind_cons, fmap_app, IH.
Qed.

Lemma box_nil : box [] = [[]].
Proof. done. Qed.

Lemma box_cons d D :
  box (d :: D) = i ← seqZ 0 d; (λ rest, i :: rest) <$> box D.
Proof.
  unfold box. simpl. apply list_bind_ext; [|done].
  intros i. by replace (0 + i * 1) with i by lia.
Qed.

Lemma slab_coords_place start stride count :
  length start = length count → length stride = length count →
  slab_coords start stride count = place start stride <$> box count.
Proof.
  revert start stride.
  induction count as [|c count IH]; intros [|s start] [|t stride] ??;
    simplify_eq/=; [done|].
  rewrite box_cons, fmap_bind_list.
  apply list_bind_ext; [|done]. intros i.
  rewrite IH by done. rewrite <-!list_fmap_compose.
  by apply list_fmap_ext.
Qed.

Lemma elem_of_box D c : c ∈ box D ↔ in_extent D c = true.
Proof.
  revert c. induction D as [|d D IH]; intros c.
  - rewrite box_nil, list_elem_of_singleton. destruct c; naive_solver.
  - rewrite box_cons, list_elem_of_bind. split.
    + intros (i & Hc & Hi). apply list_elem_of_fmap in Hc as (rest & -> & Hr).
      apply elem_of_seqZ in Hi. apply IH in Hr. simpl. rewrite Hr.
      apply andb_true_iff; split; [|done].
      apply andb_true_iff; split; [apply Z.leb_le | apply Z.ltb_lt]; lia.
    + destruct c as [|x c]; simpl; [done|].
      rewrite !andb_true_iff, Z.leb_le, Z.ltb_lt. intros [[??] Hc].
      exists x. split.
      * apply list_elem_of_fmap. exists c. by rewrite IH.
      * apply elem_of_seqZ. lia.
Qed.

Lemma in_extent_length D c : in_extent D c = true → length c = length D.
Proof.
  revert c. induction D as [|d D IH]; intros [|x c]; simpl; try done.
  rewrite !andb_true_iff. intros [_ ?]. f_equal. by apply IH.
Qed.

Lemma product_nonneg D : Forall (λ d, 0 <= d) D → 0 <= product D.
Proof. induction 1; simpl; lia. Qed.

Lemma length_bind_const {A B} (f : A → list B) (l : list A) n :
  (∀ x, length (f x) = n) → length (l ≫= f) = (length l * n)%nat.
Proof.
  intros Hf. induction l as [|x l IH]; [done|].
  rewrite bind_cons, length_app, Hf, IH. simpl. lia.
Qed.

Lemma length_box D :
  Forall (λ d, 0 <= d) D → Z.of_nat (length (box D)) = product D.
Proof.
  induction 1 as [|d D Hd HD IH]; [done|].
  rewrite box_cons.
  rewrite (length_bind_const _ _ (length (box D))) by (intros; apply length_fmap).
  rewrite length_seqZ. simpl. lia.
Qed.

(** *** Row-major offsets *)

Lemma offset_from_acc D c acc :
  length c = length D →
  offset_from acc D c = acc * product D + offset D c.
Proof.
  unfold offset. revert c acc.
  induction D as [|d D IH]; intros [|x c] acc ?; simplify_eq/=; [lia|].
  rewrite (IH c (acc * d + x)), (IH c (0 * d + x)) by done. lia.
Qed.

Lemma offset_cons d D x c :
  length c = length D →
  offset (d :: D) (x :: c) = x * product D + offset D c.
Proof. intros. unfold offset at 1. simpl. by rewrite offset_from_acc. Qed.

Lemma offset_bounds D c :
  in_extent D c = true → 0 <= offset D c < product D.
Proof.
  revert c. induction D as [|d D IH]; intros [|x c]; simpl; try done.
  rewrite !andb_true_iff, Z.leb_le, Z.ltb_lt. intros [[??] Hc].
  rewrite offset_cons by by apply in_extent_length.
  specialize (IH _ Hc). nia.
Qed.

(** Two coordinates inside the extent with the same offset are equal. *)
Lemma offset_inj D c c' :
  in_extent D c = true → in_extent D c' = true →
  offset D c = offset D c' → c = c'.
Proof.
  revert c c'. induction D as [|d D IH]; intros [|x c] [|x' c']; simpl; try done.
  rewrite !andb_true_iff, !Z.leb_le, !Z.ltb_lt.
  intros [[??] Hc] [[??] Hc'].
  rewrite !offset_cons by by apply in_extent_length.
  pose proof (offset_bounds _ _ Hc). pose proof (offset_bounds _ _ Hc').
  intros Heq.
  assert (x = x') as -> by nia.
  f_equal. apply IH; [done..|lia].
Qed.

(** *** Local arrays *)

Lemma arr_set_last l r v :
  length l = r → arr_set l (Z.of_nat r - 1) v = set_last v l.
Proof.
  intros <-. unfold arr_set. induction l as [|x [|y l] IH]; [done..|].
  replace (Z.to_nat (Z.of_nat (length (x :: y :: l)) - 1))
    with (S (Z.to_nat (Z.of_nat (length (y :: l)) - 1))) by (cbn [length]; lia).
  simpl in *. by rewrite IH.
Qed.

Lemma arr_get_last l r :
  length l = r → arr_get l (Z.of_nat r - 1) = List.last l 0.
Proof.
  intros <-. unfold arr_get. induction l as [|x [|y l] IH]; [done..|].
  replace (Z.to_nat (Z.of_nat (length (x :: y :: l)) - 1))
    with (S (Z.to_nat (Z.of_nat (length (y :: l)) - 1))) by (cbn [length]; lia).
  simpl in *. by rewrite IH.
Qed.

Lemma length_set_last v l : length (set_last v l) = length l.
Proof. induction l as [|x [|y l] IH]; [done..|]. simpl in *. by rewrite IH. Qed.

Lemma set_last_cons_ne v x l : l ≠ [] → set_last v (x :: l) = x :: set_last v l.
Proof. by destruct l. Qed.

Lemma set_last_ne v l : l ≠ [] → set_last v l ≠ [].
Proof.
  intros Hl He. apply (f_equal length) in He.
  rewrite length_set_last in He. by destruct l.
Qed.

Lemma set_last_set_last v v' l : set_last v (set_last v' l) = set_last v l.
Proof.
  induction l as [|x l IH]; [done|]. destruct l as [|y l]; [done|].
  rewrite (set_last_cons_ne v' x), (set_last_cons_ne v x), IH,
    (set_last_cons_ne v x); auto using set_last_ne.
Qed.

Lemma set_last_id l : set_last (List.last l 0) l = l.
Proof. induction l as [|x [|y l] IH]; [done..|]. simpl in *. by rewrite IH. Qed.

Lemma set_last_replicate_id n (v : Z) : set_last v (replicate n v) = replicate n v.
Proof. induction n as [|[|n] IH]; [done..|]. simpl in *. by rewrite IH. Qed.

Lemma to_hsize_id z : 0 <= z < 2 ^ 64 → to_hsize z = z.
Proof. intros. unfold to_hsize. by apply Z.mod_small. Qed.

Lemma to_hsize_list l :
  Forall (λ d, 0 <= d < 2 ^ 31) l → to_hsize <$> l = l.
Proof.
  induction 1 as [|d l Hd Hl IH]; [done|].
  rewrite fmap_cons, IH, to_hsize_id; [done|lia].
Qed.

Lemma hsize_mul_small a b :
  0 <= a < 2 ^ 31 → 0 <= b < 2 ^ 31 → hsize_mul a (to_hsize b) = a * b.
Proof.
  intros. unfold hsize_mul. rewrite to_hsize_id by lia.
  apply Z.mod_small. nia.
Qed.

(** *** Hyperslabs placed in an array *)

Lemma in_slab_place (start count j : list Z) :
  length start = length count → in_extent count j = true →
  in_slab start count (place start (replicate (length count) 1) j) = true.
Proof.
  revert start j. induction count as [|n count IH]; intros [|s start] [|i j] ?;
    simplify_eq/=; try done.
  rewrite !andb_true_iff, !Z.leb_le, !Z.ltb_lt. intros [[??] ?].
  split; [lia|]. by apply IH.
Qed.

Lemma place_sub start count c :
  in_slab start count c = true →
  place start (replicate (length count) 1) (zip_with Z.sub c start) = c
  ∧ in_extent count (zip_with Z.sub c start) = true.
Proof.
  revert start c. induction count as [|n count IH]; intros [|s start] [|x c];
    simpl; try done.
  rewrite !andb_true_iff, !Z.leb_le, !Z.ltb_lt. intros [[??] Hc].
  destruct (IH _ _ Hc) as [-> ->]. split; [f_equal; lia|].
  split; [lia|done].
Qed.

Lemma place_determines (start count j c : list Z) :
  length start = length count → length j = length count →
  place start (replicate (length count) 1) j = c →
  j = zip_with Z.sub c start.
Proof.
  revert start j c. induction count as [|n count IH];
    intros [|s start] [|i j] c ?? <-; simplify_eq/=; [done|].
  f_equal; [lia|]. by apply IH.
Qed.

Lemma in_extent_place D start count j :
  slab_within D start count = true → in_extent count j = true →
  in_extent D (place start (replicate (length count) 1) j) = true.
Proof.
  revert start count j. induction D as [|d D IH];
    intros [|s start] [|n count] [|i j]; simpl; try done.
  rewrite !andb_true_iff, !Z.leb_le, !Z.ltb_lt.
  intros [[[??]?] ?] [[??] ?]. split; [lia|]. by eapply IH.
Qed.

Lemma slab_within_length D start count :
  slab_within D start count = true →
  length start = length D ∧ length count = length D
  ∧ Forall (λ n, 0 <= n) count.
Proof.
  revert start count. induction D as [|d D IH]; intros [|s start] [|n count];
    simpl; try done.
  rewrite !andb_true_iff, !Z.leb_le. intros [[[??]?] Hw].
  destruct (IH _ _ Hw) as (-> & -> & ?). split_and!; [done..|].
  by constructor.
Qed.

(** *** The strided buffer: extent and selection of the memory space *)

Lemma offset_from_strided acc (ld j : list Z) s :
  length j = length ld → ld ≠ [] →
  offset_from acc (set_last (List.last ld 0 * s) ld)
    (place (replicate (length ld) 0) (set_last s (replicate (length ld) 1)) j)
  = s * offset_from acc ld j.
Proof.
  revert acc j. induction ld as [|d [|d' ld] IH]; intros acc [|i j] ??;
    simplify_eq/=.
  - destruct j; [|done]. simpl. lia.
  - specialize (IH (acc * d + (0 + i * 1)) j).
    simpl in IH. rewrite IH by done.
    replace (acc * d + (0 + i * 1)) with (acc * d + i) by lia. lia.
Qed.

Lemma in_extent_strided (ld j : list Z) s :
  1 <= s → in_extent ld j = true →
  in_extent (set_last (List.last ld 0 * s) ld)
    (place (replicate (length ld) 0) (set_last s (replicate (length ld) 1)) j)
  = true.
Proof.
  intros Hs. revert j. induction ld as [|d [|d' ld] IH]; intros [|i j];
    try done.
  - destruct j; simpl; [|by rewrite andb_false_r].
    rewrite !andb_true_iff, !Z.leb_le, !Z.ltb_lt. intros [[??] _].
    split; [nia|done].
  - intros Hj. change (in_extent (d :: d' :: ld) (i :: j))
      with ((0 <=? i) && (i <? d) && in_extent (d' :: ld) j) in Hj.
    apply andb_true_iff in Hj as [Hi Hj]. specialize (IH _ Hj).
    simpl in *. rewrite IH.
    replace (0 + i * 1) with i by lia. by rewrite Hi.
Qed.

Lemma seqZ_blocks b P (n : nat) :
  0 <= P →
  seqZ 0 (Z.of_nat n) ≫= (λ i, seqZ (b + i * P) P) = seqZ b (Z.of_nat n * P).
Proof.
  intros HP. induction n as [|n IH]; [done|].
  rewrite seqZ_S, bind_app, IH, bind_singleton.
  replace (Z.of_nat (S n) * P) with (Z.of_nat n * P + P) by lia.
  rewrite seqZ_app by lia. do 2 f_equal; lia.
Qed.

(** The row-major enumeration of an array visits the offsets 0, 1, 2, ...
    in order. *)
Lemma offsets_of_box_from acc D :
  Forall (λ d, 0 <= d) D →
  (λ c, offset_from acc D c) <$> box D = seqZ (acc * product D) (product D).
Proof.
  intros HD. revert acc. induction HD as [|d D Hd HD IH]; intros acc.
  - rewrite box_nil. change (product []) with 1.
    rewrite seqZ_cons by lia. simpl. f_equal. lia.
  - rewrite box_cons, fmap_bind_list.
    rewrite (list_bind_ext _ (λ i, seqZ (acc * d * product D + i * product D) (product D))
               _ (seqZ 0 d)); [| |done].
    + pose proof (product_nonneg _ HD).
      rewrite <-(Z2Nat.id d) by done. rewrite seqZ_blocks by done.
      simpl. f_equal; lia.
    + intros i. rewrite <-list_fmap_compose.
      replace (acc * d * product D + i * product D)
        with ((acc * d + i) * product D) by lia.
      rewrite <-IH. by apply list_fmap_ext.
Qed.

Lemma offsets_of_box D :
  Forall (λ d, 0 <= d) D →
  offset D <$> box D = seqZ 0 (product D).
Proof. intros. unfold offset. by rewrite offsets_of_box_from. Qed.

(** *** Folds of insertions *)

Lemma foldl_insert_notin `{Countable K} {V A} (key : A → K) (val : A → V)
    (l : list A) (m : gmap K V) k :
  (∀ a, a ∈ l → key a ≠ k) →
  foldl (λ m a, <[key a := val a]> m) m l !! k = m !! k.
Proof.
  induction l as [|a l IH] using rev_ind; intros Hk; [done|].
  rewrite foldl_app. simpl. rewrite lookup_insert_ne.
  - apply IH. intros ??. apply Hk. apply elem_of_app. by left.
  - apply Hk. apply elem_of_app. right. by apply list_elem_of_singleton.
Qed.

Lemma foldl_insert_in `{Countable K} {V A} (key : A → K) (val : A → V)
    (l : list A) (m : gmap K V) k v :
  (∃ a, a ∈ l ∧ key a = k) →
  (∀ a, a ∈ l → key a = k → val a = v) →
  foldl (λ m a, <[key a := val a]> m) m l !! k = Some v.
Proof.
  induction l as [|a l IH] using rev_ind; intros Hex Hv.
  { destruct Hex as (? & []%elem_of_nil & _). }
  rewrite foldl_app. simpl. destruct (decide (key a = k)) as [Hk|Hk].
  - rewrite <-Hk, lookup_insert_eq. f_equal. apply Hv; [|done].
    apply elem_of_app. right. by apply list_elem_of_singleton.
  - rewrite lookup_insert_ne by done. apply IH.
    + destruct Hex as (a' & [Ha'| ->%list_elem_of_singleton]%elem_of_app & ?);
        [eauto|done].
    + intros ???. apply Hv; [|done]. apply elem_of_app. by left.
Qed.

Lemma foldl_fn_insert_notin {V A} (key : A → Z) (val : A → V)
    (l : list A) (m : Z → V) k :
  (∀ a, a ∈ l → key a ≠ k) →
  foldl (λ m a, <[key a := val a]> m) m l k = m k.
Proof.
  induction l as [|a l IH] using rev_ind; intros Hk; [done|].
  rewrite foldl_app. simpl. rewrite fn_lookup_insert_ne.
  - apply IH. intros ??. apply Hk. apply elem_of_app. by left.
  - apply Hk. apply elem_of_app. right. by apply list_elem_of_singleton.
Qed.

Lemma foldl_fn_insert_in {V A} (key : A → Z) (val : A → V)
    (l : list A) (m : Z → V) k v :
  (∃ a, a ∈ l ∧ key a = k) →
  (∀ a, a ∈ l → key a = k → val a = v) →
  foldl (λ m a, <[key a := val a]> m) m l k = v.
Proof.
  induction l as [|a l IH] using rev_ind; intros Hex Hv.
  { destruct Hex as (? & []%elem_of_nil & _). }
  rewrite foldl_app. simpl. destruct (decide (key a = k)) as [Hk|Hk].
  - rewrite <-Hk, fn_lookup_insert. apply Hv; [|done].
    apply elem_of_app. right. by apply list_elem_of_singleton.
  - rewrite fn_lookup_insert_ne by done. apply IH.
    + destruct Hex as (a' & [Ha'| ->%list_elem_of_singleton]%elem_of_app & ?);
        [eauto|done].
    + intros ???. apply Hv; [|done]. apply elem_of_app. by left.
Qed.

(** ** The selections of [matrixio_write_real_data] *)

Lemma Forall_last (P : Z → Prop) l : Forall P l → l ≠ [] → P (List.last l 0).
Proof.
  induction 1 as [|x [|y l] Hx Hl IH]; intros ?; try done.
  apply IH. done.
Qed.

Lemma nonzero_strides s n :
  s ≠ 0 → forallb (λ x, negb (x =? 0)) (set_last s (replicate n 1)) = true.
Proof.
  intros Hs. induction n as [|[|n] IH]; [done| |].
  - simpl. by rewrite (proj2 (Z.eqb_neq s 0) Hs).
  - change (replicate (S (S n)) 1) with (1 :: replicate (S n) 1).
    rewrite set_last_cons_ne by done. simpl in *. by rewrite IH.
Qed.

Lemma write_mem_space_eq (ld : list Z) s :
  ld ≠ [] → (length ld ≤ 32)%nat → Forall (λ d, 0 <= d < 2 ^ 31) ld → is_int s →
  write_mem_space (Z.of_nat (length ld)) ld s =
  Some (Dataspace (set_last (hsize_mul (List.last ld 0) (to_hsize s)) ld)
          (SelHyper (replicate (length ld) 0)
             (if s <=? 1 then None else Some (set_last s (replicate (length ld) 1)))
             ld)).
Proof.
  intros Hne Hr Hld Hs. unfold write_mem_space.
  rewrite Nat2Z.id, firstn_all, to_hsize_list by done.
  rewrite (arr_set_last (replicate _ _)) by apply length_replicate.
  rewrite !(arr_get_last ld), (arr_set_last ld) by done.
  rewrite (arr_set_last (set_last _ _)) by apply length_set_last.
  rewrite set_last_set_last.
  pose proof (Forall_last _ _ Hld Hne) as Hlast. simpl in Hlast.
  rewrite (to_hsize_id (List.last ld 0)) by lia.
  rewrite set_last_id.
  unfold H5Screate_simple, H5S_MAX_RANK.
  rewrite length_set_last, Nat2Z.id, bool_decide_eq_true_2 by done.
  rewrite (proj2 (Z.leb_le 0 _)), (proj2 (Z.leb_le _ 32)) by lia.
  unfold H5Sselect_hyperslab. simpl.
  rewrite length_set_last, length_replicate, !bool_decide_eq_true_2 by done.
  destruct (s <=? 1) eqn:Hs1; [done|].
  apply Z.leb_gt in Hs1. unfold is_int in Hs.
  rewrite to_hsize_id by lia.
  rewrite length_set_last, length_replicate, bool_decide_eq_true_2 by done.
  by rewrite nonzero_strides by lia.
Qed.

Lemma write_file_space_eq (D ld st : list Z) :
  length ld = length D → length st = length D →
  Forall (λ d, 0 <= d < 2 ^ 31) ld →
  write_file_space (Some (Dataspace D SelAll)) (Z.of_nat (length ld)) ld st =
  Some (Dataspace D (SelHyper st None ld)).
Proof.
  intros Hld Hst Hb. unfold write_file_space.
  rewrite Nat2Z.id, firstn_all, Hld, <-Hst, firstn_all, to_hsize_list by done.
  unfold H5Sselect_hyperslab. simpl.
  by rewrite !bool_decide_eq_true_2 by done.
Qed.

(** Coordinates selected in the buffer: the local block, with the last
    index multiplied by the stride. *)
Lemma mem_coords (ld dims : list Z) s :
  1 <= s → length dims = length ld →
  sel_coords (Dataspace dims
     (SelHyper (replicate (length ld) 0)
        (if s <=? 1 then None else Some (set_last s (replicate (length ld) 1)))
        ld))
  = place (replicate (length ld) 0) (set_last s (replicate (length ld) 1))
      <$> box ld.
Proof.
  intros Hs Hd. unfold sel_coords. simpl.
  rewrite <-slab_coords_place
    by (by rewrite ?length_set_last, length_replicate).
  destruct (s <=? 1) eqn:Hs1; simpl; [|done].
  apply Z.leb_le in Hs1. assert (s = 1) as -> by lia.
  by rewrite set_last_replicate_id, Hd.
Qed.

Lemma file_coords (D ld st : list Z) :
  length ld = length D → length st = length D →
  sel_coords (Dataspace D (SelHyper st None ld))
  = place st (replicate (length ld) 1) <$> box ld.
Proof.
  intros Hld Hst. unfold sel_coords. simpl.
  rewrite slab_coords_place by (by rewrite ?length_replicate; congruence).
  by rewrite Hld.
Qed.

Lemma place_scale_last (j : list Z) s n :
  length j = n →
  place (replicate n 0) (set_last s (replicate n 1)) j
  = set_last (List.last j 0 * s) j.
Proof.
  intros <-. induction j as [|i [|i' j] IH]; [done| |].
  - simpl. by replace (0 + i * s) with (i * s) by lia.
  - change (replicate (length (i :: i' :: j)) 1)
      with (1 :: replicate (length (i' :: j)) 1).
    rewrite set_last_cons_ne by done.
    change (replicate (length (i :: i' :: j)) 0)
      with (0 :: replicate (length (i' :: j)) 0).
    cbn [place]. rewrite IH.
    rewrite (set_last_cons_ne _ i (i' :: j)) by done.
    f_equal. lia.
Qed.

Lemma box_length D j : j ∈ box D → length j = length D.
Proof. intros ?%elem_of_box. by apply in_extent_length. Qed.

(** The local selection of [matrixio_write_real_data].  For a local
    block [ld] of rank at most [H5S_MAX_RANK] and a stride [s], the memory
    space [sp] built at lines 259-266 has the extent of [ld] with the last
    axis multiplied by [s]; it selects as many elements as the block has
    and as the global selection has; for [1 <= s] these are the
    coordinates of the block with the last index multiplied by [s], whose
    offsets in the buffer are 0, s, 2s, ... in row-major order; and for
    [s <= 1] the selection is the whole block with unit steps. *)
Theorem write_local_selection (ld : list Z) (s : Z) :
  ld ≠ [] → (length ld ≤ 32)%nat → Forall (λ d, 0 <= d < 2 ^ 31) ld → is_int s →
  ∃ sp,
    write_mem_space (Z.of_nat (length ld)) ld s = Some sp
    ∧ sp_dims sp = set_last (hsize_mul (List.last ld 0) (to_hsize s)) ld
    ∧ (0 <= s → sp_dims sp = set_last (List.last ld 0 * s) ld)
    ∧ Z.of_nat (length (sel_coords sp)) = product ld
    ∧ (∀ D st : list Z, length D = length ld → length st = length ld →
         ∃ fs, write_file_space (Some (Dataspace D SelAll))
                                (Z.of_nat (length ld)) ld st = Some fs
               ∧ length (sel_coords fs) = length (sel_coords sp))
    ∧ (1 <= s →
         sel_coords sp = (λ j, set_last (List.last j 0 * s) j) <$> box ld)
    ∧ (1 <= s →
         offset (sp_dims sp) <$> sel_coords sp = (λ n, s * n) <$> seqZ 0 (product ld))
    ∧ (s <= 1 → sel_coords sp = box ld).
Proof.
  intros Hne Hr Hld Hs. eexists. split; [by apply write_mem_space_eq|].
  pose proof (Forall_last _ _ Hld Hne) as Hlast. simpl in Hlast.
  assert (Forall (λ d, 0 <= d) ld) as Hnn.
  { eapply Forall_impl; [|exact Hld]. by intros d [??]. }
  assert (∀ dims, length dims = length ld →
            length (sel_coords (Dataspace dims
              (SelHyper (replicate (length ld) 0)
                 (if s <=? 1 then None
                  else Some (set_last s (replicate (length ld) 1))) ld)))
            = length (box ld)) as Hlen.
  { intros dims Hd. unfold sel_coords. simpl.
    destruct (s <=? 1); simpl.
    - by rewrite Hd.
    - rewrite slab_coords_place
        by (by rewrite ?length_set_last, length_replicate).
      apply length_fmap. }
  assert (0 <= s → hsize_mul (List.last ld 0) (to_hsize s) = List.last ld 0 * s)
    as Hmul.
  { intros. apply hsize_mul_small; [done|]. unfold is_int in Hs. lia. }
  split_and!; simpl sp_dims.
  - done.
  - intros. by rewrite Hmul.
  - rewrite Hlen by apply length_set_last. by apply length_box.
  - intros D st HD Hst. eexists. split.
    + apply write_file_space_eq; [congruence..|done].
    + rewrite Hlen by apply length_set_last.
      rewrite file_coords by congruence. apply length_fmap.
  - intros Hs1. rewrite mem_coords by (done || apply length_set_last).
    apply Forall_fmap_ext, list.Forall_forall. intros j Hj.
    apply place_scale_last. by apply box_length.
  - intros Hs1. rewrite mem_coords by (done || apply length_set_last).
    rewrite Hmul by lia. rewrite <-offsets_of_box by done.
    rewrite <-!list_fmap_compose.
    apply Forall_fmap_ext, list.Forall_forall. intros j Hj. simpl.
    unfold offset. apply offset_from_strided; [|done]. by apply box_length.
  - intros Hs1. unfold sel_coords. simpl.
    destruct (s <=? 1) eqn:Hs'; [|apply Z.leb_gt in Hs'; lia].
    simpl. by rewrite length_set_last.
Qed.

(** ** The calls, step by step *)

Section Specs.
Context {real : Type} `{!RealType real}.
Implicit Types (w : world (real:=real)) (ds : dataset (real:=real)).

Lemma bind_unfold {A B} (m : M A) (f : A → M B) w :
  (m ≫= f) w = match m w with
               | Done a w' => f a w'
               | Fatal msg w' => Fatal msg w'
               | Undefined => Undefined
               end.
Proof. done. Qed.

Lemma bind_Done {A B} (m : M A) (f : A → M B) w a w' :
  m w = Done a w' → (m ≫= f) w = f a w'.
Proof. intros Hm. by rewrite bind_unfold, Hm. Qed.

Lemma bind_Fatal {A B} (m : M A) (f : A → M B) w msg w' :
  m w = Fatal msg w' → (m ≫= f) w = Fatal msg w'.
Proof. intros Hm. by rewrite bind_unfold, Hm. Qed.

Lemma CHECK_true msg w : CHECK true msg w = Done () w.
Proof. done. Qed.

Lemma malloc_ok_rank (r : nat) : (r ≤ 32)%nat → malloc_ok (8 * Z.of_nat r) = true.
Proof.
  intros. unfold malloc_ok, PTRDIFF_MAX. apply bool_decide_eq_true_2.
  rewrite Z.mod_small; lia.
Qed.

Lemma holds_length (l : list Z) : holds (Z.of_nat (length l)) l = true.
Proof. unfold holds. apply bool_decide_eq_true_2. lia. Qed.

Lemma find_dataset_disk w path name ds :
  find_dataset w path name = Some ds →
  ∃ f, disk w !! path = Some f ∧ f !! name = Some ds.
Proof.
  unfold find_dataset. destruct (disk w !! path) as [f|]; [|done].
  simpl. eauto.
Qed.

Lemma find_dataset_store w path name ds ds' :
  find_dataset w path name = Some ds →
  find_dataset (store_dataset path name ds' w) path name = Some ds'.
Proof.
  intros (f & Hf & _)%find_dataset_disk. unfold find_dataset, store_dataset.
  simpl. rewrite lookup_alter_eq, Hf. simpl. apply lookup_insert_eq.
Qed.

Lemma find_dataset_store_ne w path name ds' path' name' :
  (path', name') ≠ (path, name) →
  find_dataset (store_dataset path name ds' w) path' name'
  = find_dataset w path' name'.
Proof.
  intros Hne. unfold find_dataset, store_dataset. simpl.
  destruct (decide (path' = path)) as [->|].
  - rewrite lookup_alter_eq. destruct (disk w !! path); [|done].
    simpl. apply lookup_insert_ne. congruence.
  - by rewrite lookup_alter_ne.
Qed.

Lemma H5Dget_space_data w id path name rw :
  handles w !! id = Some (HData path name rw) →
  H5Dget_space id w
  = Done ((λ ds, Dataspace (ds_dims ds) SelAll) <$> find_dataset w path name) w.
Proof. intros Hh. unfold H5Dget_space. by rewrite Hh. Qed.

Lemma zip_fmap_diag {A B C} (f : A → B) (g : A → C) (l : list A) :
  zip (f <$> l) (g <$> l) = (λ x, (f x, g x)) <$> l.
Proof. induction l as [|x l IH]; [done|]. rewrite !fmap_cons. simpl. by rewrite IH. Qed.

Lemma foldl_ext_in {A B} (f g : A → B → A) (a : A) (l : list B) :
  (∀ a b, b ∈ l → f a b = g a b) → foldl f a l = foldl g a l.
Proof.
  revert a. induction l as [|b l IH]; intros a Hfg; [done|].
  simpl. rewrite Hfg by left. apply IH. intros ???. apply Hfg. by right.
Qed.

Lemma forallb_elem_of {A} (f : A → bool) (l : list A) :
  (∀ x, x ∈ l → f x = true) → forallb f l = true.
Proof.
  intros Hf. apply forallb_forall. intros x Hx. apply Hf.
  by apply list_elem_of_In.
Qed.

Lemma undefined_unless_true w : undefined_unless true w = Done () w.
Proof. done. Qed.

Lemma slab_within_bounded D start count :
  Forall (λ d, 0 <= d < 2 ^ 31) D → slab_within D start count = true →
  Forall (λ d, 0 <= d < 2 ^ 31) count.
Proof.
  intros HD. revert start count.
  induction HD as [|d D Hd HD IH]; intros [|s start] [|n count]; simpl;
    try done.
  rewrite !andb_true_iff, !Z.leb_le. intros [[[??]?] ?].
  constructor; [lia|]. by eapply IH.
Qed.

(** One call of [matrixio_write_real_data] with a hyperslab inside the
    extent and a positive stride: each global position of the hyperslab,
    step [j] of the block, receives the buffer slot [s * offset ld j]. *)
Lemma write_real_data_spec w data_id path name ds (ld st : list Z) s buf :
  handles w !! data_id = Some (HData path name true) →
  find_dataset w path name = Some ds →
  ds_dims ds ≠ [] → (length (ds_dims ds) ≤ 32)%nat →
  Forall (λ d, 0 <= d < 2 ^ 31) (ds_dims ds) →
  slab_within (ds_dims ds) st ld = true →
  1 <= s < 2 ^ 31 →
  matrixio_write_real_data data_id ld st s buf w =
  Done () (add_event (EvWrite data_id (length (box ld)))
    (store_dataset path name
       (Dataset (ds_dims ds)
          (foldl (λ m j, <[place st (replicate (length ld) 1) j
                           := mem w (buf + s * offset ld j)]> m)
                 (ds_elems ds) (box ld))
          (ds_attrs ds)) w)).
Proof.
  intros Hh Hf Hne Hr HD Hwithin Hs.
  destruct (slab_within_length _ _ _ Hwithin) as (Hst & Hld & Hnn).
  unfold matrixio_write_real_data.
  rewrite (bind_Done _ _ _ _ _ (H5Dget_space_data _ _ _ _ _ Hh)), Hf.
  simpl H5Sget_simple_extent_ndims. simpl fmap.
  assert (Forall (λ d, 0 <= d < 2 ^ 31) ld) as Hldb
    by (by eapply slab_within_bounded).
  assert (ld ≠ []) as Hldne by (intros ->; by destruct (ds_dims ds)).
  rewrite <-Hld in *.
  rewrite malloc_ok_rank, (bind_Done _ _ _ _ _ (CHECK_true _ _)) by done.
  rewrite (proj2 (Z.ltb_lt 0 _)) by (destruct ld; [done|simpl; lia]).
  rewrite (bind_Done _ _ _ _ _ (undefined_unless_true _)).
  rewrite holds_length.
  replace (holds (Z.of_nat (length ld)) st) with true
    by (rewrite <-Hst; symmetry; apply holds_length).
  rewrite (bind_Done _ _ _ _ _ (undefined_unless_true _)).
  rewrite write_mem_space_eq, write_file_space_eq by (done || unfold is_int; lia).
  erewrite bind_Done; [done|].
  unfold H5Dwrite. rewrite Hh, Hf.
  rewrite hsize_mul_small by (by apply Forall_last || lia).
  rewrite mem_coords, file_coords by (lia || done || apply length_set_last).
  cbn [sp_dims]. rewrite !length_fmap.
  rewrite !bool_decide_eq_true_2 by done.
  unfold sel_valid. cbn [sp_dims].
  rewrite mem_coords, file_coords by (lia || done || apply length_set_last).
  rewrite !forallb_elem_of; cbn [andb].
  - rewrite zip_fmap_diag, foldl_fmap. cbn [fst snd].
    do 3 f_equal. f_equal. apply foldl_ext_in. intros m j Hj.
    do 3 f_equal. unfold offset. rewrite offset_from_strided; [done| |done].
    by apply box_length.
  - intros c (j & -> & Hj)%list_elem_of_fmap.
    eapply in_extent_place; [done|]. by apply elem_of_box.
  - intros c (j & -> & Hj)%list_elem_of_fmap.
    apply in_extent_strided; [lia|]. by apply elem_of_box.
Qed.

Lemma write_elems_lookup (elems : gmap (list Z) real) (val : list Z → real)
    (st ld x : list Z) :
  length st = length ld →
  foldl (λ m j, <[place st (replicate (length ld) 1) j := val j]> m)
        elems (box ld) !! x
  = if in_slab st ld x then Some (val (zip_with Z.sub x st)) else elems !! x.
Proof.
  intros Hst. destruct (in_slab st ld x) eqn:Hx.
  - destruct (place_sub _ _ _ Hx) as [Hp Hj].
    apply (foldl_insert_in (λ j, place st (replicate (length ld) 1) j) val).
    + exists (zip_with Z.sub x st). split; [by apply elem_of_box|done].
    + intros j Hj' Hpj. f_equal. eapply place_determines; [done| |done].
      by apply box_length.
  - apply (foldl_insert_notin (λ j, place st (replicate (length ld) 1) j) val).
    intros j Hj <-. rewrite in_slab_place in Hx; [done..|].
    by apply elem_of_box.
Qed.

Lemma disjoint_calls_cons c ws :
  disjoint_calls (c :: ws) →
  disjoint_calls ws
  ∧ ∀ c' x, c' ∈ ws → slab_of c x = true → slab_of c' x = false.
Proof.
  intros Hd. split.
  - intros i j ci cj x Hij Hi Hj. apply (Hd (S i) (S j)); [lia|done..].
  - intros c' x (j & Hj)%list_elem_of_lookup Hc.
    destruct (slab_of c' x) eqn:Hc'; [|done].
    destruct (Hd 0%nat (S j) c c' x); done.
Qed.

(** A sequence of calls, each with its hyperslab inside the shape of the
    dataset: every call succeeds; a position outside all hyperslabs keeps
    its element; when the hyperslabs are pairwise disjoint, each position
    of a hyperslab holds the slot that call contributed. *)
Lemma run_writes_spec data_id path name (D : list Z) ws w ds :
  handles w !! data_id = Some (HData path name true) →
  find_dataset w path name = Some ds →
  ds_dims ds = D → D ≠ [] → (length D ≤ 32)%nat →
  Forall (λ d, 0 <= d < 2 ^ 31) D →
  Forall (call_ok D) ws →
  ∃ w' ds',
    run_writes data_id ws w = Done () w'
    ∧ handles w' = handles w ∧ mem w' = mem w
    ∧ find_dataset w' path name = Some ds' ∧ ds_dims ds' = D
    ∧ (∀ x, (∀ c, c ∈ ws → slab_of c x = false) →
            ds_elems ds' !! x = ds_elems ds !! x)
    ∧ (disjoint_calls ws → ∀ c x, c ∈ ws → slab_of c x = true →
            ds_elems ds' !! x = Some (mem w (wc_slot c x))).
Proof.
  intros Hh Hf HD Hne Hr Hb Hws. revert w ds Hh Hf HD.
  induction Hws as [|c ws [Hc Hs] Hws IH]; intros w ds Hh Hf HD.
  - exists w, ds. split_and!; try done.
    intros _ c x []%elem_of_nil.
  - subst D. destruct (slab_within_length _ _ _ Hc) as (Hst & Hld & _).
    simpl. erewrite bind_Done; [|by apply write_real_data_spec].
    set (ds1 := Dataset _ _ _). set (w1 := add_event _ _).
    destruct (IH w1 ds1) as (w' & ds' & Hrun & Hh' & Hm' & Hf' & HD' & Hout & Hin);
      [done|by eapply find_dataset_store|done|].
    exists w', ds'. split_and!; try done.
    + intros x Hx. rewrite Hout by (intros; apply Hx; by right).
      unfold ds1. simpl. rewrite write_elems_lookup by congruence.
      specialize (Hx c (list_elem_of_here _ _)). unfold slab_of in Hx.
      by rewrite Hx.
    + intros [Hdis Hhead]%disjoint_calls_cons c' x [->|Hc']%elem_of_cons Hx.
      * rewrite Hout by (intros; by eapply Hhead).
        unfold ds1. simpl. rewrite write_elems_lookup by congruence.
        unfold slab_of in Hx. by rewrite Hx.
      * by apply Hin.
Qed.

Lemma check_dims_ok (D : list Z) n i w :
  Forall (λ d, 0 <= d < 2 ^ 31) D →
  0 <= i → (Z.to_nat i + n ≤ length D)%nat →
  check_dims D D n i w = Done () w.
Proof.
  intros HD. revert i. induction n as [|n IH]; intros i Hi Hn; [done|].
  simpl. unfold holds. rewrite bool_decide_eq_true_2 by lia.
  rewrite (bind_Done _ _ _ _ _ (undefined_unless_true _)).
  destruct (lookup_lt_is_Some_2 D (Z.to_nat i)) as [d Hd]; [lia|].
  unfold arr_get. rewrite Hd. simpl.
  rewrite to_hsize_id, Z.eqb_refl.
  - rewrite (bind_Done _ _ _ _ _ (CHECK_true _ _)). apply IH; lia.
  - eapply Forall_lookup_1 in Hd; [|done]. simpl in Hd. lia.
Qed.

(** A read of the full extent of a dataset of shape [D], with stride 1:
    the call returns and the buffer holds the element of each position at
    its row-major offset. *)
Lemma read_full_spec w fid path rw name ds (D : list Z) out :
  handles w !! fid = Some (HFile path rw) →
  find_dataset w path name = Some ds →
  ds_dims ds = D → D ≠ [] → (length D ≤ 32)%nat →
  Forall (λ d, 0 <= d < 2 ^ 31) D →
  ∃ w',
    matrixio_read_real_data fid name (Z.of_nat (length D)) D (hd 0 D) 0 1 out w
    = Done () w'
    ∧ disk w' = disk w
    ∧ ∀ x, in_extent D x = true → mem w' (out + offset D x) = ds_elem ds x.
Proof.
  intros Hh Hf HD Hne Hr Hb.
  unfold matrixio_read_real_data.
  rewrite (proj2 (Z.ltb_lt 0 _)) by (destruct D; [done|simpl; lia]).
  rewrite (bind_Done _ _ _ _ _ (CHECK_true _ _)).
  erewrite bind_Done; [|unfold H5Dopen; rewrite Hh, Hf; reflexivity].
  set (w1 := World _ _ _ _ _ _ _).
  assert (handles w1 !! next_id w = Some (HData path name rw)) as Hh1
    by apply lookup_insert_eq.
  rewrite (bind_Done _ _ _ _ _ (H5Dget_space_data _ _ _ _ _ Hh1)).
  change (find_dataset w1 path name) with (find_dataset w path name).
  rewrite Hf. simpl fmap. rewrite HD.
  simpl H5Sget_simple_extent_ndims. simpl H5Sget_simple_extent_dims.
  rewrite Z.eqb_refl, (bind_Done _ _ _ _ _ (CHECK_true _ _)).
  rewrite malloc_ok_rank, (bind_Done _ _ _ _ _ (CHECK_true _ _)) by done.
  erewrite bind_Done; [|apply check_dims_ok; [done|done|lia]].
  rewrite Nat2Z.id, firstn_all, to_hsize_list by done.
  assert (0 <= hd 0 D < 2 ^ 31) as Hhd.
  { destruct Hb; [done|]. simpl. lia. }
  assert (0 <= List.last D 0 < 2 ^ 31) as Hlast by (by apply Forall_last).
  rewrite (to_hsize_id (hd 0 D)) by lia.
  assert (arr_set D 0 (hd 0 D) = D) as Harr by (by destruct D).
  rewrite !Harr.
  rewrite (arr_get_last D), hsize_mul_small, Z.mul_1_r by (done || lia).
  rewrite (arr_set_last D), set_last_id by done.
  assert (arr_set (replicate (length D) 0) 0 0 = replicate (length D) 0) as Hz
    by (by destruct D).
  rewrite !Hz.
  rewrite (arr_set_last (replicate _ _)) by apply length_replicate.
  rewrite (to_hsize_id 1), set_last_replicate_id by lia.
  unfold H5Screate_simple, H5S_MAX_RANK.
  rewrite Nat2Z.id, bool_decide_eq_true_2 by done.
  rewrite (proj2 (Z.leb_le 0 _)), (proj2 (Z.leb_le _ 32)) by lia.
  unfold H5Sselect_hyperslab. cbn [andb sp_dims].
  rewrite !length_replicate, !bool_decide_eq_true_2 by done.
  assert (forallb (λ x, negb (x =? 0)) (replicate (length D) 1) = true) as ->.
  { apply forallb_elem_of. by intros x [-> _]%elem_of_replicate. }
  cbn [andb].
  erewrite bind_Done.
  2:{ unfold H5Dread. rewrite Hh1.
      change (find_dataset w1 path name) with (find_dataset w path name).
      rewrite Hf, HD. unfold sel_valid, sel_coords.
      cbn [sp_dims sp_sel default from_option id]. fold (box D).
      rewrite !bool_decide_eq_true_2 by done.
      rewrite forallb_elem_of by (intros; by apply elem_of_box).
      cbn [andb]. rewrite zip_diag, foldl_fmap. reflexivity. }
  unfold H5Dclose, close_handle. cbn [handles add_event set_mem].
  rewrite Hh1. cbn [is_data]. eexists. split_and!; [done..|].
  intros x Hx. cbn [mem add_event set_handles set_mem fst snd].
  apply (foldl_fn_insert_in (λ j, out + offset D j) (ds_elem ds)).
  - exists x. split; [by apply elem_of_box|done].
  - intros j Hj%elem_of_box Hjx. f_equal.
    apply (offset_inj D); [done..|lia].
Qed.

(** Round trip for strides of at least 1.  In a dataset of declared shape
    [D], after calls of [matrixio_write_real_data] with strides [>= 1]
    whose hyperslabs lie in [D], are pairwise disjoint and cover [D], a
    call of [matrixio_read_real_data] for the
    full extent (rank and dims of [D], [local_dim0 = D[0]],
    [local_dim0_start = 0], stride 1) returns, and every element of the
    output buffer, at the row-major offset of its position [x], is the
    value of the buffer slot that the call whose hyperslab holds [x]
    contributed for [x]. *)
Theorem write_read_roundtrip w data_id fid path name rw ds (D : list Z)
    (ws : list write_call) out :
  D ≠ [] → (length D ≤ 32)%nat → Forall (λ d, 0 <= d < 2 ^ 31) D →
  handles w !! data_id = Some (HData path name true) →
  handles w !! fid = Some (HFile path rw) →
  find_dataset w path name = Some ds → ds_dims ds = D →
  Forall (call_ok D) ws → disjoint_calls ws → cover_calls D ws →
  ∃ w1 w2,
    run_writes data_id ws w = Done () w1
    ∧ matrixio_read_real_data fid name (Z.of_nat (length D)) D (hd 0 D) 0 1 out w1
      = Done () w2
    ∧ ∀ x, in_extent D x = true →
        ∃ c, c ∈ ws ∧ slab_of c x = true
             ∧ mem w2 (out + offset D x) = mem w (wc_slot c x).
Proof.
  intros Hne Hr Hb Hd Hfid Hf HD Hws Hdis Hcov.
  destruct (run_writes_spec data_id path name D ws w ds)
    as (w1 & ds1 & Hrun & Hh1 & Hm1 & Hf1 & HD1 & _ & Hin); [done..|].
  destruct (read_full_spec w1 fid path rw name ds1 D out)
    as (w2 & Hread & _ & Hmem); [by rewrite Hh1|done..|].
  exists w1, w2. split_and!; [done..|].
  intros x Hx. destruct (Hcov x Hx) as (c & Hc & Hcx).
  exists c. split_and!; [done..|].
  rewrite Hmem by done. unfold ds_elem.
  by rewrite (Hin Hdis c x Hc Hcx).
Qed.

(** ** Validation in [matrixio_read_real_data] *)

(** The loop of lines 314-317 stops at the first axis whose stored extent
    is not the declared one. *)
Lemma check_dims_mismatch (stored dims : list Z) n i0 (k : nat) d e w :
  0 <= i0 → (Z.to_nat i0 + n ≤ length dims)%nat →
  (Z.to_nat i0 ≤ k < Z.to_nat i0 + n)%nat →
  stored !! k = Some d → dims !! k = Some e → d ≠ to_hsize e →
  check_dims stored dims n i0 w = Fatal MSG_SIZE w.
Proof.
  revert i0. induction n as [|n IH]; intros i0 Hi0 Hn Hk Hd He Hne; [lia|].
  simpl. unfold holds. rewrite bool_decide_eq_true_2 by lia.
  rewrite (bind_Done _ _ _ _ _ (undefined_unless_true _)).
  destruct (arr_get stored i0 =? to_hsize (arr_get dims i0)) eqn:Heq.
  - rewrite (bind_Done _ _ _ _ _ (CHECK_true _ _)).
    apply IH; [lia|lia| |done..].
    destruct (decide (k = Z.to_nat i0)) as [->|]; [|lia].
    apply Z.eqb_eq in Heq. unfold arr_get in Heq.
    rewrite Hd, He in Heq. done.
  - done.
Qed.

(** C5.  [matrixio_read_real_data] validates before it transfers.  When
    the rank of the stored dataset is not the declared rank, or the stored
    extent of an axis other than axis 0 is not the declared one (compared
    as the code does, the declared [int] converted to [hsize_t]), the call
    aborts with a fatal error of the validation, and the memory, hence the
    output buffer, and the file are as before the call. *)
Theorem read_validates_shape w fid path rw name ds (rank : Z) (dims : list Z)
    local_dim0 local_dim0_start stride out :
  handles w !! fid = Some (HFile path rw) →
  find_dataset w path name = Some ds →
  (length (ds_dims ds) ≤ 32)%nat →
  length dims = Z.to_nat rank →
  (rank ≠ Z.of_nat (length (ds_dims ds))
   ∨ ∃ (i : nat) d e, (1 ≤ i)%nat ∧ ds_dims ds !! i = Some d
                      ∧ dims !! i = Some e ∧ d ≠ to_hsize e) →
  ∃ msg w',
    matrixio_read_real_data fid name rank dims local_dim0 local_dim0_start
                            stride out w = Fatal msg w'
    ∧ msg ∈ ["non-positive rank"; MSG_RANK; MSG_SIZE]
    ∧ mem w' = mem w ∧ disk w' = disk w.
Proof.
  intros Hh Hf Hr Hlen Hbad. unfold matrixio_read_real_data.
  destruct (0 <? rank) eqn:Hpos.
  2:{ exists "non-positive rank", w. split_and!; [done| |done..].
      apply list_elem_of_here. }
  apply Z.ltb_lt in Hpos.
  rewrite (bind_Done _ _ _ _ _ (CHECK_true _ _)).
  erewrite bind_Done; [|unfold H5Dopen; rewrite Hh, Hf; reflexivity].
  set (w1 := World _ _ _ _ _ _ _).
  assert (handles w1 !! next_id w = Some (HData path name rw)) as Hh1
    by apply lookup_insert_eq.
  rewrite (bind_Done _ _ _ _ _ (H5Dget_space_data _ _ _ _ _ Hh1)).
  change (find_dataset w1 path name) with (find_dataset w path name).
  rewrite Hf. simpl fmap.
  simpl H5Sget_simple_extent_ndims. simpl H5Sget_simple_extent_dims.
  destruct (rank =? Z.of_nat (length (ds_dims ds))) eqn:Hrank.
  2:{ exists MSG_RANK, w1. split_and!; [done| |done..].
      apply list_elem_of_further, list_elem_of_here. }
  apply Z.eqb_eq in Hrank.
  destruct Hbad as [?|(i & d & e & Hi & Hd & He & Hne)]; [done|].
  rewrite (bind_Done _ _ _ _ _ (CHECK_true _ _)).
  rewrite Hrank, malloc_ok_rank, (bind_Done _ _ _ _ _ (CHECK_true _ _)) by done.
  apply lookup_lt_Some in Hd as Hlt.
  erewrite bind_Fatal.
  2:{ eapply (check_dims_mismatch _ _ _ 0 i); [done|lia|lia|done..]. }
  exists MSG_SIZE, w1. split_and!; [done| |done..].
  do 2 apply list_elem_of_further. apply list_elem_of_here.
Qed.

(** C10.  The distribution axis is validated as well: when the declared
    rank is the stored one and the declared [dims[0]] is not the stored
    extent of axis 0, the call aborts with the size-mismatch message, the
    memory and the file being as before the call, whatever the other axes
    are. *)
Theorem read_validates_axis0 w fid path rw name ds (rank : Z) (dims : list Z)
    local_dim0 local_dim0_start stride out d e :
  handles w !! fid = Some (HFile path rw) →
  find_dataset w path name = Some ds →
  (length (ds_dims ds) ≤ 32)%nat →
  rank = Z.of_nat (length (ds_dims ds)) →
  length dims = Z.to_nat rank →
  ds_dims ds !! 0%nat = Some d → dims !! 0%nat = Some e → d ≠ to_hsize e →
  ∃ w',
    matrixio_read_real_data fid name rank dims local_dim0 local_dim0_start
                            stride out w = Fatal MSG_SIZE w'
    ∧ mem w' = mem w ∧ disk w' = disk w.
Proof.
  intros Hh Hf Hr -> Hlen Hd He Hne. unfold matrixio_read_real_data.
  apply lookup_lt_Some in Hd as Hlt.
  rewrite (proj2 (Z.ltb_lt 0 _)) by lia.
  rewrite (bind_Done _ _ _ _ _ (CHECK_true _ _)).
  erewrite bind_Done; [|unfold H5Dopen; rewrite Hh, Hf; reflexivity].
  set (w1 := World _ _ _ _ _ _ _).
  assert (handles w1 !! next_id w = Some (HData path name rw)) as Hh1
    by apply lookup_insert_eq.
  rewrite (bind_Done _ _ _ _ _ (H5Dget_space_data _ _ _ _ _ Hh1)).
  change (find_dataset w1 path name) with (find_dataset w path name).
  rewrite Hf. simpl fmap.
  simpl H5Sget_simple_extent_ndims. simpl H5Sget_simple_extent_dims.
  rewrite Z.eqb_refl, (bind_Done _ _ _ _ _ (CHECK_true _ _)).
  rewrite malloc_ok_rank, (bind_Done _ _ _ _ _ (CHECK_true _ _)) by done.
  erewrite bind_Fatal.
  2:{ eapply (check_dims_mismatch _ _ _ 0 0%nat); [done|lia|lia|done..]. }
  by exists w1.
Qed.

(** ** No validation in [matrixio_write_real_data] *)

Lemma bind_fmap_nil {A B C} (l : list A) (f : A → B → C) :
  l ≫= (λ k, f k <$> []) = [].
Proof. induction l as [|x l IH]; [done|]. by rewrite bind_cons, IH. Qed.

(** A hyperslab that leaves the extent selects a position outside it,
    unless it selects nothing. *)
Lemma out_of_range_coords (D st ld : list Z) :
  length st = length D → length ld = length D → Forall is_int ld →
  out_of_range D st ld →
  (∀ x, x ∈ slab_coords st (replicate (length D) 1) (to_hsize <$> ld) →
        in_extent D x = true) →
  slab_coords st (replicate (length D) 1) (to_hsize <$> ld) = [].
Proof.
  revert st ld. induction D as [|d D IH]; intros [|a st] [|n ld] Hst Hld Hint;
    simplify_eq/=.
  { by intros ([|i] & ? & ? & ? & ? & _). }
  intros (i & d' & a' & n' & Hd & Ha & Hn & Hout) Hvalid.
  apply Forall_cons_1 in Hint as [Hn_int Hint].
  assert (∀ k r, 0 <= k < to_hsize n →
            r ∈ slab_coords st (replicate (length D) 1) (to_hsize <$> ld) →
            0 <= a + k < d ∧ in_extent D r = true) as Hv.
  { intros k r Hk Hr. specialize (Hvalid ((a + k * 1) :: r)).
    rewrite !andb_true_iff, Z.leb_le, Z.ltb_lt in Hvalid.
    destruct Hvalid as [[??] ?]; [|split; [lia|done]].
    apply list_elem_of_bind. exists k. split; [|by apply elem_of_seqZ].
    apply list_elem_of_fmap. by exists r. }
  clear Hvalid.
  destruct (slab_coords st (replicate (length D) 1) (to_hsize <$> ld))
    as [|r R] eqn:HR.
  { apply bind_fmap_nil. }
  destruct (decide (0 < to_hsize n)) as [Hpos|Hpos].
  2:{ unfold seqZ. by replace (Z.to_nat (to_hsize n)) with 0%nat by lia. }
  exfalso.
  destruct i as [|i]; simplify_eq/=.
  - unfold is_int in Hn_int. unfold to_hsize in *.
    destruct (decide (0 <= n')) as [Hnn|Hneg].
    + rewrite Z.mod_small in Hpos, Hv by lia.
      destruct (Hv (n' - 1) r); [lia|apply list_elem_of_here|lia].
    + destruct (Hv 0 r); [lia|apply list_elem_of_here|lia].
  - assert (slab_coords st (replicate (length D) 1) (to_hsize <$> ld) = [])
      as HR'; [|by rewrite HR in HR'].
    apply IH; [done..| |].
    + by exists i, d', a', n'.
    + intros x Hx. rewrite HR in Hx. by apply (Hv 0); [lia|].
Qed.

Lemma store_dataset_same w path name ds path' name' :
  find_dataset w path name = Some ds →
  find_dataset (store_dataset path name
                  (Dataset (ds_dims ds) (ds_elems ds) (ds_attrs ds)) w) path' name'
  = find_dataset w path' name'.
Proof.
  intros Hf. destruct (decide ((path', name') = (path, name))) as [[= -> ->]|].
  - erewrite find_dataset_store by done. rewrite Hf. by destruct ds.
  - by apply find_dataset_store_ne.
Qed.

(** C8, as the code has it.  [matrixio_write_real_data] does not validate
    the hyperslab.  For a call on an open dataset whose hyperslab leaves
    the extent on some axis, no error is raised: the call returns, and no
    element of any dataset has changed (the library refuses the transfer
    and the status is not looked at). *)
Theorem write_out_of_range_returns w data_id path name rw ds (ld st : list Z)
    s buf :
  handles w !! data_id = Some (HData path name rw) →
  find_dataset w path name = Some ds →
  ds_dims ds ≠ [] → (length (ds_dims ds) ≤ 32)%nat →
  length st = length (ds_dims ds) → length ld = length (ds_dims ds) →
  Forall is_int ld →
  out_of_range (ds_dims ds) st ld →
  ∃ w',
    matrixio_write_real_data data_id ld st s buf w = Done () w'
    ∧ mem w' = mem w
    ∧ ∀ path' name', find_dataset w' path' name' = find_dataset w path' name'.
Proof.
  intros Hh Hf Hne Hr Hst Hld Hint Hout.
  unfold matrixio_write_real_data.
  rewrite (bind_Done _ _ _ _ _ (H5Dget_space_data _ _ _ _ _ Hh)), Hf.
  simpl H5Sget_simple_extent_ndims. simpl fmap.
  rewrite malloc_ok_rank, (bind_Done _ _ _ _ _ (CHECK_true _ _)) by done.
  rewrite (proj2 (Z.ltb_lt 0 _)) by (destruct (ds_dims ds); [done|simpl; lia]).
  rewrite (bind_Done _ _ _ _ _ (undefined_unless_true _)).
  replace (holds (Z.of_nat (length (ds_dims ds))) ld) with true
    by (rewrite <-Hld; symmetry; apply holds_length).
  replace (holds (Z.of_nat (length (ds_dims ds))) st) with true
    by (rewrite <-Hst; symmetry; apply holds_length).
  rewrite (bind_Done _ _ _ _ _ (undefined_unless_true _)).
  unfold write_file_space, H5Sselect_hyperslab. cbn [sp_dims].
  rewrite Nat2Z.id.
  rewrite (firstn_all2 st), (firstn_all2 ld) by lia.
  rewrite length_fmap, !bool_decide_eq_true_2 by done.
  cbn [andb].
  match goal with
  | |- context [H5Dwrite ?a ?b ?c ?d] =>
      destruct (H5Dwrite a b c d w) as [z w'| |] eqn:Hw
  end.
  2,3: unfold H5Dwrite in Hw; repeat case_match; done.
  rewrite (bind_Done _ _ _ _ _ Hw). exists w'. split; [done|].
  unfold H5Dwrite in Hw. rewrite Hh, Hf in Hw.
  destruct rw; [|by simplify_eq].
  destruct (write_mem_space _ _ _) as [ms|]; [|by simplify_eq].
  destruct (_ && _) eqn:Hcond in Hw; [|by simplify_eq].
  rewrite !andb_true_iff in Hcond. destruct Hcond as [[[_ _] Hvalid] _].
  unfold sel_valid, sel_coords in Hvalid. cbn [sp_dims sp_sel default from_option] in Hvalid.
  assert (sel_coords (Dataspace (ds_dims ds) (SelHyper st None (to_hsize <$> ld)))
          = []) as Hempty.
  { unfold sel_coords. cbn [sp_dims sp_sel default from_option].
    apply out_of_range_coords; [done..|].
    intros x Hx. rewrite forallb_forall in Hvalid. apply Hvalid.
    by apply list_elem_of_In. }
  rewrite Hempty in Hw. rewrite zip_with_nil_r in Hw. simplify_eq.
  split; [done|]. intros path' name'. cbn [foldl].
  change (find_dataset (add_event ?e ?w0) path' name')
    with (find_dataset w0 path' name').
  by apply store_dataset_same.
Qed.

End Specs.

(** ** The statements at concrete inputs *)

(** Two calls that split a 2 x 3 dataset by rows, the first from an
    interleaved buffer. *)
Lemma rows_disjoint :
  disjoint_calls [WriteCall [1; 3] [0; 0] 2 0; WriteCall [1; 3] [1; 0] 1 100].
Proof.
  intros [|[|i]] [|[|j]] ci cj x Hij Hi Hj; simplify_eq/=;
    unfold slab_of; simpl; destruct x as [|x0 [|x1 [|]]]; try done;
    rewrite !andb_true_iff, !Z.leb_le, !Z.ltb_lt; lia.
Defined.

Lemma rows_cover :
  cover_calls [2; 3] [WriteCall [1; 3] [0; 0] 2 0; WriteCall [1; 3] [1; 0] 1 100].
Proof.
  intros x Hx. destruct x as [|x0 [|x1 [|x2 x]]]; simpl in Hx;
    rewrite ?andb_false_r in Hx; try done.
  rewrite !andb_true_iff, !Z.leb_le, !Z.ltb_lt in Hx.
  destruct Hx as [[??] [[??] _]].
  destruct (decide (x0 = 0)) as [->|].
  - eexists. split; [apply list_elem_of_here|].
    unfold slab_of. simpl. rewrite !andb_true_iff, !Z.leb_le, !Z.ltb_lt. lia.
  - eexists. split; [apply list_elem_of_further, list_elem_of_here|].
    unfold slab_of. simpl. rewrite !andb_true_iff, !Z.leb_le, !Z.ltb_lt. lia.
Defined.

Lemma write_read_roundtrip_witness :
  ∃ w1 w2,
    run_writes 2 [WriteCall [1; 3] [0; 0] 2 0; WriteCall [1; 3] [1; 0] 1 100]
               (w_dataset 2 [2; 3]) = Done () w1
    ∧ matrixio_read_real_data 1 "d" 2 [2; 3] 2 0 1 1000 w1 = Done () w2
    ∧ ∀ x, in_extent [2; 3] x = true →
        ∃ c, c ∈ [WriteCall [1; 3] [0; 0] 2 0; WriteCall [1; 3] [1; 0] 1 100]
             ∧ slab_of c x = true
             ∧ mem w2 (1000 + offset [2; 3] x) = mem (w_dataset 2 [2; 3]) (wc_slot c x).
Proof.
  apply (write_read_roundtrip (w_dataset 2 [2; 3]) 2 1 "run.h5" "d" true
           (Dataset [2; 3] ∅ ∅) [2; 3]).
  - done.
  - simpl. lia.
  - repeat constructor; lia.
  - by vm_compute.
  - by vm_compute.
  - by vm_compute.
  - done.
  - repeat constructor; simpl; lia.
  - apply rows_disjoint.
  - apply rows_cover.
Defined.

Lemma write_local_selection_witness :
  ∃ sp,
    write_mem_space 2 [2; 3] 2 = Some sp
    ∧ sp_dims sp = [2; 6]
    ∧ offset (sp_dims sp) <$> sel_coords sp = [0; 2; 4; 6; 8; 10].
Proof.
  destruct (write_local_selection [2; 3] 2) as (sp & Hsp & _ & Hd & _ & _ & _ & Ho & _).
  - done.
  - simpl. lia.
  - repeat constructor; lia.
  - unfold is_int. lia.
  - exists sp. split; [exact Hsp|]. split; [apply Hd; lia|apply Ho; lia].
Defined.

(** C6.  The local selection for a stride below 1.  Line 266 takes every
    [stride <= 1] as the contiguous case (no strides are passed), but line
    262 has multiplied the last extent of the memory space by the stride
    all the same.  For the block [2; 3] and the stride 0 the memory space
    has the extent [2; 0]: the selection is the block [2; 3], which does
    not lie in it, its offsets are 0, 1, 2, 0, 1, 2 and not the six slots
    0 .. 5 of a contiguous buffer, and the transfer is refused, so that
    nothing of the buffer is read.  For the stride -1 the extent of the
    last axis wraps to 2^64 - 3 and the second row is taken from the
    offsets 2^64 - 3 onwards. *)
Theorem write_local_selection_stride_zero :
  (∃ sp,
     write_mem_space 2 [2; 3] 0 = Some sp
     ∧ sp_dims sp = [2; 0]
     ∧ sel_coords sp = box [2; 3]
     ∧ sel_valid sp = false
     ∧ offset (sp_dims sp) <$> sel_coords sp = [0; 1; 2; 0; 1; 2]
     ∧ offset (sp_dims sp) <$> sel_coords sp ≠ [0; 1; 2; 3; 4; 5])
  ∧ matrixio_write_real_data 2 [2; 3] [0; 0] 0 100 (w_dataset 2 [2; 3])
    = Done () (w_dataset 2 [2; 3])
  ∧ (∃ sp,
       write_mem_space 2 [2; 3] (-1) = Some sp
       ∧ sp_dims sp = [2; 2 ^ 64 - 3]
       ∧ offset (sp_dims sp) <$> sel_coords sp
         = [0; 1; 2; 2 ^ 64 - 3; 2 ^ 64 - 2; 2 ^ 64 - 1]).
Proof.
  split_and!.
  - eexists. split; [by vm_compute|]. by vm_compute.
  - by vm_compute.
  - eexists. split; [by vm_compute|]. by vm_compute.
Qed.

Lemma rows_stride_zero_disjoint : disjoint_calls rows_stride_zero.
Proof.
  intros [|[|i]] [|[|j]] ci cj x Hij Hi Hj; simplify_eq/=;
    unfold slab_of; simpl; destruct x as [|x0 [|x1 [|]]]; try done;
    rewrite !andb_true_iff, !Z.leb_le, !Z.ltb_lt; lia.
Qed.

Lemma rows_stride_zero_cover : cover_calls [2; 3] rows_stride_zero.
Proof.
  intros x Hx. destruct x as [|x0 [|x1 [|x2 x]]]; simpl in Hx;
    rewrite ?andb_false_r in Hx; try done.
  rewrite !andb_true_iff, !Z.leb_le, !Z.ltb_lt in Hx.
  destruct Hx as [[??] [[??] _]].
  destruct (decide (x0 = 0)) as [->|].
  - eexists. split; [apply list_elem_of_here|].
    unfold slab_of. simpl. rewrite !andb_true_iff, !Z.leb_le, !Z.ltb_lt. lia.
  - eexists. split; [apply list_elem_of_further, list_elem_of_here|].
    unfold slab_of. simpl. rewrite !andb_true_iff, !Z.leb_le, !Z.ltb_lt. lia.
Qed.

(** C1.  The round trip is lost for a call with the stride 0.  The two
    calls of [rows_stride_zero] have disjoint hyperslabs that cover the
    2 x 3 dataset.  The second, with the stride 0, transfers nothing
    (the memory space of line 263 has no slot on its last axis), no error
    is raised, and the read of the full extent returns 100, 101, 102 for
    the first row and the fill value 0, 0, 0 for the second, where the
    buffer of the second call holds 200, 201, 202. *)
Theorem write_read_roundtrip_stride_zero :
  disjoint_calls rows_stride_zero
  ∧ cover_calls [2; 3] rows_stride_zero
  ∧ ∃ w1 w2,
      run_writes 2 rows_stride_zero (w_dataset 2 [2; 3]) = Done () w1
      ∧ matrixio_read_real_data 1 "d" 2 [2; 3] 2 0 1 1000 w1 = Done () w2
      ∧ buffer w2 1000 6 = [100; 101; 102; 0; 0; 0]
      ∧ buffer (w_dataset 2 [2; 3]) 200 3 = [200; 201; 202].
Proof.
  split; [apply rows_stride_zero_disjoint|].
  split; [apply rows_stride_zero_cover|].
  eexists _, _. split; [by vm_compute|]. split; [by vm_compute|].
  by vm_compute.
Qed.

Lemma read_validates_shape_witness :
  ∃ msg w',
    matrixio_read_real_data 1 "d" 2 [2; 4] 2 0 1 1000 (w_dataset 2 [2; 3])
    = Fatal msg w'
    ∧ msg ∈ ["non-positive rank"; MSG_RANK; MSG_SIZE]
    ∧ mem w' = mem (w_dataset 2 [2; 3]) ∧ disk w' = disk (w_dataset 2 [2; 3]).
Proof.
  apply (read_validates_shape (w_dataset 2 [2; 3]) 1 "run.h5" true "d"
           (Dataset [2; 3] ∅ ∅)).
  - by vm_compute.
  - by vm_compute.
  - simpl. lia.
  - done.
  - right. exists 1%nat, 3, 4. by vm_compute.
Defined.

Lemma read_validates_axis0_witness :
  ∃ w',
    matrixio_read_real_data 1 "d" 2 [1; 3] 1 0 1 1000 (w_dataset 2 [2; 3])
    = Fatal MSG_SIZE w'
    ∧ mem w' = mem (w_dataset 2 [2; 3]) ∧ disk w' = disk (w_dataset 2 [2; 3]).
Proof.
  apply (read_validates_axis0 (w_dataset 2 [2; 3]) 1 "run.h5" true "d"
           (Dataset [2; 3] ∅ ∅) 2 [1; 3] 1 0 1 1000 2 1).
  - by vm_compute.
  - by vm_compute.
  - simpl. lia.
  - done.
  - done.
  - done.
  - done.
  - by vm_compute.
Defined.

(** C8, the claim as stated fails: the hyperslab of shape [4] at offset
    [2] leaves the extent [4], and the call returns without an error,
    the world being as before. *)
Lemma write_out_of_range_not_fatal :
  out_of_range [4] [2] [4]
  ∧ matrixio_write_real_data 2 [4] [2] 1 0 (w_dataset 1 [4])
    = Done () (w_dataset 1 [4]).
Proof.
  split; [|by vm_compute].
  exists 0%nat, 4, 2, 4. simpl. split_and!; [done..|lia].
Qed.

Lemma write_out_of_range_returns_witness :
  ∃ w',
    matrixio_write_real_data 2 [4] [2] 1 0 (w_dataset 1 [4]) = Done () w'
    ∧ mem w' = mem (w_dataset 1 [4])
    ∧ ∀ path' name',
        find_dataset w' path' name' = find_dataset (w_dataset 1 [4]) path' name'.
Proof.
  apply (write_out_of_range_returns (w_dataset 1 [4]) 2 "run.h5" "d" true
           (Dataset [4] ∅ ∅)).
  - by vm_compute.
  - by vm_compute.
  - done.
  - simpl. lia.
  - done.
  - done.
  - repeat constructor; unfold is_int; lia.
  - exists 0%nat, 4, 2, 4. simpl. split_and!; [done..|lia].
Defined.

(** ** The scenarios of the specification *)

Example scenario_A_reads_back :
  ∃ w', scenario_A w_empty = Done () w'
        ∧ buffer w' 1000 24 = seqZ 0 24
        ∧ handles w' = ∅.
Proof. eexists. split; [by vm_compute|]. by vm_compute. Qed.

Example scenario_B_reads_back :
  ∃ w', scenario_B w_empty = Done () w'
        ∧ buffer w' 1000 2 = [10; 12].
Proof. eexists. split; [by vm_compute|]. by vm_compute. Qed.

(** With a stride of 0 the memory space has no slot on its last axis, the
    library refuses the transfer and nothing is written. *)
Example write_stride_zero :
  matrixio_write_real_data 2 [4] [0] 0 0 (w_dataset 1 [4])
  = Done () (w_dataset 1 [4]).
Proof. by vm_compute. Qed.

(** ** The output of [get_sdos] *)

(** The last two entries of the array are the bounds of the second axis,
    for all arguments. *)
Lemma iGspan_init_entries `{!RealType real}
    (iG1_min iG2_min iG3_min iG1_max iG2_max iG3_max : Z) :
  iGspan_init iG1_min iG2_min iG3_min iG1_max iG2_max iG3_max
  = real_of_int <$> [iG1_min; iG1_max; iG2_min; iG2_max; iG2_min; iG2_max].
Proof. done. Qed.

(** C2.  The dataset "iGspan" does not hold the bounds of the third axis.
    In the run [sdos_run] the index ranges are 0..0, 0..0 and 0..1; the
    call returns, and the dataset holds 0, 0, 0, 0, 0, 0, not
    0, 0, 0, 0, 0, 1: its last two entries repeat [iG2_min] and [iG2_max]
    (line 174), while the description attribute written with it names
    [iG3_min] and [iG3_max]. *)
Theorem get_sdos_iGspan_contents :
  ∃ w',
    sdos_run = Done () w'
    ∧ dataset_contents w' "out-sdos.k1.h5" "iGspan" = Some [0; 0; 0; 0; 0; 0]
    ∧ dataset_contents w' "out-sdos.k1.h5" "iGspan" ≠ Some [0; 0; 0; 0; 0; 1]
    ∧ (find_dataset w' "out-sdos.k1.h5" "iGspan" ≫= λ ds, ds_attrs ds !! "description")
      = Some "iG1_min, iG1_max, iG2_min, iG2_max, iG3_min, iG3_max".
Proof.
  eexists. split; [by vm_compute|]. by vm_compute.
Qed.

(** C9.  Three of the four dataset identifiers of [get_sdos] are never
    closed.  In the run [sdos_run] the identifiers 2, 3, 4 and 5 are
    obtained from [matrixio_create_dataset]; only 5 (the last, "kpoint") is
    closed before the file (identifier 1) is, and 2, 3 and 4 are still
    open when [get_sdos] returns. *)
Theorem get_sdos_leaves_datasets_open :
  ∃ w',
    sdos_run = Done () w'
    ∧ log w' = [EvClose 1; EvClose 5; EvWrite 5 1; EvOpen 5; EvWrite 4 6;
                EvOpen 4; EvWrite 3 3; EvOpen 3; EvWrite 2 4; EvOpen 2;
                EvOpen 1]
    ∧ handles w' !! 2 = Some (HData "out-sdos.k1.h5" "sdos" true)
    ∧ handles w' !! 3 = Some (HData "out-sdos.k1.h5" "freqspan" true)
    ∧ handles w' !! 4 = Some (HData "out-sdos.k1.h5" "iGspan" true)
    ∧ handles w' !! 5 = None
    ∧ open_datasets w' ≡ₚ [2; 3; 4].
Proof.
  eexists. split; [by vm_compute|].
  split_and!; try by vm_compute.
  vm_compute. symmetry. apply (Permutation_cons_append [3; 4] 2).
Qed.

(** ** Collective creation of a group *)

Module CollectiveFacts.
Import Collective.

Section Facts.
Variables (K coord : nat) (description : option string).
Hypothesis Hcoord : (coord < K)%nat.

Abbreviation good_pc := (good_pc coord description).
Abbreviation inv := (inv K coord description).
Abbreviation wf_history := (wf_history K coord).
Abbreviation event_ok := (event_ok K coord).
Abbreviation step_proc := (step_proc coord description).

Lemma forallb_entered l :
  forallb entered l = true ↔ Forall (λ c, entered c = true) l.
Proof.
  induction l as [|c l IH]; simpl.
  - split; [constructor|done].
  - rewrite andb_true_iff. split.
    + intros [??]. constructor; [done|by apply IH].
    + intros [??]%Forall_cons_1. split; [done|by apply IH].
Qed.

Lemma all_entered_insert procs0 p c n f h :
  Forall (λ c, entered c = true) procs0 → entered c = true →
  all_entered (State (<[p := c]> procs0) n f h).
Proof. intros. by apply Forall_insert. Qed.

Lemma all_entered_lookup s p c :
  all_entered s → procs s !! p = Some c → entered c = true.
Proof. intros Ha Hp. by apply (Forall_lookup_1 _ _ _ _ Ha Hp). Qed.

(** A step of another process keeps what holds of a follower. *)
Lemma good_pc_follower s s' q c :
  q ≠ coord → history s ⊆ history s' →
  (all_entered s → all_entered s') →
  good_pc s q c → good_pc s' q c.
Proof.
  intros Hq Hh Ha. destruct c; simpl; unfold published; naive_solver.
Qed.

(** A step that leaves the node as it is and makes no creation keeps what
    holds of every process. *)
Lemma good_pc_frame s s' q c e :
  node s' = node s → flushed s' = flushed s →
  history s' = e ++ history s → (∀ p, ECreate p ∉ e) →
  (all_entered s → all_entered s') →
  good_pc s q c → good_pc s' q c.
Proof.
  intros Hn Hf Hh He Ha.
  assert (∀ x, x ∈ history s → x ∈ history s') as Hsub.
  { intros x Hx. rewrite Hh. apply elem_of_app. by right. }
  assert (∀ p, ECreate p ∈ history s' → ECreate p ∈ history s) as Hc.
  { intros p. rewrite Hh. intros [?|?]%elem_of_app; [by destruct (He p)|done]. }
  destruct c; simpl; unfold published; rewrite ?Hn, ?Hf; naive_solver.
Qed.
Lemma inv_init : inv (init K).
Proof.
  split_and!.
  - apply length_replicate.
  - intros p c [-> _]%lookup_replicate. simpl. intros _. split; [done|].
    intros q. apply not_elem_of_nil.
  - done.
Qed.

(** The case of a process other than the one that steps. *)
Ltac other_proc Hq Hgood :=
  rewrite list_lookup_insert_ne in Hq by done; apply Hgood in Hq.

Lemma inv_step s s' p : inv s → step_proc p s = Some s' → inv s'.
Proof.
  intros (Hlen & Hgood & Hwf) Hstep. unfold step_proc in Hstep.
  destruct (procs s !! p) as [c|] eqn:Hp; [|done].
  pose proof (Hgood p c Hp) as Hpc.
  assert (p < length (procs s))%nat as Hplt by (by eapply lookup_lt_Some).
  assert (∀ c', entered c = false → all_entered s →
                all_entered (State (<[p:=c']> (procs s)) (node s) (flushed s) [])
                ∧ False) as Hnot.
  { intros c' Hc Ha. by rewrite (all_entered_lookup _ _ _ Ha Hp) in Hc. }
  destruct c; simpl in Hpc, Hnot.
  - (* Entry *)
    unfold mpi_is_master in Hstep. case_bool_decide as Hm; simplify_eq.
    + (* the coordinator creates *)
      destruct Hpc as [Hnode Hnone]; [done|].
      split_and!; simpl.
      * by rewrite length_insert.
      * intros q c' Hq. destruct (decide (q = coord)) as [->|Hne].
        -- rewrite list_lookup_insert_eq in Hq by done. simplify_eq. simpl.
           rewrite Hnode. split_and!; [done..|]. apply list_elem_of_here.
        -- other_proc Hq Hgood.
           apply (good_pc_follower s); [done| | |done]; simpl.
           ++ intros x Hx. by right.
           ++ intros Ha. by destruct (Hnot Entry).
      * done.
    + (* a follower enters the barrier *)
      split_and!; simpl.
      * by rewrite length_insert.
      * intros q c' Hq. destruct (decide (q = p)) as [->|Hne].
        -- rewrite list_lookup_insert_eq in Hq by done. simplify_eq. simpl.
           split; [apply list_elem_of_here|done].
        -- other_proc Hq Hgood.
           apply (good_pc_frame s _ q c' [EEnter p]); [done|done|done| | |done]; simpl.
           ++ by intros ? [=]%list_elem_of_singleton.
           ++ intros Ha. by destruct (Hnot Entry).
      * done.
  - (* MCreated: the attribute *)
    destruct Hpc as (-> & Hnode & Hcr).
    destruct (attr_of description) as [d|] eqn:Hd; simplify_eq.
    + split_and!; simpl.
      * by rewrite length_insert.
      * intros q c' Hq. destruct (decide (q = coord)) as [->|Hne].
        -- rewrite list_lookup_insert_eq in Hq by done. simplify_eq. simpl.
           rewrite Hnode, Hd. split_and!; [done|done|by right|].
           intros _. by left.
        -- other_proc Hq Hgood.
           apply (good_pc_follower s); [done| | |done]; simpl.
           ++ intros x Hx. by right.
           ++ intros Ha. by destruct (Hnot Entry).
      * done.
    + split_and!; simpl.
      * by rewrite length_insert.
      * intros q c' Hq. destruct (decide (q = coord)) as [->|Hne].
        -- rewrite list_lookup_insert_eq in Hq by done. simplify_eq. simpl.
           rewrite Hnode, Hd. split_and!; [done..|]. by intros [? [=]].
        -- other_proc Hq Hgood.
           apply (good_pc_follower s); [done| | |done]; simpl; [done|].
           intros Ha. by destruct (Hnot Entry).
      * done.
  - (* MAttr: the flush *)
    destruct Hpc as (-> & Hnode & Hcr & Hat). simplify_eq.
    split_and!; simpl.
    + by rewrite length_insert.
    + intros q c' Hq. destruct (decide (q = coord)) as [->|Hne].
      * rewrite list_lookup_insert_eq in Hq by done. simplify_eq. simpl.
        split; [done|]. split_and!; simpl; [done|done|by right|by left|].
        intros ?. right. by apply Hat.
      * other_proc Hq Hgood.
        apply (good_pc_follower s); [done| | |done]; simpl.
        -- intros x Hx. by right.
        -- intros Ha. by destruct (Hnot Entry).
    + done.
  - (* MFlushed: the coordinator enters the barrier *)
    destruct Hpc as (-> & Hpub). simplify_eq.
    split_and!; simpl.
    + by rewrite length_insert.
    + intros q c' Hq. destruct (decide (q = coord)) as [->|Hne].
      * rewrite list_lookup_insert_eq in Hq by done. simplify_eq. simpl.
        split; [by left|]. intros _. destruct Hpub as (?&?&?&?&Hat).
        split_and!; simpl; [done|done|by right|by right|].
        intros ?. right. by apply Hat.
      * other_proc Hq Hgood.
        apply (good_pc_follower s); [done| | |done]; simpl.
        -- intros x Hx. by right.
        -- intros Ha. by destruct (Hnot Entry).
    + split; [|done]. intros _. by destruct Hpub as (?&?&?&?&?).
  - (* InBarrier: leaving *)
    destruct (forallb entered (procs s)) eqn:Hall; [|done].
    apply forallb_entered in Hall. simplify_eq.
    destruct Hpc as [Hent Hpub].
    assert (∀ c', entered c' = true →
              all_entered (State (<[p:=c']> (procs s)) (node s) (flushed s)
                                 (ELeave p :: history s))) as Ha'.
    { intros. by apply all_entered_insert. }
    split_and!; simpl.
    + by rewrite length_insert.
    + intros q c' Hq. destruct (decide (q = p)) as [->|Hne].
      * rewrite list_lookup_insert_eq in Hq by done. simplify_eq.
        unfold mpi_is_master. case_bool_decide as Hm; simpl.
        -- split_and!; [done|by right|by left|by apply Ha'| |done].
           intros _. destruct (Hpub Hm) as (?&?&?&?&Hat).
           split_and!; simpl; [done|done|by right|by right|].
           intros ?. right. by apply Hat.
        -- split_and!; [done|by right|by left|by apply Ha'].
      * other_proc Hq Hgood.
        apply (good_pc_frame s _ q c' [ELeave p]); [done|done|done| | |done]; simpl.
        -- by intros ? [=]%list_elem_of_singleton.
        -- intros _. apply Ha'. by destruct (mpi_is_master _ _).
    + split; [|done]. intros q Hq.
      destruct (lookup_lt_is_Some_2 (procs s) q) as [cq Hcq]; [lia|].
      pose proof (all_entered_lookup _ _ _ Hall Hcq) as Hcqe.
      specialize (Hgood _ _ Hcq). destruct cq; simpl in *; naive_solver.
  - (* FPassed: the follower opens the group *)
    destruct Hpc as (Hne & Hent & Hleft & Hall). simplify_eq.
    assert (published description s coord) as Hpub.
    { destruct (lookup_lt_is_Some_2 (procs s) coord) as [cq Hcq]; [lia|].
      pose proof (all_entered_lookup _ _ _ Hall Hcq) as Hcqe.
      specialize (Hgood _ _ Hcq). destruct cq; simpl in *; naive_solver. }
    destruct Hpub as (Hnode & Hfl & Hcr & Hflush & Hat).
    rewrite Hfl, Hnode, bool_decide_eq_true_2 by done. simpl.
    split_and!; simpl.
    + by rewrite length_insert.
    + intros q c' Hq. destruct (decide (q = p)) as [->|Hqp].
      * rewrite list_lookup_insert_eq in Hq by done. simplify_eq. simpl.
        split_and!; [done|by right|by right|by apply all_entered_insert|done|].
        intros _. by left.
      * other_proc Hq Hgood.
        apply (good_pc_frame s _ q c' [EOpen p true]); [done|done|done| | |done]; simpl.
        -- by intros ? [=]%list_elem_of_singleton.
        -- intros _. by apply all_entered_insert.
    + done.
  - (* Returned *) done.
Qed.

Lemma reachable_inv s : reachable K coord description s → inv s.
Proof.
  induction 1 as [|s s' _ IH Hstep]; [apply inv_init|].
  destruct Hstep as [p s s' Hstep]. by eapply inv_step.
Qed.

Lemma wf_history_app newer e older :
  wf_history (newer ++ e :: older) → event_ok e older.
Proof. induction newer as [|e' newer IH]; simpl; naive_solver. Qed.

Lemma wf_history_elem h e :
  wf_history h → e ∈ h → ∃ older, event_ok e older.
Proof.
  intros Hwf (newer & older & ->)%list_elem_of_split.
  exists older. by eapply wf_history_app.
Qed.

Lemma creations_none h : (∀ q, ECreate q ∉ h) → creations h = 0%nat.
Proof.
  unfold creations. induction h as [|e h IH]; intros Hno; [done|].
  destruct e; simpl; try (apply IH; intros q Hq; apply (Hno q); by right).
  destruct (Hno p). by left.
Qed.

Lemma creations_wf h :
  wf_history h →
  (creations h ≤ 1)%nat ∧ ((∃ q, ECreate q ∈ h) → creations h = 1%nat).
Proof.
  induction h as [|e h IH]; intros Hwf.
  - split; [unfold creations; simpl; lia|].
    by intros [q ?%elem_of_nil].
  - destruct Hwf as [He Hwf]. destruct (IH Hwf) as [Hle Hone].
    destruct (decide (is_create e = true)) as [Hc|Hc].
    + destruct e; try done. destruct He as [_ Hno].
      pose proof (creations_none _ Hno) as Hz. unfold creations in *.
      simpl. rewrite Hz. split; [lia|done].
    + assert (creations (e :: h) = creations h) as ->.
      { unfold creations. simpl. by destruct (is_create e). }
      split; [done|]. intros [q Hq]. apply elem_of_cons in Hq as [<-|Hq];
        [done|]. eauto.
Qed.

Lemma step_measure s s' p :
  step_proc p s = Some s' → (measure s' < measure s)%nat.
Proof.
  unfold step_proc. destruct (procs s !! p) as [c|] eqn:Hp; [|done].
  assert (∀ c' n f h, (weight c' < weight c)%nat →
            (measure (State (<[p:=c']> (procs s)) n f h) < measure s)%nat)
    as Hlt.
  { intros c' n f h Hw. unfold measure. simpl.
    apply lookup_lt_Some in Hp as Hlen.
    rewrite <-(take_drop_middle _ _ _ Hp) at 2.
    rewrite insert_take_drop by done.
    rewrite !fmap_app, !fmap_cons, !sum_list_with_app. simpl.
    unfold sum_list. simpl. lia. }
  intros Hstep. destruct c; simpl in Hlt;
    repeat case_match; simplify_eq; unfold set_pc; apply Hlt; simpl; lia.
Qed.

Lemma progress s : ¬ final s → ∃ s', step coord description s s'.
Proof.
  intros Hfin.
  destruct (decide (Forall (λ c, c = InBarrier ∨ returned c = true) (procs s)))
    as [Hall|Hsome].
  - apply not_Forall_Exists in Hfin; [|apply _].
    apply list.Exists_exists in Hfin as (c & Hc & Hret).
    apply list_elem_of_lookup in Hc as [p Hp].
    pose proof (Forall_lookup_1 _ _ _ _ Hall Hp) as [->|?]; [|done].
    assert (forallb entered (procs s) = true) as Hent.
    { apply forallb_entered. eapply Forall_impl; [|exact Hall].
      intros c [->|Hr]; [done|]. by destruct c. }
    eexists. apply (step_of _ _ p). unfold step_proc. by rewrite Hp, Hent.
  - apply not_Forall_Exists in Hsome; [|apply _].
    apply list.Exists_exists in Hsome as (c & Hc & Hnot).
    apply list_elem_of_lookup in Hc as [p Hp].
    assert (is_Some (step_proc p s)) as [s' Hs'].
    { unfold step_proc. rewrite Hp.
      destruct c; repeat case_match; try done; destruct Hnot; auto. }
    exists s'. by apply (step_of _ _ p).
Qed.


(** Every schedule leads to a reachable state: a process that cannot take
    a step when it is named waits. *)
Lemma run_reachable sched : reachable K coord description (run K coord description sched).
Proof.
  unfold run. induction sched as [|p sched IH] using rev_ind; [constructor|].
  rewrite foldl_app. simpl.
  destruct (step_proc p _) as [s'|] eqn:Hs; simpl; [|done].
  eapply reach_step; [done|]. by apply (step_of _ _ p).
Qed.

End Facts.


End CollectiveFacts.

(** * Further properties of the code *)

(** ** Filename normalisation *)

Lemma substring_all s : String.substring 0 (String.length s) s = s.
Proof. induction s as [|a s IH]; simpl; [done|]. by rewrite IH. Qed.

Lemma substring_app_r p s :
  String.substring (String.length p) (String.length s) (p +:+ s) = s.
Proof. induction p as [|a p IH]; simpl; [apply substring_all|done]. Qed.

Lemma has_suffix_app p suffix : has_suffix suffix (p +:+ suffix) = true.
Proof.
  unfold has_suffix. rewrite str_length_app.
  replace (String.length p + String.length suffix - String.length suffix)%nat
    with (String.length p) by lia.
  rewrite substring_app_r, String.eqb_refl, andb_true_r.
  apply Nat.leb_le. lia.
Qed.

(** X1.  The result of [add_fname_suffix] always ends in ".h5", whatever
    the name is (also when the suffix text occurs earlier in it). *)
Theorem add_fname_suffix_has_suffix fname :
  has_suffix FNAME_SUFFIX (add_fname_suffix fname) = true.
Proof.
  unfold add_fname_suffix, strcat.
  destruct (strstr fname FNAME_SUFFIX) as [i|] eqn:Hi; [|apply has_suffix_app].
  destruct (Z.of_nat i =? _) eqn:He; simpl; [|apply has_suffix_app].
  apply Z.eqb_eq in He. unfold strlen in He.
  apply strstr_substring in Hi. unfold has_suffix.
  change (String.length FNAME_SUFFIX) with 3%nat in *.
  assert (i = (String.length fname - 3)%nat) as -> by lia.
  rewrite Hi, String.eqb_refl, andb_true_r. apply Nat.leb_le. lia.
Qed.

(** X15.  The buffer of [fix_fname] holds the result and its final NUL
    exactly when there is no parity suffix or the parity string has at most
    18 characters. *)
Theorem fix_fname_fits (fname prefix : option string) (d : maxwell_data) :
  strlen (fix_fname fname prefix d true) + 1 <= fix_fname_alloc fname prefix
  ↔ match md_parity d with
    | Some p => (String.length p ≤ 18)%nat
    | None => True
    end.
Proof.
  unfold fix_fname, fix_fname_alloc, strcat, strlen.
  destruct (md_parity d) as [p|]; rewrite ?str_length_app; simpl; lia.
Qed.

(** ** Files and datasets *)

Section Lifecycle.
Context {real : Type} `{!RealType real}.
Implicit Types (w : world (real:=real)) (ds : dataset (real:=real)).

(** X3.  Creating a file, then opening it.  Where the file system lets the
    file be created, [matrixio_create] truncates it and the file can then
    be opened under the name it was created with: both calls normalise the
    name in the same way.  Where the file cannot be created, the negative
    identifier of [H5Fcreate] fails the check of line 99: the process
    aborts and nothing has changed. *)
Theorem create_then_open w fname :
  0 <= next_id w →
  (creatable w (add_fname_suffix fname) = true →
   ∃ w1 w2,
     matrixio_create fname w = Done (next_id w) w1
     ∧ disk w1 !! add_fname_suffix fname = Some ∅
     ∧ handles w1 !! next_id w = Some (HFile (add_fname_suffix fname) true)
     ∧ matrixio_open fname w1 = Done (next_id w + 1) w2
     ∧ handles w2 !! (next_id w + 1) = Some (HFile (add_fname_suffix fname) false)
     ∧ disk w2 = disk w1)
  ∧ (creatable w (add_fname_suffix fname) = false →
     matrixio_create fname w = Fatal "error creating HDF output file" w).
Proof.
  intros Hid. unfold matrixio_create, matrixio_open. split; intros Hcr.
  - eexists _, _. split_and!.
    + erewrite bind_Done; [|unfold H5Fcreate; rewrite Hcr; reflexivity]. simpl.
      rewrite (proj2 (Z.leb_le 0 _)) by done.
      by rewrite (bind_Done _ _ _ _ _ (CHECK_true _ _)).
    + apply lookup_insert_eq.
    + apply lookup_insert_eq.
    + erewrite bind_Done.
      2:{ unfold H5Fopen. simpl. rewrite lookup_insert_eq. reflexivity. }
      simpl. rewrite (proj2 (Z.leb_le 0 _)) by lia.
      by rewrite (bind_Done _ _ _ _ _ (CHECK_true _ _)).
    + apply lookup_insert_eq.
    + done.
  - erewrite bind_Done; [|unfold H5Fcreate; rewrite Hcr; reflexivity].
    done.
Qed.

(** Opening a file that does not exist aborts, and nothing has changed. *)
Lemma open_missing_file w fname :
  disk w !! add_fname_suffix fname = None →
  matrixio_open fname w = Fatal "error opening HDF input file" w.
Proof.
  intros Hd. unfold matrixio_open.
  erewrite bind_Done; [|unfold H5Fopen; rewrite Hd; reflexivity].
  done.
Qed.

Lemma add_string_attr_new w id path name dims description :
  0 <= id →
  handles w !! id = Some (HData path name true) →
  find_dataset w path name = Some (Dataset dims ∅ ∅) →
  ∃ w',
    add_string_attr id (Some "description") description w = Done () w'
    ∧ handles w' = handles w ∧ next_id w' = next_id w ∧ mem w' = mem w
    ∧ master w' = master w
    ∧ find_dataset w' path name
      = Some (Dataset dims ∅ (description_attr (master w) description))
    ∧ ∀ path' name', (path', name') ≠ (path, name) →
        find_dataset w' path' name' = find_dataset w path' name'.
Proof.
  intros Hid Hh Hf. unfold add_string_attr.
  erewrite bind_Done; [|reflexivity].
  destruct (master w) eqn:Hm; simpl; [|by exists w].
  destruct description as [[|a d]|]; simpl; try by exists w.
  rewrite (proj2 (Z.leb_le 0 _)) by done.
  rewrite (bind_Done _ _ _ _ _ (CHECK_true _ _)).
  unfold H5Awrite_string. rewrite Hh, Hf. eexists. split_and!; try done.
  - erewrite find_dataset_store by done. done.
  - intros. by apply find_dataset_store_ne.
Qed.

Lemma create_dataset_new w fid path f name description (rank : Z)
    (dims : list Z) :
  handles w !! fid = Some (HFile path true) →
  disk w !! path = Some f → f !! name = None →
  0 < rank <= 32 → length dims = Z.to_nat rank → 0 <= next_id w →
  ∃ w',
    matrixio_create_dataset fid name description rank dims w
    = Done (next_id w) w'
    ∧ handles w' = <[next_id w := HData path name true]> (handles w)
    ∧ next_id w' = next_id w + 1 ∧ mem w' = mem w ∧ master w' = master w
    ∧ find_dataset w' path name
      = Some (Dataset (to_hsize <$> dims) ∅
                      (description_attr (master w) description))
    ∧ ∀ path' name', (path', name') ≠ (path, name) →
        find_dataset w' path' name' = find_dataset w path' name'.
Proof.
  intros Hh Hd Hn Hr Hlen Hid. unfold matrixio_create_dataset.
  rewrite (proj2 (Z.ltb_lt 0 _)) by lia.
  rewrite (bind_Done _ _ _ _ _ (CHECK_true _ _)).
  assert (malloc_ok (8 * rank) = true) as ->.
  { unfold malloc_ok, PTRDIFF_MAX. apply bool_decide_eq_true_2.
    rewrite Z.mod_small; lia. }
  rewrite (bind_Done _ _ _ _ _ (CHECK_true _ _)).
  unfold holds. rewrite bool_decide_eq_true_2 by lia.
  rewrite (bind_Done _ _ _ _ _ (undefined_unless_true _)).
  rewrite <-Hlen, firstn_all.
  unfold H5Screate_simple, H5S_MAX_RANK.
  rewrite length_fmap, bool_decide_eq_true_2 by done.
  rewrite (proj2 (Z.leb_le 0 _)), (proj2 (Z.leb_le _ 32)) by lia.
  cbn [andb].
  erewrite bind_Done; [|unfold H5Dcreate; rewrite Hh, Hd, Hn; reflexivity].
  cbn [sp_dims].
  set (w1 := World _ _ _ _ _ _ _).
  destruct (add_string_attr_new w1 (next_id w) path name (to_hsize <$> dims)
              description) as (w' & Ha & Hh' & Hn' & Hm' & Hma' & Hf' & Ho');
    [done|apply lookup_insert_eq| |].
  { unfold find_dataset, w1. simpl. rewrite lookup_alter_eq, Hd. simpl.
    apply lookup_insert_eq. }
  rewrite (bind_Done _ _ _ _ _ Ha). exists w'. split_and!; try done.
  intros path' name' Hne. rewrite Ho' by done.
  by apply (find_dataset_store_ne w).
Qed.

(** X4.  What [matrixio_create_dataset] does in a writable file in which
    the name is free: the new identifier is the next one, the dataset has
    the declared extents (as [hsize_t]), no element, and the description as
    its only attribute when the process is the master and the description
    is not empty; every other dataset is as before. *)
Theorem create_dataset_spec w fid path f name description (rank : Z)
    (dims : list Z) :
  handles w !! fid = Some (HFile path true) →
  disk w !! path = Some f → f !! name = None →
  0 < rank <= 32 → length dims = Z.to_nat rank → 0 <= next_id w →
  ∃ w',
    matrixio_create_dataset fid name description rank dims w
    = Done (next_id w) w'
    ∧ handles w' = <[next_id w := HData path name true]> (handles w)
    ∧ next_id w' = next_id w + 1 ∧ mem w' = mem w ∧ master w' = master w
    ∧ find_dataset w' path name
      = Some (Dataset (to_hsize <$> dims) ∅
                      (description_attr (master w) description))
    ∧ ∀ path' name', (path', name') ≠ (path, name) →
        find_dataset w' path' name' = find_dataset w path' name'.
Proof. apply create_dataset_new. Qed.

(** X5.  A name that is taken: the library refuses the creation, and
    [matrixio_create_dataset] reports it only through the check of
    [add_string_attr]: the master with a description aborts with the
    message of the attribute, any other call returns the invalid
    identifier -1 without an error. *)
Theorem create_dataset_taken w fid path f name ds0 description (rank : Z)
    (dims : list Z) :
  handles w !! fid = Some (HFile path true) →
  disk w !! path = Some f → f !! name = Some ds0 →
  0 < rank <= 32 → length dims = Z.to_nat rank →
  matrixio_create_dataset fid name description rank dims w
  = if decide (description_attr (master w) description = ∅)
    then Done invalid_id w
    else Fatal "error creating HDF attr" w.
Proof.
  intros Hh Hd Hn Hr Hlen. unfold matrixio_create_dataset.
  rewrite (proj2 (Z.ltb_lt 0 _)) by lia.
  rewrite (bind_Done _ _ _ _ _ (CHECK_true _ _)).
  assert (malloc_ok (8 * rank) = true) as ->.
  { unfold malloc_ok, PTRDIFF_MAX. apply bool_decide_eq_true_2.
    rewrite Z.mod_small; lia. }
  rewrite (bind_Done _ _ _ _ _ (CHECK_true _ _)).
  unfold holds. rewrite bool_decide_eq_true_2 by lia.
  rewrite (bind_Done _ _ _ _ _ (undefined_unless_true _)).
  rewrite <-Hlen, firstn_all.
  unfold H5Screate_simple, H5S_MAX_RANK.
  rewrite length_fmap, bool_decide_eq_true_2 by done.
  rewrite (proj2 (Z.leb_le 0 _)), (proj2 (Z.leb_le _ 32)) by lia.
  cbn [andb].
  erewrite bind_Done; [|unfold H5Dcreate; rewrite Hh, Hd, Hn; reflexivity].
  rewrite bind_unfold. unfold add_string_attr.
  erewrite (bind_Done mpi_is_master); [|reflexivity].
  unfold description_attr.
  destruct (master w); simpl; [|done].
  by destruct description as [[|a d]|].
Qed.

End Lifecycle.

(** ** Transfers *)

Section Transfers.
Context {real : Type} `{!RealType real}.
Implicit Types (w : world (real:=real)) (ds : dataset (real:=real)).

(** X6.  One call of [matrixio_write_real_data] with its hyperslab inside
    the extent and a positive stride changes the elements of its hyperslab
    and nothing else: the other elements, the extent and the attributes of
    the dataset, the other datasets, the memory and the identifiers are as
    before. *)
Theorem write_changes_its_hyperslab w data_id path name ds (ld st : list Z)
    s buf :
  handles w !! data_id = Some (HData path name true) →
  find_dataset w path name = Some ds →
  ds_dims ds ≠ [] → (length (ds_dims ds) ≤ 32)%nat →
  Forall (λ d, 0 <= d < 2 ^ 31) (ds_dims ds) →
  slab_within (ds_dims ds) st ld = true →
  1 <= s < 2 ^ 31 →
  ∃ w' ds',
    matrixio_write_real_data data_id ld st s buf w = Done () w'
    ∧ handles w' = handles w ∧ next_id w' = next_id w ∧ mem w' = mem w
    ∧ find_dataset w' path name = Some ds'
    ∧ ds_dims ds' = ds_dims ds ∧ ds_attrs ds' = ds_attrs ds
    ∧ (∀ x, ds_elems ds' !! x
            = if in_slab st ld x
              then Some (mem w (buf + s * offset ld (zip_with Z.sub x st)))
              else ds_elems ds !! x)
    ∧ ∀ path' name', (path', name') ≠ (path, name) →
        find_dataset w' path' name' = find_dataset w path' name'.
Proof.
  intros Hh Hf Hne Hr HD Hwithin Hs.
  destruct (slab_within_length _ _ _ Hwithin) as (Hst & Hld & _).
  eexists _, (Dataset _ _ _). split; [by apply write_real_data_spec|].
  split; [done|]. split; [done|]. split; [done|].
  split; [by eapply find_dataset_store|].
  split; [done|]. split; [done|]. split.
  - intros x. simpl. apply write_elems_lookup. congruence.
  - intros path' name' Hne'.
    by apply (find_dataset_store_ne w).
Qed.

Lemma run_writes_app data_id ws1 ws2 w :
  run_writes data_id (ws1 ++ ws2) w
  = (run_writes data_id ws1 ≫= λ _, run_writes data_id ws2) w.
Proof.
  revert w. induction ws1 as [|c ws1 IH]; intros w; [done|].
  simpl. rewrite !bind_unfold.
  destruct (matrixio_write_real_data _ _ _ _ _ w); [|done..].
  by rewrite IH.
Qed.

(** Overlapping writes are not detected: after the calls, the element of
    a position is the one contributed by the last call whose hyperslab
    holds it. *)
Lemma run_writes_last data_id path name (D : list Z) ws1 c ws2 w ds x :
  handles w !! data_id = Some (HData path name true) →
  find_dataset w path name = Some ds →
  ds_dims ds = D → D ≠ [] → (length D ≤ 32)%nat →
  Forall (λ d, 0 <= d < 2 ^ 31) D →
  Forall (call_ok D) (ws1 ++ c :: ws2) →
  slab_of c x = true → (∀ c', c' ∈ ws2 → slab_of c' x = false) →
  ∃ w' ds',
    run_writes data_id (ws1 ++ c :: ws2) w = Done () w'
    ∧ find_dataset w' path name = Some ds'
    ∧ ds_elems ds' !! x = Some (mem w (wc_slot c x)).
Proof.
  intros Hh Hf HD Hne Hr Hb Hws Hx Hlater.
  apply Forall_app in Hws as [Hws1 Hws2].
  apply Forall_cons_1 in Hws2 as [[Hc Hs] Hws2].
  destruct (run_writes_spec data_id path name D ws1 w ds)
    as (w1 & ds1 & Hrun1 & Hh1 & Hm1 & Hf1 & HD1 & _); [done..|].
  destruct (slab_within_length _ _ _ Hc) as (Hst & Hld & _).
  rewrite <-HD1 in Hc, Hne, Hr, Hb.
  rewrite <-Hh1 in Hh.
  pose proof (write_real_data_spec w1 data_id path name ds1 _ _ _ (wc_data c)
                Hh Hf1 Hne Hr Hb Hc Hs) as Hw.
  set (ds2 := Dataset _ _ _) in Hw. set (w2 := add_event _ _) in Hw.
  destruct (run_writes_spec data_id path name D ws2 w2 ds2)
    as (w3 & ds3 & Hrun3 & _ & _ & Hf3 & _ & Hout & _);
    [done|by eapply find_dataset_store|done|congruence|congruence|congruence|done|].
  exists w3, ds3. split_and!; [|done|].
  - rewrite run_writes_app, bind_unfold, Hrun1. simpl.
    by rewrite bind_unfold, Hw.
  - rewrite Hout by done. unfold ds2. simpl.
    rewrite write_elems_lookup by congruence.
    unfold slab_of in Hx. rewrite Hx, Hm1. done.
Qed.

Lemma slab_within_rows (D : list Z) n0 r0 :
  D ≠ [] → Forall (λ d, 0 <= d < 2 ^ 31) D →
  0 <= r0 → 0 <= n0 → r0 + n0 <= hd 0 D →
  slab_within D (rows_start r0 D) (rows_dims n0 D) = true.
Proof.
  intros Hne HD ???. destruct HD as [|d0 D Hd0 HD]; [done|].
  unfold rows_start, rows_dims. simpl in *.
  rewrite !andb_true_iff, !Z.leb_le. split; [lia|]. clear Hne.
  induction HD as [|d D Hd HD IH]; [done|]. simpl.
  rewrite !andb_true_iff, !Z.leb_le. split; [lia|done].
Qed.

Lemma rows_dims_bounded (D : list Z) n0 :
  Forall (λ d, 0 <= d < 2 ^ 31) D → 0 <= n0 < 2 ^ 31 →
  Forall (λ d, 0 <= d < 2 ^ 31) (rows_dims n0 D).
Proof. intros. by apply Forall_insert. Qed.

(** Lines 294-352 of [matrixio_read_real_data] for a dataset of the
    expected shape: the checks pass, and the transfer is asked for with the
    memory space of the block of [n0] rows, its last axis multiplied by
    [s], and the rows from [r0] of the file. *)
Lemma read_rows_transfer w fid path rw name ds (D : list Z) n0 r0 s out :
  handles w !! fid = Some (HFile path rw) →
  find_dataset w path name = Some ds →
  ds_dims ds = D → D ≠ [] → (length D ≤ 32)%nat →
  Forall (λ d, 0 <= d < 2 ^ 31) D →
  0 <= n0 < 2 ^ 31 → 1 <= s < 2 ^ 31 →
  matrixio_read_real_data fid name (Z.of_nat (length D)) D n0 r0 s out w
  = (H5Dread (next_id w)
       (Some (Dataspace
                (set_last (List.last (rows_dims n0 D) 0 * s) (rows_dims n0 D))
                (SelHyper (replicate (length D) 0)
                   (Some (set_last s (replicate (length D) 1)))
                   (rows_dims n0 D))))
       (Some (Dataspace D (SelHyper (rows_start r0 D) None (rows_dims n0 D))))
       out
     ≫= λ _, H5Dclose (next_id w))
      (World (disk w) (<[next_id w := HData path name rw]> (handles w))
         (next_id w + 1) (mem w) (master w) (EvOpen (next_id w) :: log w)
         (creatable w)).
Proof.
  intros Hh Hf HD Hne Hr Hb Hn0 Hs.
  assert (Forall (λ d, 0 <= d < 2 ^ 31) (rows_dims n0 D)) as Hb'
    by (by apply rows_dims_bounded).
  assert (length (rows_dims n0 D) = length D) as Hlen' by apply length_insert.
  assert (rows_dims n0 D ≠ []) as Hne' by (by destruct D).
  assert (0 <= List.last (rows_dims n0 D) 0 < 2 ^ 31) as Hlast
    by (by apply Forall_last).
  unfold matrixio_read_real_data.
  rewrite (proj2 (Z.ltb_lt 0 _)) by (destruct D; [done|simpl; lia]).
  rewrite (bind_Done _ _ _ _ _ (CHECK_true _ _)).
  erewrite bind_Done; [|unfold H5Dopen; rewrite Hh, Hf; reflexivity].
  set (w1 := World _ _ _ _ _ _ _).
  assert (handles w1 !! next_id w = Some (HData path name rw)) as Hh1
    by apply lookup_insert_eq.
  rewrite (bind_Done _ _ _ _ _ (H5Dget_space_data _ _ _ _ _ Hh1)).
  change (find_dataset w1 path name) with (find_dataset w path name).
  rewrite Hf. simpl fmap. rewrite HD.
  simpl H5Sget_simple_extent_ndims. simpl H5Sget_simple_extent_dims.
  rewrite Z.eqb_refl, (bind_Done _ _ _ _ _ (CHECK_true _ _)).
  rewrite malloc_ok_rank, (bind_Done _ _ _ _ _ (CHECK_true _ _)) by done.
  erewrite bind_Done; [|apply check_dims_ok; [done|done|lia]].
  rewrite Nat2Z.id, firstn_all, to_hsize_list by done.
  rewrite (to_hsize_id n0) by lia.
  change (arr_set D 0 n0) with (rows_dims n0 D).
  rewrite (arr_get_last (rows_dims n0 D)), hsize_mul_small by (done || lia).
  rewrite (to_hsize_id s) by lia.
  rewrite (arr_set_last (rows_dims n0 D)) by done.
  assert (arr_set (replicate (length D) 0) 0 0 = replicate (length D) 0) as Hz
    by (by destruct D).
  rewrite !Hz.
  change (arr_set (replicate (length D) 0) 0 r0) with (rows_start r0 D).
  assert (arr_set (rows_dims n0 D) 0 n0 = rows_dims n0 D) as Hcount
    by (by destruct D).
  rewrite !Hcount.
  rewrite (arr_set_last (replicate _ _)) by apply length_replicate.
  unfold H5Screate_simple, H5S_MAX_RANK.
  rewrite length_set_last, Hlen', Nat2Z.id, bool_decide_eq_true_2 by done.
  rewrite (proj2 (Z.leb_le 0 _)), (proj2 (Z.leb_le _ 32)) by lia.
  unfold H5Sselect_hyperslab. cbn [andb sp_dims].
  assert (length (rows_start r0 D) = length D) as Hls
    by (unfold rows_start; by rewrite length_insert, length_replicate).
  unfold rows_start at 1. fold (rows_start r0 D).
  rewrite ?length_set_last, ?length_replicate, ?Hls, ?Hlen'.
  rewrite !bool_decide_eq_true_2 by done.
  rewrite nonzero_strides by lia. cbn [andb]. done.
Qed.

(** A read of [n0] rows from row [r0] with a positive stride [s]: the
    call returns, the file is as before, the identifier it opened is
    closed again, and the memory is the old one with each selected element
    stored at [s] times its row-major offset in the block read. *)
Lemma read_rows_spec w fid path rw name ds (D : list Z) n0 r0 s out :
  handles w !! fid = Some (HFile path rw) →
  find_dataset w path name = Some ds →
  ds_dims ds = D → D ≠ [] → (length D ≤ 32)%nat →
  Forall (λ d, 0 <= d < 2 ^ 31) D →
  0 <= r0 → 0 <= n0 → r0 + n0 <= hd 0 D →
  1 <= s < 2 ^ 31 →
  ∃ w',
    matrixio_read_real_data fid name (Z.of_nat (length D)) D n0 r0 s out w
    = Done () w'
    ∧ disk w' = disk w
    ∧ handles w' = delete (next_id w) (handles w)
    ∧ mem w'
      = foldl (λ m j, <[out + s * offset (rows_dims n0 D) j
                        := ds_elem ds (place (rows_start r0 D)
                                         (replicate (length D) 1) j)]> m)
              (mem w) (box (rows_dims n0 D)).
Proof.
  intros Hh Hf HD Hne Hr Hb Hr0 Hn0 Hrows Hs.
  pose proof (slab_within_rows D n0 r0 Hne Hb Hr0 Hn0 Hrows) as Hwithin.
  assert (0 <= hd 0 D < 2 ^ 31) as Hhd.
  { destruct Hb; [done|]. simpl. lia. }
  assert (length (rows_dims n0 D) = length D) as Hlen' by apply length_insert.
  assert (Forall (λ d, 0 <= d < 2 ^ 31) (rows_dims n0 D)) as Hb'
    by (apply rows_dims_bounded; [done|lia]).
  assert (rows_dims n0 D ≠ []) as Hne' by (by destruct D).
  rewrite (read_rows_transfer w fid path rw name ds) by (done || lia).
  set (w1 := World _ _ _ _ _ _ _).
  assert (handles w1 !! next_id w = Some (HData path name rw)) as Hh1
    by apply lookup_insert_eq.
  erewrite bind_Done.
  2:{ unfold H5Dread. rewrite Hh1.
      change (find_dataset w1 path name) with (find_dataset w path name).
      rewrite Hf, HD. unfold sel_valid. cbn [sp_dims].
      rewrite (file_coords D (rows_dims n0 D))
        by (done || unfold rows_start;
            by rewrite length_insert, length_replicate).
      unfold sel_coords. cbn [sp_dims sp_sel default from_option id].
      rewrite <-Hlen'.
      rewrite !slab_coords_place
        by (by rewrite ?length_set_last, length_replicate).
      rewrite !length_fmap, !bool_decide_eq_true_2 by done.
      rewrite !forallb_elem_of; cbn [andb].
      - rewrite zip_fmap_diag, foldl_fmap. cbn [fst snd]. reflexivity.
      - intros c (j & -> & Hj)%list_elem_of_fmap.
        eapply in_extent_place; [done|]. by apply elem_of_box.
      - intros c (j & -> & Hj)%list_elem_of_fmap.
        apply in_extent_strided; [lia|]. by apply elem_of_box. }
  unfold H5Dclose, close_handle. cbn [handles add_event set_mem].
  rewrite Hh1. cbn [is_data]. eexists. split_and!; [done|done| |].
  { cbn [handles add_event set_handles set_mem]. unfold w1. simpl.
    apply delete_insert_eq. }
  cbn [mem add_event set_handles set_mem]. rewrite <-Hlen'.
  apply foldl_ext_in. intros m j Hj. do 2 f_equal.
  unfold offset. rewrite offset_from_strided; [done| |done].
  by apply box_length.
Qed.

(** The buffer after a read of rows: the slot of a selected position holds
    its element, every other address is as before. *)
Lemma read_mem_lookup (m : Z → real) (val : list Z → real) (D : list Z)
    n0 r0 s out :
  1 <= s →
  let m' := foldl (λ m j, <[out + s * offset (rows_dims n0 D) j
                            := val (place (rows_start r0 D)
                                      (replicate (length D) 1) j)]> m)
                  m (box (rows_dims n0 D)) in
  (∀ x, in_slab (rows_start r0 D) (rows_dims n0 D) x = true →
        m' (read_slot D n0 r0 s out x) = val x)
  ∧ (∀ a, (∀ x, in_slab (rows_start r0 D) (rows_dims n0 D) x = true →
               read_slot D n0 r0 s out x ≠ a) → m' a = m a).
Proof.
  intros Hs m'.
  assert (length (rows_dims n0 D) = length D) as Hlen' by apply length_insert.
  assert (length (rows_start r0 D) = length (rows_dims n0 D)) as Hls
    by (unfold rows_start; by rewrite length_insert, length_replicate).
  split.
  - intros x Hx. destruct (place_sub _ _ _ Hx) as [Hp Hj]. rewrite Hlen' in Hp.
    apply (foldl_fn_insert_in (λ j, out + s * offset (rows_dims n0 D) j)
             (λ j, val (place (rows_start r0 D) (replicate (length D) 1) j))).
    + exists (zip_with Z.sub x (rows_start r0 D)).
      split; [by apply elem_of_box|done].
    + intros j Hj'%elem_of_box Hjx. unfold read_slot in Hjx.
      rewrite (offset_inj (rows_dims n0 D) j (zip_with Z.sub x (rows_start r0 D)));
        [by rewrite Hp|done|done|nia].
  - intros a Ha.
    apply (foldl_fn_insert_notin (λ j, out + s * offset (rows_dims n0 D) j)).
    intros j Hj Heq.
    apply (Ha (place (rows_start r0 D) (replicate (length D) 1) j)).
    + rewrite <-Hlen'. apply in_slab_place; [done|by apply elem_of_box].
    + rewrite <-Heq. unfold read_slot. do 3 f_equal. rewrite <-Hlen'.
      symmetry. eapply place_determines; [done|by apply box_length|done].
Qed.

(** X8.  A read of a block of rows with a stride.  For a dataset of the
    expected shape [D], [matrixio_read_real_data] with [n0] rows from row
    [r0] inside the dataset and a positive stride [s] returns; the element
    at each position [x] of these rows is stored at [s] times the row-major
    offset of [x] in the block; every other address of the memory, the
    slots between two strided elements among them, is as before; the file
    is unchanged, and the identifier of the dataset that the call opened
    is closed again. *)
Theorem read_rows_strided w fid path rw name ds (D : list Z) n0 r0 s out :
  handles w !! fid = Some (HFile path rw) →
  find_dataset w path name = Some ds →
  ds_dims ds = D → D ≠ [] → (length D ≤ 32)%nat →
  Forall (λ d, 0 <= d < 2 ^ 31) D →
  0 <= r0 → 0 <= n0 → r0 + n0 <= hd 0 D →
  1 <= s < 2 ^ 31 →
  ∃ w',
    matrixio_read_real_data fid name (Z.of_nat (length D)) D n0 r0 s out w
    = Done () w'
    ∧ disk w' = disk w
    ∧ handles w' = delete (next_id w) (handles w)
    ∧ (∀ x, in_slab (rows_start r0 D) (rows_dims n0 D) x = true →
            mem w' (read_slot D n0 r0 s out x) = ds_elem ds x)
    ∧ (∀ a, (∀ x, in_slab (rows_start r0 D) (rows_dims n0 D) x = true →
                 read_slot D n0 r0 s out x ≠ a) → mem w' a = mem w a).
Proof.
  intros Hh Hf HD Hne Hr Hb Hr0 Hn0 Hrows Hs.
  destruct (read_rows_spec w fid path rw name ds D n0 r0 s out)
    as (w' & Hread & Hdisk & Hhandles & Hmem); [done..|].
  destruct (read_mem_lookup (mem w) (ds_elem ds) D n0 r0 s out) as [Hin Hnot];
    [lia|].
  exists w'. rewrite Hmem. by split_and!.
Qed.

(** X9.  Writes with strides of at least 1, then a read of rows.  After
    calls of [matrixio_write_real_data] that each have a stride [>= 1] and
    a hyperslab inside the dataset (the hyperslabs may overlap and need not
    cover it), a read of rows [r0 .. r0+n0-1] inside the dataset with a
    stride [s >= 1] returns, and the slot of a position [x] of these rows
    holds the buffer element of the last call whose hyperslab holds [x],
    or the element that the dataset had before if no call holds it.  (A
    call with the stride 0 writes nothing, X7, and is not among the calls
    meant here.) *)
Theorem read_after_writes w data_id fid path rw name ds (D : list Z) ws
    n0 r0 s out :
  handles w !! data_id = Some (HData path name true) →
  handles w !! fid = Some (HFile path rw) →
  find_dataset w path name = Some ds →
  ds_dims ds = D → D ≠ [] → (length D ≤ 32)%nat →
  Forall (λ d, 0 <= d < 2 ^ 31) D →
  Forall (call_ok D) ws →
  0 <= r0 → 0 <= n0 → r0 + n0 <= hd 0 D →
  1 <= s < 2 ^ 31 →
  ∃ w1 w2,
    run_writes data_id ws w = Done () w1
    ∧ matrixio_read_real_data fid name (Z.of_nat (length D)) D n0 r0 s out w1
      = Done () w2
    ∧ (∀ x ws1 c ws2,
         in_slab (rows_start r0 D) (rows_dims n0 D) x = true →
         ws = ws1 ++ c :: ws2 → slab_of c x = true →
         (∀ c', c' ∈ ws2 → slab_of c' x = false) →
         mem w2 (read_slot D n0 r0 s out x) = mem w (wc_slot c x))
    ∧ (∀ x,
         in_slab (rows_start r0 D) (rows_dims n0 D) x = true →
         (∀ c, c ∈ ws → slab_of c x = false) →
         mem w2 (read_slot D n0 r0 s out x) = ds_elem ds x).
Proof.
  intros Hd Hh Hf HD Hne Hr Hb Hws Hr0 Hn0 Hrows Hs.
  destruct (run_writes_spec data_id path name D ws w ds)
    as (w1 & ds1 & Hrun & Hh1 & Hm1 & Hf1 & HD1 & Hout & _); [done..|].
  rewrite <-Hh1 in Hh.
  destruct (read_rows_spec w1 fid path rw name ds1 D n0 r0 s out)
    as (w2 & Hread & _ & _ & Hmem); [done..|].
  exists w1, w2. split; [done|]. split; [done|].
  destruct (read_mem_lookup (mem w1) (ds_elem ds1) D n0 r0 s out) as [Hin _];
    [lia|].
  split.
  - intros x ws1 c ws2 Hx -> Hc Hlater.
    destruct (run_writes_last data_id path name D ws1 c ws2 w ds x)
      as (w1' & ds1' & Hrun' & Hf1' & Hel); [done..|].
    rewrite Hrun in Hrun'. simplify_eq.
    rewrite Hmem, Hin by done. unfold ds_elem. by rewrite Hel.
  - intros x Hx Hnone. rewrite Hmem, Hin by done.
    unfold ds_elem. by rewrite Hout.
Qed.

(** X10.  Rows beyond the dataset are not reported.  When the rows asked for
    end after the last row of the dataset, [matrixio_read_real_data]
    returns normally: the transfer is refused by the library, whose status
    the code ignores, and the caller's buffer is left as it was, with no
    error raised. *)
Theorem read_rows_out_of_range w fid path rw name ds (D : list Z) n0 r0 s
    out :
  handles w !! fid = Some (HFile path rw) →
  find_dataset w path name = Some ds →
  ds_dims ds = D → D ≠ [] → (length D ≤ 32)%nat →
  Forall (λ d, 0 <= d < 2 ^ 31) D →
  0 <= n0 < 2 ^ 31 → hd 0 D < r0 + n0 →
  1 <= s < 2 ^ 31 →
  ∃ w',
    matrixio_read_real_data fid name (Z.of_nat (length D)) D n0 r0 s out w
    = Done () w'
    ∧ mem w' = mem w ∧ disk w' = disk w.
Proof.
  intros Hh Hf HD Hne Hr Hb Hn0 Hout Hs.
  assert (length (rows_dims n0 D) = length D) as Hlen' by apply length_insert.
  assert (length (rows_start r0 D) = length D) as Hls
    by (unfold rows_start; by rewrite length_insert, length_replicate).
  rewrite (read_rows_transfer w fid path rw name ds) by done.
  set (w1 := World _ _ _ _ _ _ _).
  assert (handles w1 !! next_id w = Some (HData path name rw)) as Hh1
    by apply lookup_insert_eq.
  assert (∃ z w2, H5Dread (next_id w)
       (Some (Dataspace
                (set_last (List.last (rows_dims n0 D) 0 * s) (rows_dims n0 D))
                (SelHyper (replicate (length D) 0)
                   (Some (set_last s (replicate (length D) 1)))
                   (rows_dims n0 D))))
       (Some (Dataspace D (SelHyper (rows_start r0 D) None (rows_dims n0 D))))
       out w1 = Done z w2
     ∧ mem w2 = mem w ∧ disk w2 = disk w ∧ handles w2 = handles w1)
    as (z & w2 & Hrd & Hm2 & Hd2 & Hh2).
  { unfold H5Dread. rewrite Hh1.
    change (find_dataset w1 path name) with (find_dataset w path name).
    rewrite Hf, HD.
    destruct (_ && _) eqn:Hcond; [|by eexists _, _].
    rewrite !andb_true_iff in Hcond. destruct Hcond as [[[_ _] Hvalid] _].
    unfold sel_valid in Hvalid. cbn [sp_dims] in Hvalid.
    assert (sel_coords
              (Dataspace D (SelHyper (rows_start r0 D) None (rows_dims n0 D)))
            = []) as Hempty.
    { unfold sel_coords. cbn [sp_dims sp_sel default from_option id].
      rewrite <-(to_hsize_list (rows_dims n0 D))
        by (by apply rows_dims_bounded).
      apply out_of_range_coords; [done|done| | |].
      - eapply Forall_impl; [|apply rows_dims_bounded; [exact Hb|exact Hn0]].
        intros d Hd. unfold is_int. simpl in Hd. lia.
      - exists 0%nat, (hd 0 D), r0, n0. destruct D; [done|]. done.
      - intros x Hx. rewrite forallb_forall in Hvalid. apply Hvalid.
        apply list_elem_of_In. unfold sel_coords.
        cbn [sp_dims sp_sel default from_option id].
        by rewrite to_hsize_list in Hx by (by apply rows_dims_bounded). }
    rewrite Hempty, zip_with_nil_r. by eexists _, _. }
  rewrite (bind_Done _ _ _ _ _ Hrd).
  unfold H5Dclose, close_handle. rewrite Hh2, Hh1. cbn [is_data].
  by eexists.
Qed.

(** X11.  A dataset that the file does not hold is reported as a mismatch
    of ranks: the identifier returned by [H5Dopen] is not checked, and the
    first check that fails is the comparison of the expected rank with the
    rank of no dataspace. *)
Theorem read_missing_dataset w fid path rw name rank dims n0 r0 s out :
  handles w !! fid = Some (HFile path rw) →
  find_dataset w path name = None →
  handles w !! invalid_id = None →
  0 < rank →
  matrixio_read_real_data fid name rank dims n0 r0 s out w
  = Fatal MSG_RANK w.
Proof.
  intros Hh Hf Hinv Hrank. unfold matrixio_read_real_data.
  rewrite (proj2 (Z.ltb_lt 0 _)) by done.
  rewrite (bind_Done _ _ _ _ _ (CHECK_true _ _)).
  erewrite bind_Done; [|unfold H5Dopen; rewrite Hh, Hf; reflexivity].
  erewrite bind_Done; [|unfold H5Dget_space; rewrite Hinv; reflexivity].
  simpl H5Sget_simple_extent_ndims.
  rewrite (proj2 (Z.eqb_neq rank (-1))) by lia.
  by rewrite bind_unfold.
Qed.

Lemma in_extent_positive (D x : list Z) :
  in_extent D x = true → Forall (λ d, 0 < d) D.
Proof.
  revert x. induction D as [|d D IH]; intros [|a x]; simpl; try done.
  rewrite !andb_true_iff, Z.leb_le, Z.ltb_lt. intros [[??] ?].
  constructor; [lia|by eapply IH].
Qed.

Lemma last_set_last v (l : list Z) : l ≠ [] → List.last (set_last v l) 0 = v.
Proof.
  induction l as [|x [|y l] IH]; intros ?; [done..|].
  rewrite set_last_cons_ne by done.
  destruct (set_last v (y :: l)) eqn:He; [by apply set_last_ne in He|].
  by apply IH.
Qed.

(** A selection in an extent with no slot on its last axis is valid only
    if it selects nothing. *)
Lemma sel_valid_empty_extent (sp : dataspace) :
  sel_valid sp = true → sp_dims sp ≠ [] → List.last (sp_dims sp) 0 = 0 →
  sel_coords sp = [].
Proof.
  unfold sel_valid. intros Hv Hne Hlast.
  destruct (sel_coords sp) as [|x l]; [done|]. simpl in Hv.
  apply andb_true_iff in Hv as [Hx%in_extent_positive _].
  pose proof (Forall_last _ _ Hx Hne) as Hpos. simpl in Hpos. lia.
Qed.

(** X7.  A stride of 0 is not reported.  With [stride = 0] the memory
    space of lines 259-263 has no slot on its last axis; whatever the block
    is, [matrixio_write_real_data] returns normally and no element of any
    dataset has changed. *)
Theorem write_stride_zero_silent w data_id path name rw ds (ld st : list Z)
    buf :
  handles w !! data_id = Some (HData path name rw) →
  find_dataset w path name = Some ds →
  ds_dims ds ≠ [] → (length (ds_dims ds) ≤ 32)%nat →
  length st = length (ds_dims ds) → length ld = length (ds_dims ds) →
  ∃ w',
    matrixio_write_real_data data_id ld st 0 buf w = Done () w'
    ∧ mem w' = mem w
    ∧ ∀ path' name', find_dataset w' path' name' = find_dataset w path' name'.
Proof.
  intros Hh Hf Hne Hr Hst Hld.
  unfold matrixio_write_real_data.
  rewrite (bind_Done _ _ _ _ _ (H5Dget_space_data _ _ _ _ _ Hh)), Hf.
  simpl H5Sget_simple_extent_ndims. simpl fmap.
  rewrite malloc_ok_rank, (bind_Done _ _ _ _ _ (CHECK_true _ _)) by done.
  rewrite (proj2 (Z.ltb_lt 0 _)) by (destruct (ds_dims ds); [done|simpl; lia]).
  rewrite (bind_Done _ _ _ _ _ (undefined_unless_true _)).
  replace (holds (Z.of_nat (length (ds_dims ds))) ld) with true
    by (rewrite <-Hld; symmetry; apply holds_length).
  replace (holds (Z.of_nat (length (ds_dims ds))) st) with true
    by (rewrite <-Hst; symmetry; apply holds_length).
  rewrite (bind_Done _ _ _ _ _ (undefined_unless_true _)).
  match goal with
  | |- context [H5Dwrite ?a ?b ?c ?d] =>
      destruct (H5Dwrite a b c d w) as [z w'| |] eqn:Hw
  end.
  2,3: unfold H5Dwrite in Hw; repeat case_match; done.
  rewrite (bind_Done _ _ _ _ _ Hw). exists w'. split; [done|].
  unfold H5Dwrite in Hw. rewrite Hh, Hf in Hw.
  destruct rw; [|by simplify_eq].
  destruct (write_mem_space _ _ _) as [ms|] eqn:Hms; [|by simplify_eq].
  destruct (write_file_space _ _ _ _) as [fs|]; [|by simplify_eq].
  destruct (_ && _) eqn:Hcond in Hw; [|by simplify_eq].
  rewrite !andb_true_iff in Hcond. destruct Hcond as [[[_ Hvalid] _] _].
  assert (sp_dims ms = set_last 0 (to_hsize <$> ld)) as Hdims.
  { unfold write_mem_space, H5Screate_simple, H5Sselect_hyperslab in Hms.
    rewrite Nat2Z.id, <-Hld, firstn_all in Hms.
    change (to_hsize 0) with 0 in Hms.
    unfold hsize_mul in Hms. rewrite Z.mul_0_r in Hms.
    change (0 mod 2 ^ 64) with 0 in Hms.
    rewrite (arr_set_last (to_hsize <$> ld)) in Hms by apply length_fmap.
    destruct (_ && _) in Hms; [|done].
    cbn [sp_dims] in Hms. by destruct (_ && _) in Hms; simplify_eq. }
  assert (to_hsize <$> ld ≠ []) as Hldne
    by (destruct ld; [by destruct (ds_dims ds)|done]).
  assert (sel_coords ms = []) as Hempty.
  { apply sel_valid_empty_extent; [done|..]; rewrite Hdims.
    - by apply set_last_ne.
    - by apply last_set_last. }
  rewrite Hempty in Hw. simpl in Hw. simplify_eq.
  split; [done|]. intros path' name'.
  change (find_dataset (add_event ?e ?w0) path' name')
    with (find_dataset w0 path' name').
  by apply store_dataset_same.
Qed.

End Transfers.

(** ** The G-vector lists of [BtH_overlap] *)

Lemma bind_Done_inv `{!RealType real} {A B} (m : M (real:=real) A)
    (f : A → M B) w b w' :
  (m ≫= f) w = Done b w' → ∃ a w1, m w = Done a w1 ∧ f a w1 = Done b w'.
Proof. rewrite bind_unfold. destruct (m w); naive_solver. Qed.

Lemma CHECK_Done_inv `{!RealType real} cond msg (w w' : world (real:=real)) :
  CHECK cond msg w = Done () w' → cond = true ∧ w' = w.
Proof. unfold CHECK. destruct cond; naive_solver. Qed.

Lemma undefined_unless_Done_inv `{!RealType real} cond
    (w w' : world (real:=real)) :
  undefined_unless cond w = Done () w' → cond = true ∧ w' = w.
Proof. unfold undefined_unless. destruct cond; naive_solver. Qed.

Lemma axis_ok_cases n lo hi :
  axis_ok n lo hi →
  (0 <= n ∧ - (n / 2) < lo ∧ hi <= n / 2 ∧ lo <= hi) ∨ (n = 1 ∧ lo = 0 ∧ hi = 0).
Proof.
  intros [Hle [[Hlo Hhi]|(-> & -> & ?)]]; [|right; lia].
  left. destruct (decide (0 <= n)) as [Hn|Hn].
  - rewrite Z.quot_opp_l, Z.quot_div_nonneg in Hlo by lia.
    rewrite Z.quot_div_nonneg in Hhi by lia. lia.
  - assert (Z.quot n 2 <= 0) by (apply Z.quot_le_upper_bound; lia).
    assert (0 <= Z.quot (- n) 2) by (apply Z.quot_pos; lia).
    lia.
Qed.

Lemma G_pos_range n lo hi i :
  axis_ok n lo hi → lo <= i <= hi → 0 <= G_pos n i < n.
Proof.
  intros [(? & ? & ? & ?)|(-> & -> & ->)]%axis_ok_cases Hi; unfold G_pos;
    destruct (Z.leb_spec i 0); Z.div_mod_to_equations; lia.
Qed.

Lemma G_pos_inj n lo hi i i' :
  axis_ok n lo hi → lo <= i <= hi → lo <= i' <= hi →
  G_pos n i = G_pos n i' → i = i'.
Proof.
  intros [(? & ? & ? & ?)|(-> & -> & ->)]%axis_ok_cases Hi Hi'; [|lia].
  unfold G_pos. destruct (Z.leb_spec i 0), (Z.leb_spec i' 0);
    Z.div_mod_to_equations; lia.
Qed.

Lemma CHECK_bind `{!RealType real} {B} cond msg (f : unit → M (real:=real) B) w :
  (CHECK cond msg ≫= f) w = if cond then f () w else Fatal msg w.
Proof. by destruct cond. Qed.

Lemma undefined_unless_bind `{!RealType real} {B} cond
    (f : unit → M (real:=real) B) w :
  (undefined_unless cond ≫= f) w = if cond then f () w else Undefined.
Proof. by destruct cond. Qed.

(** *** Tests of array bounds *)

Section Guards.
Context {real : Type} `{!RealType real}.
Implicit Types (w : world (real:=real)) (m : M (real:=real) unit).

Lemma quiet_undefined_unless cond : quiet (undefined_unless cond).
Proof. intros w. unfold undefined_unless. destruct cond; auto. Qed.

Lemma quiet_in_bounds k size : quiet (in_bounds k size).
Proof. apply quiet_undefined_unless. Qed.

Lemma quiet_ret : quiet (mret ()).
Proof. intros w. by left. Qed.

Lemma quiet_bind m1 m2 : quiet m1 → quiet m2 → quiet (m1 ≫= λ _, m2).
Proof.
  intros H1 H2 w. rewrite bind_unfold.
  destruct (H1 w) as [->| ->]; [apply H2|by right].
Qed.

Lemma quiet_for_each {A} (l : list A) (body : A → M (real:=real) unit) :
  (∀ a, quiet (body a)) → quiet (for_each l body).
Proof.
  intros Hb. induction l as [|a l IH]; [apply quiet_ret|].
  simpl. by apply quiet_bind.
Qed.

Lemma quiet_BtH_blocks fuel (g : globals) L final_band ib :
  quiet (real:=real) (BtH_blocks fuel g L final_band ib).
Proof.
  revert ib. induction fuel as [|fuel IH]; intros ib; cbn [BtH_blocks];
    destruct (ib <? final_band); try apply quiet_ret.
  - intros w. by right.
  - apply quiet_bind; [apply quiet_undefined_unless|].
    apply quiet_bind; [|apply IH].
    apply quiet_for_each. intros pos. apply quiet_for_each. intros ibb.
    apply quiet_for_each. intros c.
    apply quiet_bind; apply quiet_in_bounds.
Qed.

Lemma quiet_Done m w w' : quiet m → m w = Done () w' → w' = w.
Proof. intros Hq Hm. destruct (Hq w) as [Hw|Hw]; congruence. Qed.

Lemma quiet_not_Fatal m w msg w' : quiet m → m w ≠ Fatal msg w'.
Proof. intros Hq Hm. destruct (Hq w) as [Hw|Hw]; congruence. Qed.

Lemma quiet_bind_cases {B} m (f : unit → M (real:=real) B) w :
  quiet m → (m ≫= f) w = f () w ∨ (m ≫= f) w = Undefined.
Proof.
  intros Hq. rewrite bind_unfold. destruct (Hq w) as [->| ->]; auto.
Qed.

Lemma in_bounds_ok k size w : 0 <= k < size → in_bounds k size w = Done () w.
Proof.
  intros. unfold in_bounds.
  by rewrite (proj2 (Z.leb_le 0 k)), (proj2 (Z.ltb_lt k size)) by lia.
Qed.

Lemma for_each_ok {A} (l : list A) (body : A → M (real:=real) unit) w :
  (∀ a, a ∈ l → body a w = Done () w) → for_each l body w = Done () w.
Proof.
  induction l as [|a l IH]; intros Hb; [done|]. simpl.
  rewrite (bind_Done _ _ _ _ _ (Hb a (list_elem_of_here _ _))).
  apply IH. intros b Hb'. apply Hb. by apply list_elem_of_further.
Qed.

(** The blocks of [BtH_overlap] stay inside [H.data] and [Hblock.data]
    when the rows are rows of the grid, the bands start at a band [>= 0]
    and end at one that [H] has, and the matrices have room. *)
Lemma BtH_blocks_ok (g : globals) L (rows final_band : Z) fuel ib w :
  (∀ pos c, pos ∈ L → 0 <= c < 2 → 0 <= H_row (mdata g) pos c < rows) →
  final_band <= H_p g → rows * H_p g <= H_size g →
  1 <= Hblock_alloc_p g → rows * Hblock_alloc_p g <= Hblock_size g →
  0 <= ib → final_band - ib <= Z.of_nat fuel →
  BtH_blocks fuel g L final_band ib w = Done () w.
Proof.
  intros Hrows Hfb HH Hap HHb. revert ib.
  induction fuel as [|fuel IH]; intros ib Hib Hfuel; cbn [BtH_blocks];
    destruct (Z.ltb_spec ib final_band) as [Hlt|Hge]; try done;
    [exfalso; lia|].
  set (p := if final_band <? ib + Hblock_alloc_p g then _ else _).
  assert (1 <= p <= Hblock_alloc_p g ∧ ib + p <= final_band) as Hp.
  { unfold p. destruct (Z.ltb_spec final_band (ib + Hblock_alloc_p g)); lia. }
  rewrite (proj2 (Z.leb_le 0 ib)), (proj2 (Z.leb_le (ib + p) (H_p g))) by lia.
  rewrite (bind_Done _ _ _ _ _ (undefined_unless_true _)).
  erewrite bind_Done; [apply IH; lia|].
  apply for_each_ok. intros pos Hpos.
  apply for_each_ok. intros ibb Hibb%elem_of_seqZ.
  apply for_each_ok. intros c Hc.
  assert (0 <= c < 2) as Hc2.
  { apply elem_of_cons in Hc as [->|Hc]; [lia|].
    apply list_elem_of_singleton in Hc as ->. lia. }
  pose proof (Hrows pos c Hpos Hc2) as Hr.
  assert (H_row (mdata g) pos c * H_p g <= (rows - 1) * H_p g)
    by (apply Z.mul_le_mono_nonneg_r; lia).
  assert (H_row (mdata g) pos c * p <= (rows - 1) * p)
    by (apply Z.mul_le_mono_nonneg_r; lia).
  assert (rows * p <= rows * Hblock_alloc_p g)
    by (apply Z.mul_le_mono_nonneg_l; lia).
  assert (0 <= H_row (mdata g) pos c * H_p g) by (apply Z.mul_nonneg_nonneg; lia).
  assert (0 <= H_row (mdata g) pos c * p) by (apply Z.mul_nonneg_nonneg; lia).
  erewrite bind_Done; [|apply in_bounds_ok; lia].
  apply in_bounds_ok. lia.
Qed.

End Guards.

(** The checks of [BtH_overlap] change nothing, and the call returns only
    when all of them pass. *)
Lemma BtH_overlap_Done_inv `{!RealType real} (g : globals)
    (band_min n_bands iG1_min iG2_min iG3_min iG1_max iG2_max iG3_max : Z)
    (w w' : world (real:=real)) :
  BtH_overlap g band_min n_bands iG1_min iG2_min iG3_min
              iG1_max iG2_max iG3_max w = Done () w' →
  w' = w
  ∧ axis_ok (md_nx (mdata g)) iG1_min iG1_max
  ∧ axis_ok (md_ny (mdata g)) iG2_min iG2_max
  ∧ axis_ok (md_nz (mdata g)) iG3_min iG3_max
  ∧ band_min + n_bands <= num_bands g.
Proof.
  intros Hrun. unfold BtH_overlap in Hrun.
  apply bind_Done_inv in Hrun as ([] & w1 & [_ ->]%undefined_unless_Done_inv & Hrun).
  do 3 apply bind_Done_inv in Hrun as ([] & ? & [_ ->]%CHECK_Done_inv & Hrun).
  apply bind_Done_inv in Hrun as ([] & ? & [Hinc ->]%CHECK_Done_inv & Hrun).
  apply bind_Done_inv in Hrun as ([] & ? & [H1 ->]%CHECK_Done_inv & Hrun).
  apply bind_Done_inv in Hrun as ([] & ? & [H2 ->]%CHECK_Done_inv & Hrun).
  apply bind_Done_inv in Hrun as ([] & ? & [H3 ->]%CHECK_Done_inv & Hrun).
  apply bind_Done_inv in Hrun as ([] & ? & [Hb ->]%CHECK_Done_inv & Hrun).
  apply quiet_Done in Hrun as ->; [|apply quiet_BtH_blocks].
  rewrite !andb_true_iff, !Z.leb_le in Hinc. destruct Hinc as [[Hi1 Hi2] Hi3].
  apply Z.leb_le in Hb.
  rewrite orb_true_iff, !andb_true_iff, Z.ltb_lt, Z.leb_le, !Z.eqb_eq in H1, H2, H3.
  unfold axis_ok. tauto.
Qed.

(** A failing check of [BtH_overlap] aborts in the world of the call. *)
Lemma BtH_overlap_Fatal_inv `{!RealType real} (g : globals)
    (band_min n_bands iG1_min iG2_min iG3_min iG1_max iG2_max iG3_max : Z)
    (w w' : world (real:=real)) msg :
  BtH_overlap g band_min n_bands iG1_min iG2_min iG3_min
              iG1_max iG2_max iG3_max w = Fatal msg w' → w' = w.
Proof.
  unfold BtH_overlap, CHK_MALLOC.
  rewrite undefined_unless_bind. destruct (fits_int _); [|done].
  rewrite CHECK_bind.
  match goal with |- (if ?c then _ else _) = _ → _ => destruct c end;
    [|by intros [= _ ->]].
  rewrite !(bind_Done _ _ _ _ _ (CHECK_true _ _)).
  do 5 (rewrite CHECK_bind;
        match goal with |- (if ?c then _ else _) = _ → _ => destruct c end;
        [|by intros [= _ ->]]).
  intros Hf. by apply quiet_not_Fatal in Hf; [|apply quiet_BtH_blocks].
Qed.

(** Every entry of the lists of lines 68-79 is a position of the grid, and
    the rows of line 107 are rows of [H]. *)
Lemma BtH_G_list_rows (d : maxwell_data)
    (iG1_min iG2_min iG3_min iG1_max iG2_max iG3_max : Z) pos :
  axis_ok (md_nx d) iG1_min iG1_max →
  axis_ok (md_ny d) iG2_min iG2_max →
  axis_ok (md_nz d) iG3_min iG3_max →
  pos ∈ BtH_G_list d iG1_min iG2_min iG3_min iG1_max iG2_max iG3_max →
  (0 <= pos.1.1 < md_nx d ∧ 0 <= pos.1.2 < md_ny d ∧ 0 <= pos.2 < md_nz d)
  ∧ ∀ c, 0 <= c < 2 → 0 <= H_row d pos c < md_nx d * md_ny d * md_nz d * 2.
Proof.
  intros Hx Hy Hz Hpos. unfold BtH_G_list in Hpos.
  apply list_elem_of_bind in Hpos as (i1 & Hpos & Hi1'%elem_of_seqZ).
  apply list_elem_of_bind in Hpos as (i2 & Hpos & Hi2'%elem_of_seqZ).
  apply list_elem_of_bind in Hpos as (i3 & ->%list_elem_of_singleton & Hi3'%elem_of_seqZ).
  cbn [fst snd].
  pose proof (G_pos_range (md_nx d) iG1_min iG1_max i1 Hx) as Hpx.
  pose proof (G_pos_range (md_ny d) iG2_min iG2_max i2 Hy) as Hpy.
  pose proof (G_pos_range (md_nz d) iG3_min iG3_max i3 Hz) as Hpz.
  specialize (Hpx ltac:(lia)). specialize (Hpy ltac:(lia)).
  specialize (Hpz ltac:(lia)).
  split; [done|]. intros c Hc. unfold H_row. cbn [fst snd].
  set (ix := G_pos (md_nx d) i1) in *. set (iy := G_pos (md_ny d) i2) in *.
  set (iz := G_pos (md_nz d) i3) in *.
  assert (0 <= ix * md_ny d + iy <= md_nx d * md_ny d - 1) as Hxy by nia.
  assert (0 <= (ix * md_ny d + iy) * md_nz d + iz
          <= md_nx d * md_ny d * md_nz d - 1) as Hxyz by nia.
  lia.
Qed.

(** X12.  The array positions of [BtH_overlap].  When the checks of lines
    46-62 pass, the loops of lines 68-79 fill exactly the [nG] entries
    that were allocated for [ix], [iy] and [iz]; every entry is a position
    inside the grid of [nx] x [ny] x [nz] points, so that the row read from
    [H.data] at line 107 is one of its [nx*ny*nz*2] rows; and different
    G-vectors get different positions. *)
Theorem BtH_overlap_positions `{!RealType real} (g : globals)
    (band_min n_bands iG1_min iG2_min iG3_min iG1_max iG2_max iG3_max : Z)
    (w w' : world (real:=real)) :
  BtH_overlap g band_min n_bands iG1_min iG2_min iG3_min
              iG1_max iG2_max iG3_max w = Done () w' →
  w' = w
  ∧ Z.of_nat (length (BtH_G_list (mdata g) iG1_min iG2_min iG3_min
                                 iG1_max iG2_max iG3_max))
    = nG iG1_min iG2_min iG3_min iG1_max iG2_max iG3_max
  ∧ NoDup (BtH_G_list (mdata g) iG1_min iG2_min iG3_min iG1_max iG2_max iG3_max)
  ∧ ∀ pos,
      pos ∈ BtH_G_list (mdata g) iG1_min iG2_min iG3_min iG1_max iG2_max iG3_max →
      (0 <= pos.1.1 < md_nx (mdata g) ∧ 0 <= pos.1.2 < md_ny (mdata g)
       ∧ 0 <= pos.2 < md_nz (mdata g))
      ∧ ∀ c, 0 <= c < 2 →
          0 <= H_row (mdata g) pos c
          < md_nx (mdata g) * md_ny (mdata g) * md_nz (mdata g) * 2.
Proof.
  intros Hrun. unfold nG.
  set (d := mdata g).
  set (L := BtH_G_list d iG1_min iG2_min iG3_min iG1_max iG2_max iG3_max).
  apply BtH_overlap_Done_inv in Hrun as (-> & Hx & Hy & Hz & _).
  fold d in Hx, Hy, Hz.
  destruct Hx as [Hi1 Hx'], Hy as [Hi2 Hy'], Hz as [Hi3 Hz'].
  assert (axis_ok (md_nx d) iG1_min iG1_max) as Hx by done.
  assert (axis_ok (md_ny d) iG2_min iG2_max) as Hy by done.
  assert (axis_ok (md_nz d) iG3_min iG3_max) as Hz by done.
  split; [done|]. split; [|split].
  - unfold L, BtH_G_list.
    rewrite (length_bind_const _ _
               (Z.to_nat (iG2_max - iG2_min + 1) * Z.to_nat (iG3_max - iG3_min + 1))).
    { rewrite length_seqZ. lia. }
    intros i1.
    rewrite (length_bind_const _ _ (Z.to_nat (iG3_max - iG3_min + 1))).
    { by rewrite length_seqZ. }
    intros i2. rewrite (length_bind_const _ _ 1%nat) by done.
    rewrite length_seqZ. lia.
  - unfold L, BtH_G_list. apply NoDup_bind; [| |apply NoDup_seqZ].
    { intros i1 i1' pos Hj Hj' Hp Hp'.
      apply list_elem_of_bind in Hp as (i2 & Hp & _).
      apply list_elem_of_bind in Hp as (i3 & ->%list_elem_of_singleton & _).
      apply list_elem_of_bind in Hp' as (i2' & Hp' & _).
      apply list_elem_of_bind in Hp' as (i3' & Heq%list_elem_of_singleton & _).
      apply elem_of_seqZ in Hj, Hj'. simplify_eq.
      eapply (G_pos_inj (md_nx d)); [done| | |done]; lia. }
    intros i1 _. apply NoDup_bind; [| |apply NoDup_seqZ].
    { intros i2 i2' pos Hj Hj' Hp Hp'.
      apply list_elem_of_bind in Hp as (i3 & ->%list_elem_of_singleton & _).
      apply list_elem_of_bind in Hp' as (i3' & Heq%list_elem_of_singleton & _).
      apply elem_of_seqZ in Hj, Hj'. simplify_eq.
      eapply (G_pos_inj (md_ny d)); [done| | |done]; lia. }
    intros i2 _. apply NoDup_bind; [| |apply NoDup_seqZ].
    { intros i3 i3' pos Hj Hj' ->%list_elem_of_singleton Heq%list_elem_of_singleton.
      apply elem_of_seqZ in Hj, Hj'. simplify_eq.
      eapply (G_pos_inj (md_nz d)); [done| | |done]; lia. }
    intros i3 _. apply NoDup_singleton.
  - intros pos Hpos. unfold L, BtH_G_list in Hpos.
    apply list_elem_of_bind in Hpos as (i1 & Hpos & Hi1'%elem_of_seqZ).
    apply list_elem_of_bind in Hpos as (i2 & Hpos & Hi2'%elem_of_seqZ).
    apply list_elem_of_bind in Hpos as (i3 & ->%list_elem_of_singleton & Hi3'%elem_of_seqZ).
    fold d. cbn [fst snd].
    pose proof (G_pos_range (md_nx d) iG1_min iG1_max i1 Hx) as Hpx.
    pose proof (G_pos_range (md_ny d) iG2_min iG2_max i2 Hy) as Hpy.
    pose proof (G_pos_range (md_nz d) iG3_min iG3_max i3 Hz) as Hpz.
    specialize (Hpx ltac:(lia)). specialize (Hpy ltac:(lia)).
    specialize (Hpz ltac:(lia)).
    split; [done|]. intros c Hc. unfold H_row. cbn [fst snd].
    set (ix := G_pos (md_nx d) i1) in *. set (iy := G_pos (md_ny d) i2) in *.
    set (iz := G_pos (md_nz d) i3) in *.
    assert (0 <= ix * md_ny d + iy <= md_nx d * md_ny d - 1) as Hxy by nia.
    assert (0 <= (ix * md_ny d + iy) * md_nz d + iz
            <= md_nx d * md_ny d * md_nz d - 1) as Hxyz by nia.
    lia.
Qed.

(** ** The output file of [get_sdos] *)

Section SdosOutput.
Context {real : Type} `{!RealType real}.
Implicit Types (w : world (real:=real)) (ds : dataset (real:=real)).

Lemma store_array_spec p (vals : list real) w :
  ∃ w',
    store_array p vals w = Done () w'
    ∧ disk w' = disk w ∧ handles w' = handles w ∧ next_id w' = next_id w
    ∧ master w' = master w ∧ creatable w' = creatable w
    ∧ (∀ i v, vals !! i = Some v → mem w' (p + Z.of_nat i) = v)
    ∧ (∀ a, a < p ∨ p + Z.of_nat (length vals) <= a → mem w' a = mem w a).
Proof.
  eexists. split; [reflexivity|]. split_and!; try done.
  - intros i v Hi. simpl.
    apply (foldl_fn_insert_in (λ iv : nat * real, p + Z.of_nat iv.1) snd).
    + exists (i, v). split; [|done]. by apply (elem_of_lookup_imap_2 pair).
    + intros [i' v'] (j & y & ? & Hj)%elem_of_lookup_imap_1 Hk. simplify_eq/=.
      assert (j = i) as -> by lia. congruence.
  - intros a Ha. simpl.
    apply (foldl_fn_insert_notin (λ iv : nat * real, p + Z.of_nat iv.1) snd).
    intros [i' v'] (j & y & ? & Hj)%elem_of_lookup_imap_1. simplify_eq/=.
    apply lookup_lt_Some in Hj. lia.
Qed.

Lemma CHK_MALLOC_ok size n w :
  0 < size → 0 <= n → size * n < 2 ^ 63 →
  CHK_MALLOC (real:=real) size n w = Done () w.
Proof.
  intros. unfold CHK_MALLOC.
  assert (n mod 2 ^ 64 = n) as -> by (apply Z.mod_small; nia).
  assert (malloc_ok (size * n) = true) as ->; [|done].
  unfold malloc_ok, PTRDIFF_MAX. apply bool_decide_eq_true_2.
  rewrite Z.mod_small; nia.
Qed.

Lemma axis_ok_check n lo hi :
  axis_ok n lo hi →
  ((Z.quot (- n) 2 <? lo) && (hi <=? Z.quot n 2)
   || (lo =? hi) && (hi =? n - 1) && (n - 1 =? 0)) = true.
Proof.
  intros [_ Hax]. rewrite orb_true_iff, !andb_true_iff, Z.ltb_lt, Z.leb_le,
    !Z.eqb_eq. tauto.
Qed.

Lemma BtH_overlap_ok (g : globals) band_min n_bands
    iG1_min iG2_min iG3_min iG1_max iG2_max iG3_max w :
  axis_ok (md_nx (mdata g)) iG1_min iG1_max →
  axis_ok (md_ny (mdata g)) iG2_min iG2_max →
  axis_ok (md_nz (mdata g)) iG3_min iG3_max →
  (iG1_max - iG1_min + 1) * (iG2_max - iG2_min + 1) * (iG3_max - iG3_min + 1)
    < 2 ^ 31 →
  band_min + n_bands <= num_bands g →
  0 <= band_min → solver_ready g →
  BtH_overlap g band_min n_bands iG1_min iG2_min iG3_min
              iG1_max iG2_max iG3_max w = Done () w.
Proof.
  intros Hx Hy Hz HnG Hb Hbm (HHp & HH & Hap & HHb & _). unfold BtH_overlap.
  assert (BtH_blocks (Z.to_nat n_bands) g
            (BtH_G_list (mdata g) iG1_min iG2_min iG3_min iG1_max iG2_max iG3_max)
            (band_min + n_bands) band_min w = Done () w) as Hblocks.
  { eapply BtH_blocks_ok; [|lia|exact HH|done|exact HHb|done|lia].
    intros pos c Hpos Hc. by eapply BtH_G_list_rows. }
  set (nG := (iG1_max - iG1_min + 1) * (iG2_max - iG2_min + 1)
             * (iG3_max - iG3_min + 1)) in *.
  assert (1 <= nG) as HnG1.
  { destruct Hx as [? _], Hy as [? _], Hz as [? _]. unfold nG.
    assert (1 <= (iG1_max - iG1_min + 1) * (iG2_max - iG2_min + 1)) by nia.
    nia. }
  assert (fits_int nG = true) as ->.
  { unfold fits_int. rewrite andb_true_iff, Z.leb_le, Z.ltb_lt. lia. }
  rewrite (bind_Done _ _ _ _ _ (undefined_unless_true _)).
  rewrite !(bind_Done _ _ _ _ _ (CHK_MALLOC_ok 4 nG _ ltac:(lia) ltac:(lia) ltac:(lia))).
  destruct Hx as [Hx1 Hx2], Hy as [Hy1 Hy2], Hz as [Hz1 Hz2].
  rewrite (proj2 (Z.leb_le iG1_min iG1_max)), (proj2 (Z.leb_le iG2_min iG2_max)),
    (proj2 (Z.leb_le iG3_min iG3_max)), (proj2 (Z.leb_le (band_min + n_bands) _))
    by done.
  cbn [andb].
  rewrite (bind_Done _ _ _ _ _ (CHECK_true _ _)).
  rewrite !axis_ok_check by done.
  rewrite !(bind_Done _ _ _ _ _ (CHECK_true _ _)).
  done.
Qed.

Lemma fix_fname_fits_if (fname prefix : option string) (d : maxwell_data) :
  match md_parity d with
  | Some p => (String.length p ≤ 18)%nat
  | None => True
  end →
  (strlen (fix_fname fname prefix d true) + 1 <=? fix_fname_alloc fname prefix)
  = true.
Proof.
  intros Hp. apply Z.leb_le.
  unfold fix_fname, fix_fname_alloc, strcat, strlen.
  destruct (md_parity d) as [p|]; rewrite ?str_length_app; simpl; lia.
Qed.

(** A dataset of rank 1 is created and written from the [n] elements of
    the buffer at [buf], as [get_sdos] does four times. *)
Lemma create_write_1d w fid path name description n buf :
  handles w !! fid = Some (HFile path true) →
  is_Some (disk w !! path) → find_dataset w path name = None →
  0 <= n < 2 ^ 31 → 0 <= next_id w →
  ∃ w1 w2 ds,
    matrixio_create_dataset fid name description 1 [n] w = Done (next_id w) w1
    ∧ matrixio_write_real_data (next_id w) [n] [0] 1 buf w1 = Done () w2
    ∧ handles w2 = <[next_id w := HData path name true]> (handles w)
    ∧ next_id w2 = next_id w + 1 ∧ mem w2 = mem w ∧ master w2 = master w
    ∧ find_dataset w2 path name = Some ds
    ∧ ds_dims ds = [n]
    ∧ ds_attrs ds = description_attr (master w) description
    ∧ (∀ i, 0 <= i < n → ds_elems ds !! [i] = Some (mem w (buf + i)))
    ∧ ∀ path' name', (path', name') ≠ (path, name) →
        find_dataset w2 path' name' = find_dataset w path' name'.
Proof.
  intros Hh [f Hd] Hf Hn Hid.
  assert (f !! name = None) as Hfn.
  { unfold find_dataset in Hf. by rewrite Hd in Hf. }
  destruct (create_dataset_new w fid path f name description 1 [n])
    as (w1 & Hc & Hh1 & Hn1 & Hm1 & Hma1 & Hf1 & Ho1); [done..|lia|done|done|].
  simpl in Hf1. rewrite to_hsize_id in Hf1 by lia.
  set (ds1 := Dataset [n] ∅ _) in Hf1.
  assert (handles w1 !! next_id w = Some (HData path name true)) as Hh1'
    by (rewrite Hh1; apply lookup_insert_eq).
  opose proof* (write_real_data_spec w1 (next_id w) path name ds1 [n] [0] 1 buf)
    as Hw; [done|done|done|simpl; lia|by apply list.Forall_singleton| |lia|].
  { simpl. rewrite !andb_true_iff, !Z.leb_le. lia. }
  eexists w1, _, (Dataset _ _ _). split; [done|]. split; [exact Hw|].
  split; [done|]. split; [done|]. split; [done|]. split; [done|].
  split; [by eapply find_dataset_store|].
  split; [done|]. split; [done|]. split.
  - intros i Hi. cbn [ds_elems].
    rewrite (write_elems_lookup _ _ [0] [n] [i]) by done.
    cbn [in_slab]. rewrite (proj2 (Z.leb_le 0 i)), (proj2 (Z.ltb_lt i (0 + n)))
      by lia.
    cbn [andb]. rewrite Hm1. do 2 f_equal. unfold offset. simpl. lia.
  - intros path' name' Hne.
    rewrite <-Ho1 by done. by apply (find_dataset_store_ne w1).
Qed.

Lemma dataset_contents_1d w path name ds (vals : list real) :
  find_dataset w path name = Some ds →
  ds_dims ds = [Z.of_nat (length vals)] →
  (∀ i v, vals !! i = Some v → ds_elems ds !! [Z.of_nat i] = Some v) →
  dataset_contents w path name = Some vals.
Proof.
  intros Hf Hd Hel. unfold dataset_contents. rewrite Hf. simpl.
  rewrite Hd. simpl. f_equal. apply list_eq. intros i.
  rewrite list_lookup_fmap.
  destruct (vals !! i) as [v|] eqn:Hv.
  - rewrite lookup_seqZ_lt by (apply lookup_lt_Some in Hv; lia). simpl.
    unfold ds_elem. by rewrite Z.add_0_l, (Hel i v).
  - rewrite lookup_seqZ_ge; [done|]. apply lookup_ge_None in Hv. lia.
Qed.

Lemma matrixio_create_spec w fname :
  0 <= next_id w → creatable w (add_fname_suffix fname) = true →
  matrixio_create fname w
  = Done (next_id w)
      (World (<[add_fname_suffix fname := ∅]> (disk w))
         (<[next_id w := HFile (add_fname_suffix fname) true]> (handles w))
         (next_id w + 1) (mem w) (master w) (EvOpen (next_id w) :: log w)
         (creatable w)).
Proof.
  intros Hid Hcr. unfold matrixio_create.
  erewrite bind_Done; [|unfold H5Fcreate; rewrite Hcr; reflexivity]. simpl.
  rewrite (proj2 (Z.leb_le 0 _)) by done.
  by rewrite (bind_Done _ _ _ _ _ (CHECK_true _ _)).
Qed.

(** X13.  The file written by [get_sdos].  Conditions: the file can be
    created; the arrays of the solver have room ([solver_ready]); the
    buffer of [fix_fname] can be allocated and the parity string has at
    most 18 characters, so that the name fits in it; the index ranges pass
    the checks of [BtH_overlap]; [0 <= band_min], [0 <= n_bands] and
    [band_min + n_bands <= num_bands]; [1 <= freq_num]; the sizes fit an
    [int]; the arrays [sdos], [freqspan] and [iGspan] do not overlap.
    Then the call returns; the file of name [savename] holds exactly
    the datasets "sdos", "freqspan", "iGspan" and "kpoint"; "sdos" holds
    the computed values, "freqspan" the three frequency parameters,
    "iGspan" the bounds of the first axis and twice those of the second
    (line 174), and "kpoint" a single element, the first of [current_k];
    the other files are untouched; and of the five identifiers obtained
    only the last dataset and the file are closed, so that "sdos",
    "freqspan" and "iGspan" stay open. *)
Theorem get_sdos_output (g : globals) (fr : frame) (freq_min freq_max : real)
    (freq_num band_min n_bands : Z)
    (iG1_min iG2_min iG3_min iG1_max iG2_max iG3_max : Z)
    (saveprefix : option string) (sdos_vals : list real) w :
  0 <= next_id w →
  creatable w (savename g saveprefix) = true →
  solver_ready g →
  fix_fname_alloc (Some ("-sdos.k" +:+ pretty (kpoint_index g))) saveprefix
    < 2 ^ 63 →
  match md_parity (mdata g) with
  | Some p => (String.length p ≤ 18)%nat
  | None => True
  end →
  axis_ok (md_nx (mdata g)) iG1_min iG1_max →
  axis_ok (md_ny (mdata g)) iG2_min iG2_max →
  axis_ok (md_nz (mdata g)) iG3_min iG3_max →
  0 <= band_min → 0 <= n_bands → band_min + n_bands <= num_bands g →
  nG iG1_min iG2_min iG3_min iG1_max iG2_max iG3_max * n_bands < 2 ^ 31 →
  1 <= freq_num →
  freq_num * nG iG1_min iG2_min iG3_min iG1_max iG2_max iG3_max < 2 ^ 31 →
  Z.of_nat (length sdos_vals)
  = freq_num * nG iG1_min iG2_min iG3_min iG1_max iG2_max iG3_max →
  (fr_freqspan fr + 3 <= fr_sdos fr
   ∨ fr_sdos fr + Z.of_nat (length sdos_vals) <= fr_freqspan fr) →
  (fr_iGspan fr + 6 <= fr_sdos fr
   ∨ fr_sdos fr + Z.of_nat (length sdos_vals) <= fr_iGspan fr) →
  (fr_iGspan fr + 6 <= fr_freqspan fr ∨ fr_freqspan fr + 3 <= fr_iGspan fr) →
  ∃ w',
    get_sdos g fr freq_min freq_max freq_num band_min n_bands
             iG1_min iG2_min iG3_min iG1_max iG2_max iG3_max
             saveprefix sdos_vals w = Done () w'
    ∧ dataset_contents w' (savename g saveprefix) "sdos" = Some sdos_vals
    ∧ dataset_contents w' (savename g saveprefix) "freqspan"
      = Some [freq_min; freq_max; real_of_int freq_num]
    ∧ dataset_contents w' (savename g saveprefix) "iGspan"
      = Some (real_of_int
                <$> [iG1_min; iG1_max; iG2_min; iG2_max; iG2_min; iG2_max])
    ∧ dataset_contents w' (savename g saveprefix) "kpoint"
      = Some [mem w' (md_current_k (mdata g))]
    ∧ (∀ name, name ∉ ["sdos"; "freqspan"; "iGspan"; "kpoint"] →
         find_dataset w' (savename g saveprefix) name = None)
    ∧ (∀ path name, path ≠ savename g saveprefix →
         find_dataset w' path name = find_dataset w path name)
    ∧ handles w' !! (next_id w + 1)
      = Some (HData (savename g saveprefix) "sdos" true)
    ∧ handles w' !! (next_id w + 2)
      = Some (HData (savename g saveprefix) "freqspan" true)
    ∧ handles w' !! (next_id w + 3)
      = Some (HData (savename g saveprefix) "iGspan" true)
    ∧ handles w' !! (next_id w + 4) = None
    ∧ handles w' !! next_id w = None.
Proof.
  intros Hid Hcr Hready Halloc Hparity Hx Hy Hz Hbm Hnb Hbands HBtH Hfn HN Hlen
    Hd1 Hd2 Hd3.
  set (P := savename g saveprefix) in *.
  unfold nG in *. unfold get_sdos. cbv zeta.
  set (K := (iG1_max - iG1_min + 1) * (iG2_max - iG2_min + 1)
            * (iG3_max - iG3_min + 1)) in *.
  assert (1 <= K) as HK.
  { destruct Hx as [? _], Hy as [? _], Hz as [? _]. unfold K.
    assert (1 <= (iG1_max - iG1_min + 1) * (iG2_max - iG2_min + 1)) by nia.
    nia. }
  assert (fits_int K && fits_int (freq_num * K) && fits_int (K * n_bands) = true)
    as ->.
  { unfold fits_int. rewrite !andb_true_iff, !Z.leb_le, !Z.ltb_lt. nia. }
  rewrite (bind_Done _ _ _ _ _ (undefined_unless_true _)).
  destruct (store_array_spec (fr_iGspan fr)
              (iGspan_init iG1_min iG2_min iG3_min iG1_max iG2_max iG3_max) w)
    as (wa & Ha & Hda & Hha & Hna & _ & Hca & Hina & _).
  rewrite (bind_Done _ _ _ _ _ Ha).
  destruct (store_array_spec (fr_freqspan fr)
              [freq_min; freq_max; real_of_int freq_num] wa)
    as (wb & Hb & Hdb & Hhb & Hnb' & _ & Hcb & Hinb & Houtb).
  rewrite (bind_Done _ _ _ _ _ Hb).
  rewrite (bind_Done _ _ _ _ _
             (CHK_MALLOC_ok 16 (K * n_bands) wb ltac:(lia) ltac:(nia) ltac:(nia))).
  rewrite !(bind_Done _ _ _ _ _
             (CHK_MALLOC_ok 8 freq_num wb ltac:(lia) ltac:(nia) ltac:(nia))).
  rewrite (bind_Done _ _ _ _ _
             (CHK_MALLOC_ok 8 n_bands wb ltac:(lia) ltac:(nia) ltac:(nia))).
  rewrite (bind_Done _ _ _ _ _
             (CHK_MALLOC_ok 8 (freq_num * K) wb ltac:(lia) ltac:(nia) ltac:(nia))).
  rewrite (bind_Done _ _ _ _ _
             (CHK_MALLOC_ok 1 256 wb ltac:(lia) ltac:(lia) ltac:(lia))).
  rewrite (bind_Done _ _ _ _ _ (in_bounds_ok 0 freq_num wb ltac:(lia))).
  erewrite bind_Done.
  2:{ apply for_each_ok. intros b Hb'%elem_of_seqZ. apply in_bounds_ok.
      destruct Hready as (_ & _ & _ & _ & Hfreqs). lia. }
  rewrite (bind_Done _ _ _ _ _
             (BtH_overlap_ok g band_min n_bands iG1_min iG2_min iG3_min
                iG1_max iG2_max iG3_max wb Hx Hy Hz ltac:(fold K; nia) Hbands
                Hbm Hready)).
  destruct (store_array_spec (fr_sdos fr) sdos_vals wb)
    as (wc & Hc & Hdc & Hhc & Hnc & _ & Hcc & Hinc & Houtc).
  rewrite (bind_Done _ _ _ _ _ Hc).
  assert (next_id wc = next_id w) as Hnc' by congruence.
  assert (disk wc = disk w) as Hdc' by congruence.
  assert (handles wc = handles w) as Hhc' by congruence.
  assert (0 <= fix_fname_alloc
                 (Some ("-sdos.k" +:+ pretty (kpoint_index g))) saveprefix)
    as Halloc0 by (unfold fix_fname_alloc, strlen; lia).
  rewrite (bind_Done _ _ _ _ _
             (CHK_MALLOC_ok 1 _ wc ltac:(lia) Halloc0 ltac:(lia))).
  rewrite fix_fname_fits_if by done.
  rewrite (bind_Done _ _ _ _ _ (undefined_unless_true _)).
  assert (creatable wc P = true) as Hcrc by (by rewrite Hcc, Hcb, Hca).
  rewrite (bind_Done _ _ _ _ _ (matrixio_create_spec wc _ ltac:(lia) Hcrc)).
  fold (savename g saveprefix). fold P. rewrite Hnc', Hdc', Hhc'.
  set (w1 := World _ _ _ _ _ _ _).
  assert (handles w1 !! next_id w = Some (HFile P true)) as Hfile1
    by apply lookup_insert_eq.
  assert (∀ name, find_dataset w1 P name = None) as Hnone1.
  { intros name. unfold find_dataset, w1. simpl. by rewrite lookup_insert_eq. }
  assert (∀ path name, path ≠ P →
            find_dataset w1 path name = find_dataset w path name) as Hother1.
  { intros path name Hne. unfold find_dataset, w1. simpl.
    by rewrite lookup_insert_ne. }
  (* "sdos" *)
  destruct (create_write_1d w1 (next_id w) P "sdos" (Some "remember to unfold")
              (freq_num * K) (fr_sdos fr))
    as (w2 & w3 & ds_s & Hc1 & Hw1 & Hh3 & Hn3 & Hm3 & _ & Hf3 & Hdim3 & _
        & Hel3 & Ho3);
    [done|by (unfold w1; simpl; rewrite lookup_insert_eq)|done|nia
    |simpl; lia|].
  change (next_id w1) with (next_id w + 1) in *.
  rewrite (bind_Done _ _ _ _ _ Hc1), (bind_Done _ _ _ _ _ Hw1).
  (* "freqspan" *)
  destruct (create_write_1d w3 (next_id w) P "freqspan"
              (Some "freq_min, freq_max, freq_num") 3 (fr_freqspan fr))
    as (w4 & w5 & ds_f & Hc2 & Hw2 & Hh5 & Hn5 & Hm5 & _ & Hf5 & Hdim5 & _
        & Hel5 & Ho5).
  { rewrite Hh3, lookup_insert_ne by lia. done. }
  { apply find_dataset_disk in Hf3 as (f & -> & _). done. }
  { rewrite Ho3 by congruence. done. }
  { lia. }
  { lia. }
  rewrite Hn3 in *.
  replace (next_id w + 1 + 1) with (next_id w + 2) in * by lia.
  rewrite (bind_Done _ _ _ _ _ Hc2), (bind_Done _ _ _ _ _ Hw2).
  (* "iGspan" *)
  destruct (create_write_1d w5 (next_id w) P "iGspan"
              (Some "iG1_min, iG1_max, iG2_min, iG2_max, iG3_min, iG3_max")
              6 (fr_iGspan fr))
    as (w6 & w7 & ds_g & Hc3 & Hw3 & Hh7 & Hn7 & Hm7 & _ & Hf7 & Hdim7 & _
        & Hel7 & Ho7).
  { rewrite Hh5, lookup_insert_ne, Hh3, lookup_insert_ne by lia. done. }
  { apply find_dataset_disk in Hf5 as (f & -> & _). done. }
  { rewrite Ho5, Ho3 by congruence. done. }
  { lia. }
  { lia. }
  rewrite Hn5 in *.
  replace (next_id w + 2 + 1) with (next_id w + 3) in * by lia.
  rewrite (bind_Done _ _ _ _ _ Hc3), (bind_Done _ _ _ _ _ Hw3).
  (* "kpoint" *)
  destruct (create_write_1d w7 (next_id w) P "kpoint" (Some "NULL")
              1 (md_current_k (mdata g)))
    as (w8 & w9 & ds_k & Hc4 & Hw4 & Hh9 & Hn9 & Hm9 & _ & Hf9 & Hdim9 & _
        & Hel9 & Ho9).
  { rewrite Hh7, lookup_insert_ne, Hh5, lookup_insert_ne, Hh3, lookup_insert_ne
      by lia. done. }
  { apply find_dataset_disk in Hf7 as (f & -> & _). done. }
  { rewrite Ho7, Ho5, Ho3 by congruence. done. }
  { lia. }
  { lia. }
  rewrite Hn7 in *.
  replace (next_id w + 3 + 1) with (next_id w + 4) in * by lia.
  rewrite (bind_Done _ _ _ _ _ Hc4), (bind_Done _ _ _ _ _ Hw4).
  (* the two closes *)
  unfold matrixio_close_dataset, H5Dclose, matrixio_close, H5Fclose.
  assert (handles w9 !! (next_id w + 4) = Some (HData P "kpoint" true)) as Hd9
    by (rewrite Hh9; apply lookup_insert_eq).
  erewrite bind_Done.
  2:{ unfold close_handle. rewrite Hd9. reflexivity. }
  assert (handles w9 !! next_id w = Some (HFile P true)) as Hfile9.
  { rewrite Hh9, lookup_insert_ne, Hh7, lookup_insert_ne, Hh5, lookup_insert_ne,
      Hh3, lookup_insert_ne by lia. done. }
  unfold close_handle. cbn [handles add_event set_handles].
  rewrite lookup_delete_ne, Hfile9 by lia. cbn [is_file].
  eexists. split; [reflexivity|].
  assert (∀ path name w0 e1 e2 h1 h2,
            find_dataset (add_event e1 (set_handles h1
                            (add_event e2 (set_handles h2 w0)))) path name
            = find_dataset w0 path name) as Hfd by done.
  split_and!.
  - apply (dataset_contents_1d _ _ _ ds_s).
    + rewrite Hfd, Ho9, Ho7, Ho5 by congruence. done.
    + rewrite Hdim3. f_equal. lia.
    + intros i v Hi. rewrite Hel3 by (apply lookup_lt_Some in Hi; lia).
      f_equal. change (mem w1) with (mem wc). by apply Hinc.
  - apply (dataset_contents_1d _ _ _ ds_f).
    + rewrite Hfd, Ho9, Ho7 by congruence. done.
    + done.
    + intros i v Hi. rewrite Hel5 by (apply lookup_lt_Some in Hi; simpl in Hi; lia).
      f_equal. rewrite Hm3. change (mem w1) with (mem wc).
      rewrite Houtc by (apply lookup_lt_Some in Hi; simpl in Hi; lia).
      by apply Hinb.
  - apply (dataset_contents_1d _ _ _ ds_g).
    + rewrite Hfd, Ho9 by congruence. done.
    + done.
    + intros i v Hi. rewrite Hel7 by (apply lookup_lt_Some in Hi; simpl in Hi; lia).
      f_equal. rewrite Hm5, Hm3. change (mem w1) with (mem wc).
      rewrite Houtc by (apply lookup_lt_Some in Hi; simpl in Hi; lia).
      rewrite Houtb
        by (apply lookup_lt_Some in Hi; simpl in Hi; cbn [length]; lia).
      by apply Hina.
  - apply (dataset_contents_1d _ _ _ ds_k).
    + by rewrite Hfd.
    + done.
    + intros [|i] v Hi; simplify_eq/=. rewrite Hel9, Hm9 by lia.
      do 2 f_equal. lia.
  - intros name Hname. rewrite !not_elem_of_cons in Hname.
    rewrite Hfd, Ho9, Ho7, Ho5, Ho3 by naive_solver. done.
  - intros path name Hne.
    rewrite Hfd, Ho9, Ho7, Ho5, Ho3 by congruence. by apply Hother1.
  - cbn [handles add_event set_handles].
    rewrite !lookup_delete_ne, Hh9, lookup_insert_ne, Hh7, lookup_insert_ne,
      Hh5, lookup_insert_ne, Hh3, lookup_insert_eq by lia. done.
  - cbn [handles add_event set_handles].
    rewrite !lookup_delete_ne, Hh9, lookup_insert_ne, Hh7, lookup_insert_ne,
      Hh5, lookup_insert_eq by lia. done.
  - cbn [handles add_event set_handles].
    rewrite !lookup_delete_ne, Hh9, lookup_insert_ne, Hh7, lookup_insert_eq
      by lia. done.
  - cbn [handles add_event set_handles].
    rewrite lookup_delete_ne, lookup_delete_eq by lia. done.
  - cbn [handles add_event set_handles]. apply lookup_delete_eq.
Qed.

(** X14.  Arguments that [BtH_overlap] refuses give no file.  The checks
    of the index ranges and of the bands run after the allocations and
    before [matrixio_create]: when one of them does not hold, [get_sdos]
    does not return, and if it aborts no file has been created and no
    identifier opened. *)
Theorem get_sdos_rejected (g : globals) (fr : frame) (freq_min freq_max : real)
    (freq_num band_min n_bands : Z)
    (iG1_min iG2_min iG3_min iG1_max iG2_max iG3_max : Z)
    (saveprefix : option string) (sdos_vals : list real) w :
  ¬ (axis_ok (md_nx (mdata g)) iG1_min iG1_max
     ∧ axis_ok (md_ny (mdata g)) iG2_min iG2_max
     ∧ axis_ok (md_nz (mdata g)) iG3_min iG3_max
     ∧ band_min + n_bands <= num_bands g) →
  match get_sdos g fr freq_min freq_max freq_num band_min n_bands
                 iG1_min iG2_min iG3_min iG1_max iG2_max iG3_max
                 saveprefix sdos_vals w with
  | Done _ _ => False
  | Fatal _ w' => disk w' = disk w ∧ handles w' = handles w
  | Undefined => True
  end.
Proof.
  intros Hbad. unfold get_sdos. cbv zeta.
  rewrite undefined_unless_bind.
  match goal with |- context [if ?c then _ else _] => destruct c end; [|done].
  destruct (store_array_spec (fr_iGspan fr)
              (iGspan_init iG1_min iG2_min iG3_min iG1_max iG2_max iG3_max) w)
    as (wa & Ha & Hda & Hha & _).
  rewrite (bind_Done _ _ _ _ _ Ha).
  destruct (store_array_spec (fr_freqspan fr)
              [freq_min; freq_max; real_of_int freq_num] wa)
    as (wb & Hb & Hdb & Hhb & _).
  rewrite (bind_Done _ _ _ _ _ Hb).
  unfold CHK_MALLOC.
  repeat (rewrite CHECK_bind;
          match goal with |- context [if ?c then _ else _] => destruct c end;
          [|split; congruence];
          rewrite ?(bind_Done _ _ _ _ _ (CHECK_true _ _))).
  rewrite bind_unfold.
  destruct (quiet_in_bounds 0 freq_num wb) as [->| ->]; [|done].
  rewrite bind_unfold.
  destruct (quiet_for_each (seqZ 0 n_bands)
              (λ b, in_bounds (b + band_min) (freqs_num_items g))
              (λ b, quiet_in_bounds _ _) wb) as [->| ->]; [|done].
  rewrite bind_unfold.
  destruct (BtH_overlap _ _ _ _ _ _ _ _ _ wb) as [[] w0|msg w0|] eqn:HB.
  - apply BtH_overlap_Done_inv in HB. tauto.
  - apply BtH_overlap_Fatal_inv in HB as ->. split; congruence.
  - done.
Qed.

End SdosOutput.

(** ** The further properties at concrete inputs *)

Lemma create_then_open_witness :
  (∃ w1 w2,
     matrixio_create "run" w_empty = Done 1 w1
     ∧ disk w1 !! "run.h5" = Some ∅
     ∧ handles w1 !! 1 = Some (HFile "run.h5" true)
     ∧ matrixio_open "run" w1 = Done 2 w2
     ∧ handles w2 !! 2 = Some (HFile "run.h5" false)
     ∧ disk w2 = disk w1)
  ∧ matrixio_create "run" w_readonly
    = Fatal "error creating HDF output file" w_readonly.
Proof.
  split.
  - apply (create_then_open w_empty "run"); [simpl; lia|reflexivity].
  - apply (create_then_open w_readonly "run"); [simpl; lia|reflexivity].
Defined.

Lemma create_dataset_spec_witness :
  ∃ w',
    matrixio_create_dataset 1 "d" (Some "rows") 2 [2; 3] w_file = Done 2 w'
    ∧ handles w' = <[2 := HData "run.h5" "d" true]> (handles w_file)
    ∧ next_id w' = 3 ∧ mem w' = mem w_file ∧ master w' = true
    ∧ find_dataset w' "run.h5" "d"
      = Some (Dataset [2; 3] ∅ {["description" := "rows"]})
    ∧ ∀ path' name', (path', name') ≠ ("run.h5", "d") →
        find_dataset w' path' name' = find_dataset w_file path' name'.
Proof.
  apply (create_dataset_spec w_file 1 "run.h5" ∅ "d" (Some "rows") 2 [2; 3]).
  - by vm_compute.
  - by vm_compute.
  - by vm_compute.
  - lia.
  - reflexivity.
  - simpl. lia.
Defined.

Lemma create_dataset_taken_witness :
  matrixio_create_dataset 1 "d" (Some "again") 2 [2; 3] (w_dataset 2 [2; 3])
  = Fatal "error creating HDF attr" (w_dataset 2 [2; 3]).
Proof.
  apply (create_dataset_taken (w_dataset 2 [2; 3]) 1 "run.h5"
           {["d" := Dataset [2; 3] ∅ ∅]} "d" (Dataset [2; 3] ∅ ∅)
           (Some "again") 2 [2; 3]).
  - by vm_compute.
  - by vm_compute.
  - by vm_compute.
  - lia.
  - reflexivity.
Defined.

Lemma write_changes_its_hyperslab_witness :
  ∃ w' ds',
    matrixio_write_real_data 2 [1; 3] [1; 0] 2 100 (w_dataset 2 [2; 3])
    = Done () w'
    ∧ handles w' = handles (w_dataset 2 [2; 3])
    ∧ next_id w' = 3 ∧ mem w' = mem (w_dataset 2 [2; 3])
    ∧ find_dataset w' "run.h5" "d" = Some ds'
    ∧ ds_dims ds' = [2; 3] ∧ ds_attrs ds' = ∅
    ∧ (∀ x, ds_elems ds' !! x
            = if in_slab [1; 0] [1; 3] x
              then Some (mem (w_dataset 2 [2; 3])
                           (100 + 2 * offset [1; 3] (zip_with Z.sub x [1; 0])))
              else ds_elems (Dataset [2; 3] ∅ ∅) !! x)
    ∧ ∀ path' name', (path', name') ≠ ("run.h5", "d") →
        find_dataset w' path' name'
        = find_dataset (w_dataset 2 [2; 3]) path' name'.
Proof.
  apply (write_changes_its_hyperslab (w_dataset 2 [2; 3]) 2 "run.h5" "d"
           (Dataset [2; 3] ∅ ∅) [1; 3] [1; 0] 2 100).
  - by vm_compute.
  - by vm_compute.
  - done.
  - simpl. lia.
  - repeat constructor; lia.
  - by vm_compute.
  - lia.
Defined.

Lemma write_stride_zero_silent_witness :
  ∃ w',
    matrixio_write_real_data 2 [1; 3] [0; 0] 0 0 (w_dataset 2 [2; 3]) = Done () w'
    ∧ mem w' = mem (w_dataset 2 [2; 3])
    ∧ ∀ path' name',
        find_dataset w' path' name'
        = find_dataset (w_dataset 2 [2; 3]) path' name'.
Proof.
  apply (write_stride_zero_silent (w_dataset 2 [2; 3]) 2 "run.h5" "d" true
           (Dataset [2; 3] ∅ ∅) [1; 3] [0; 0] 0).
  - by vm_compute.
  - by vm_compute.
  - done.
  - simpl. lia.
  - reflexivity.
  - reflexivity.
Defined.

Lemma read_rows_strided_witness :
  ∃ w',
    matrixio_read_real_data 1 "d" 2 [2; 3] 1 1 2 1000 (w_dataset 2 [2; 3])
    = Done () w'
    ∧ disk w' = disk (w_dataset 2 [2; 3])
    ∧ handles w' = delete 3 (handles (w_dataset 2 [2; 3]))
    ∧ (∀ x, in_slab [1; 0] [1; 3] x = true →
            mem w' (read_slot [2; 3] 1 1 2 1000 x)
            = ds_elem (Dataset [2; 3] ∅ ∅) x)
    ∧ (∀ a, (∀ x, in_slab [1; 0] [1; 3] x = true →
                 read_slot [2; 3] 1 1 2 1000 x ≠ a) →
            mem w' a = mem (w_dataset 2 [2; 3]) a).
Proof.
  apply (read_rows_strided (w_dataset 2 [2; 3]) 1 "run.h5" true "d"
           (Dataset [2; 3] ∅ ∅) [2; 3] 1 1 2 1000).
  - by vm_compute.
  - by vm_compute.
  - done.
  - done.
  - simpl. lia.
  - repeat constructor; lia.
  - lia.
  - lia.
  - simpl. lia.
  - lia.
Defined.

Lemma read_after_writes_witness :
  ∃ w1 w2,
    run_writes 2 [WriteCall [1; 3] [0; 0] 2 0; WriteCall [2; 3] [0; 0] 1 100]
               (w_dataset 2 [2; 3]) = Done () w1
    ∧ matrixio_read_real_data 1 "d" 2 [2; 3] 1 0 1 1000 w1 = Done () w2
    ∧ (∀ x ws1 c ws2,
         in_slab [0; 0] [1; 3] x = true →
         [WriteCall [1; 3] [0; 0] 2 0; WriteCall [2; 3] [0; 0] 1 100]
         = ws1 ++ c :: ws2 →
         slab_of c x = true →
         (∀ c', c' ∈ ws2 → slab_of c' x = false) →
         mem w2 (read_slot [2; 3] 1 0 1 1000 x)
         = mem (w_dataset 2 [2; 3]) (wc_slot c x))
    ∧ (∀ x,
         in_slab [0; 0] [1; 3] x = true →
         (∀ c, c ∈ [WriteCall [1; 3] [0; 0] 2 0; WriteCall [2; 3] [0; 0] 1 100] →
               slab_of c x = false) →
         mem w2 (read_slot [2; 3] 1 0 1 1000 x)
         = ds_elem (Dataset [2; 3] ∅ ∅) x).
Proof.
  apply (read_after_writes (w_dataset 2 [2; 3]) 2 1 "run.h5" true "d"
           (Dataset [2; 3] ∅ ∅) [2; 3]
           [WriteCall [1; 3] [0; 0] 2 0; WriteCall [2; 3] [0; 0] 1 100]
           1 0 1 1000).
  - by vm_compute.
  - by vm_compute.
  - by vm_compute.
  - done.
  - done.
  - simpl. lia.
  - repeat constructor; lia.
  - repeat constructor; simpl; lia.
  - lia.
  - lia.
  - simpl. lia.
  - lia.
Defined.

Lemma read_rows_out_of_range_witness :
  ∃ w',
    matrixio_read_real_data 1 "d" 2 [2; 3] 2 1 1 1000 (w_dataset 2 [2; 3])
    = Done () w'
    ∧ mem w' = mem (w_dataset 2 [2; 3])
    ∧ disk w' = disk (w_dataset 2 [2; 3]).
Proof.
  apply (read_rows_out_of_range (w_dataset 2 [2; 3]) 1 "run.h5" true "d"
           (Dataset [2; 3] ∅ ∅) [2; 3] 2 1 1 1000).
  - by vm_compute.
  - by vm_compute.
  - done.
  - done.
  - simpl. lia.
  - repeat constructor; lia.
  - lia.
  - simpl. lia.
  - lia.
Defined.

Lemma read_missing_dataset_witness :
  matrixio_read_real_data 1 "e" 2 [2; 3] 2 0 1 1000 (w_dataset 2 [2; 3])
  = Fatal MSG_RANK (w_dataset 2 [2; 3]).
Proof.
  apply (read_missing_dataset (w_dataset 2 [2; 3]) 1 "run.h5" true "e").
  - by vm_compute.
  - by vm_compute.
  - by vm_compute.
  - lia.
Defined.

Lemma BtH_overlap_positions_witness :
  w_empty = w_empty
  ∧ Z.of_nat (length (BtH_G_list (mdata g_example) 0 0 0 0 0 1)) = nG 0 0 0 0 0 1
  ∧ NoDup (BtH_G_list (mdata g_example) 0 0 0 0 0 1)
  ∧ ∀ pos, pos ∈ BtH_G_list (mdata g_example) 0 0 0 0 0 1 →
      (0 <= pos.1.1 < md_nx (mdata g_example)
       ∧ 0 <= pos.1.2 < md_ny (mdata g_example)
       ∧ 0 <= pos.2 < md_nz (mdata g_example))
      ∧ ∀ c, 0 <= c < 2 →
          0 <= H_row (mdata g_example) pos c
          < md_nx (mdata g_example) * md_ny (mdata g_example)
            * md_nz (mdata g_example) * 2.
Proof.
  apply (BtH_overlap_positions g_example 0 2 0 0 0 0 0 1 w_empty w_empty).
  by vm_compute.
Defined.

Lemma get_sdos_output_witness :
  ∃ w',
    get_sdos g_example fr_example 1 2 2 0 2 0 0 0 0 0 1 (Some "out")
             [10; 11; 12; 13] w_empty = Done () w'
    ∧ dataset_contents w' (savename g_example (Some "out")) "sdos"
      = Some [10; 11; 12; 13]
    ∧ dataset_contents w' (savename g_example (Some "out")) "freqspan"
      = Some [1; 2; real_of_int 2]
    ∧ dataset_contents w' (savename g_example (Some "out")) "iGspan"
      = Some (real_of_int <$> [0; 0; 0; 0; 0; 0])
    ∧ dataset_contents w' (savename g_example (Some "out")) "kpoint"
      = Some [mem w' (md_current_k (mdata g_example))]
    ∧ (∀ name, name ∉ ["sdos"; "freqspan"; "iGspan"; "kpoint"] →
         find_dataset w' (savename g_example (Some "out")) name = None)
    ∧ (∀ path name, path ≠ savename g_example (Some "out") →
         find_dataset w' path name = find_dataset w_empty path name)
    ∧ handles w' !! (next_id w_empty + 1)
      = Some (HData (savename g_example (Some "out")) "sdos" true)
    ∧ handles w' !! (next_id w_empty + 2)
      = Some (HData (savename g_example (Some "out")) "freqspan" true)
    ∧ handles w' !! (next_id w_empty + 3)
      = Some (HData (savename g_example (Some "out")) "iGspan" true)
    ∧ handles w' !! (next_id w_empty + 4) = None
    ∧ handles w' !! next_id w_empty = None.
Proof.
  apply (get_sdos_output g_example fr_example 1 2 2 0 2 0 0 0 0 0 1
           (Some "out") [10; 11; 12; 13] w_empty).
  - simpl. lia.
  - reflexivity.
  - vm_compute. intuition discriminate.
  - by vm_compute.
  - exact I.
  - vm_compute. intuition discriminate.
  - vm_compute. intuition discriminate.
  - vm_compute. intuition discriminate.
  - lia.
  - lia.
  - simpl. lia.
  - unfold nG. lia.
  - lia.
  - unfold nG. lia.
  - reflexivity.
  - simpl. lia.
  - simpl. lia.
  - simpl. lia.
Defined.

Lemma get_sdos_rejected_witness :
  match get_sdos g_example fr_example 1 2 2 0 2 1 0 0 0 0 1 (Some "out")
                 [10; 11; 12; 13] w_empty with
  | Done _ _ => False
  | Fatal _ w' => disk w' = disk w_empty ∧ handles w' = handles w_empty
  | Undefined => True
  end.
Proof.
  apply (get_sdos_rejected g_example fr_example 1 2 2 0 2 1 0 0 0 0 1
           (Some "out") [10; 11; 12; 13] w_empty).
  intros [[Hle _] _]. lia.
Defined.
